(** * GAR analysis: stand classification, area aggregation, targets and ranks

    A shallow embedding of the regulation modules of the GAR analysis
    ([gar/gar_8001.py], [gar/gar_8006.py], [gar/gar_8012.py],
    [gar/gar_4001.py], [gar/gar_4010.py]) and of the accumulator classes of
    [util/gar_classes.py].

    Conventions of the embedding:
    - hectares and targets (Python floats) are exact rationals [Q];
      ages, crown closures and percentages (Python ints) are [Z];
    - a nullable argument is an [option];
    - a [defaultdict] keyed by operating area, planning cell or level is a
      [gmap] read through [dd_get] and written through [dd_update], both of
      which supply the class's constructor value for a missing key;
    - the [bec] dictionary of a level, whose iteration order the rank walk
      depends on, is an insertion-ordered association list;
    - an exception leaves the function through [Raise]; [calculate_level]
      returns the accumulator state reached so far next to it;
    - the [target] argument is a number, as the docstrings have it. *)

From Stdlib Require Import ZArith QArith Qabs Lqa String Ascii List Bool.
From stdpp Require Import gmap strings.

Local Open Scope string_scope.

(** ** Outcomes of a call *)

Inductive exn := TypeError | KeyError | ZeroDivisionError.

Inductive result (A : Type) :=
| Ok (a : A)
| Raise (e : exn).
Arguments Ok {A} a.
Arguments Raise {A} e.

Definition bind {A B} (r : result A) (k : A -> result B) : result B :=
  match r with
  | Ok a => k a
  | Raise e => Raise e
  end.

(** Python's short-circuit [a and b] on conditions that may raise. *)
Definition andE (a b : result bool) : result bool :=
  bind a (fun x : bool => if x then b else Ok false).

(** [if c: t else: e] where evaluating [c] may raise. *)
Definition ifE {A} (c : result bool) (t e : result A) : result A :=
  bind c (fun x : bool => if x then t else e).

Definition is_ok {A} (r : result A) : bool :=
  match r with Ok _ => true | Raise _ => false end.

(** ** Comparisons of nullable numbers

    In Python 3 an ordering comparison with [None] raises [TypeError]. *)

Definition cmpZ (f : Z -> bool) (x : option Z) : result bool :=
  match x with
  | Some v => Ok (f v)
  | None => Raise TypeError
  end.

(** [lo <= x <= hi] *)
Definition betweenZ (lo hi : Z) (x : option Z) : result bool :=
  cmpZ (fun v => (lo <=? v)%Z && (v <=? hi)%Z) x.

(** [x >= n] *)
Definition geZ (n : Z) (x : option Z) : result bool :=
  cmpZ (fun v => (n <=? v)%Z) x.

(** Truth value of a nullable int: [None] and [0] are false. *)
Definition truthyZ (x : option Z) : bool :=
  match x with
  | Some v => negb (v =? 0)%Z
  | None => false
  end.

(** Truth value of a nullable float. *)
Definition truthyQ (x : option Q) : bool :=
  match x with
  | Some v => negb (Qeq_bool v 0)
  | None => false
  end.

(** Truth value of a string: the empty string is false. *)
Definition truthyS (s : string) : bool :=
  match s with
  | EmptyString => false
  | _ => true
  end.

Definition Qlt_bool (a b : Q) : bool := negb (Qle_bool b a).

(** ** Strings *)

(** [s.replace(' ', '')] *)
Fixpoint remove_spaces (s : string) : string :=
  match s with
  | EmptyString => EmptyString
  | String c r =>
      if Ascii.eqb c " "%char then remove_spaces r
      else String c (remove_spaces r)
  end.

(** [s.startswith(p)] *)
Definition startswith (s p : string) : bool := String.prefix p s.

(** [s.startswith((p1, ..., pn))] *)
Definition startswith_any (s : string) (ps : list string) : bool :=
  existsb (startswith s) ps.

(** [o == 'lit'] for a nullable string. *)
Definition opt_is (o : option string) (lit : string) : bool :=
  match o with
  | Some s => String.eqb s lit
  | None => false
  end.

(** ** The accumulator classes of [util/gar_classes.py] *)

Inductive Rank := NH | CH.

#[global] Instance Rank_eq_dec : EqDecision Rank.
Proof. solve_decision. Defined.

(** [CellArea.Level.BEC] *)
Record BEC := mkBEC {
  bec_hectares : Q;
  bec_rank : option Rank
}.

(** [CellArea.Level] *)
Record Level := mkLevel {
  level_bec : list (string * BEC);
  level_hectares : Q;
  level_total_hectares : Q;
  level_rank : option Rank;
  level_target : Q;
  level_stand_hectares : Q
}.

(** [CellArea] *)
Record CellArea := mkCellArea {
  cell_level : gmap (option string) Level;
  cell_hectares : Q;
  cell_target : Q;
  nthlb_hectares : Q;
  sic_hectares : Q;
  ch_hectares : Q;
  nh_hectares : Q;
  imm_hectares : Q;
  mat_hectares : Q;
  cell_stand_hectares : Q
}.

(** [TotalArea] *)
Record TotalArea := mkTotalArea {
  total_pcell : gmap string CellArea
}.

(** The constructors' initial values. *)
Definition BEC0 : BEC := mkBEC 0 None.
Definition Level0 : Level := mkLevel [] 0 0 None 0 0.
Definition CellArea0 : CellArea := mkCellArea ∅ 0 0 0 0 0 0 0 0 0.
Definition TotalArea0 : TotalArea := mkTotalArea ∅.

(** The attributes of a regulation object that [calculate_level] and the
    later passes mutate. *)
Record State := mkState {
  dict_total_area : gmap string TotalArea;
  dict_cell_area : gmap string CellArea;
  dict_zero_target : gmap string (gset string);
  lst_cells : list string
}.

Definition State0 : State := mkState ∅ ∅ ∅ [].

(** ** Dictionary accessors *)

Section Accessors.
Context {K : Type} `{Countable K} {V : Type}.

(** [d[k]] on a plain [dict]: a missing key raises. *)
Definition dict_getitem (m : gmap K V) (k : K) : result V :=
  match m !! k with
  | Some v => Ok v
  | None => Raise KeyError
  end.

(** [d[k]] on a [defaultdict]: a missing key is created with the
    factory's value; the dictionary after the access is returned too. *)
Definition defaultdict_getitem (dflt : V) (m : gmap K V) (k : K)
  : V * gmap K V :=
  match m !! k with
  | Some v => (v, m)
  | None => (dflt, <[k := dflt]> m)
  end.

(** The value read by [d[k]] on a [defaultdict]. *)
Definition dd_get (dflt : V) (m : gmap K V) (k : K) : V :=
  default dflt (m !! k).

(** [d[k].attr = ...]: access through the [defaultdict], then mutate the
    object found or created there. *)
Definition dd_update (dflt : V) (f : V -> V) (k : K) (m : gmap K V)
  : gmap K V :=
  <[k := f (dd_get dflt m k)]> m.
End Accessors.

(** [d[k]] on the insertion-ordered [bec] dictionary of a level. *)
Fixpoint al_get (l : list (string * BEC)) (k : string) : BEC :=
  match l with
  | [] => BEC0
  | (k', v) :: r => if String.eqb k' k then v else al_get r k
  end.

(** [d[k].attr = ...] on the [bec] dictionary: an existing key keeps its
    position, a new key goes to the end. *)
Fixpoint al_update (f : BEC -> BEC) (k : string) (l : list (string * BEC))
  : list (string * BEC) :=
  match l with
  | [] => [(k, f BEC0)]
  | (k', v) :: r =>
      if String.eqb k' k then (k', f v) :: r
      else (k', v) :: al_update f k r
  end.

(** ** Field setters *)

Definition add_bec_hectares (x : Q) (b : BEC) : BEC :=
  mkBEC (bec_hectares b + x) (bec_rank b).

Definition set_level_bec (f : list (string * BEC) -> list (string * BEC))
  (l : Level) : Level :=
  mkLevel (f (level_bec l)) (level_hectares l) (level_total_hectares l)
    (level_rank l) (level_target l) (level_stand_hectares l).

Definition add_level_hectares (x : Q) (l : Level) : Level :=
  mkLevel (level_bec l) (level_hectares l + x) (level_total_hectares l)
    (level_rank l) (level_target l) (level_stand_hectares l).

Definition add_level_total_hectares (x : Q) (l : Level) : Level :=
  mkLevel (level_bec l) (level_hectares l) (level_total_hectares l + x)
    (level_rank l) (level_target l) (level_stand_hectares l).

Definition set_level_rank (r : option Rank) (l : Level) : Level :=
  mkLevel (level_bec l) (level_hectares l) (level_total_hectares l)
    r (level_target l) (level_stand_hectares l).

Definition set_level_target (t : Q) (l : Level) : Level :=
  mkLevel (level_bec l) (level_hectares l) (level_total_hectares l)
    (level_rank l) t (level_stand_hectares l).

Definition set_cell_level
  (f : gmap (option string) Level -> gmap (option string) Level)
  (c : CellArea) : CellArea :=
  mkCellArea (f (cell_level c)) (cell_hectares c) (cell_target c)
    (nthlb_hectares c) (sic_hectares c) (ch_hectares c) (nh_hectares c)
    (imm_hectares c) (mat_hectares c) (cell_stand_hectares c).

Definition add_cell_hectares (x : Q) (c : CellArea) : CellArea :=
  mkCellArea (cell_level c) (cell_hectares c + x) (cell_target c)
    (nthlb_hectares c) (sic_hectares c) (ch_hectares c) (nh_hectares c)
    (imm_hectares c) (mat_hectares c) (cell_stand_hectares c).

Definition set_cell_target (t : Q) (c : CellArea) : CellArea :=
  mkCellArea (cell_level c) (cell_hectares c) t
    (nthlb_hectares c) (sic_hectares c) (ch_hectares c) (nh_hectares c)
    (imm_hectares c) (mat_hectares c) (cell_stand_hectares c).

Definition add_nthlb_hectares (x : Q) (c : CellArea) : CellArea :=
  mkCellArea (cell_level c) (cell_hectares c) (cell_target c)
    (nthlb_hectares c + x) (sic_hectares c) (ch_hectares c) (nh_hectares c)
    (imm_hectares c) (mat_hectares c) (cell_stand_hectares c).

Definition add_sic_hectares (x : Q) (c : CellArea) : CellArea :=
  mkCellArea (cell_level c) (cell_hectares c) (cell_target c)
    (nthlb_hectares c) (sic_hectares c + x) (ch_hectares c) (nh_hectares c)
    (imm_hectares c) (mat_hectares c) (cell_stand_hectares c).

Definition add_ch_hectares (x : Q) (c : CellArea) : CellArea :=
  mkCellArea (cell_level c) (cell_hectares c) (cell_target c)
    (nthlb_hectares c) (sic_hectares c) (ch_hectares c + x) (nh_hectares c)
    (imm_hectares c) (mat_hectares c) (cell_stand_hectares c).

Definition add_nh_hectares (x : Q) (c : CellArea) : CellArea :=
  mkCellArea (cell_level c) (cell_hectares c) (cell_target c)
    (nthlb_hectares c) (sic_hectares c) (ch_hectares c) (nh_hectares c + x)
    (imm_hectares c) (mat_hectares c) (cell_stand_hectares c).

Definition add_imm_hectares (x : Q) (c : CellArea) : CellArea :=
  mkCellArea (cell_level c) (cell_hectares c) (cell_target c)
    (nthlb_hectares c) (sic_hectares c) (ch_hectares c) (nh_hectares c)
    (imm_hectares c + x) (mat_hectares c) (cell_stand_hectares c).

Definition add_mat_hectares (x : Q) (c : CellArea) : CellArea :=
  mkCellArea (cell_level c) (cell_hectares c) (cell_target c)
    (nthlb_hectares c) (sic_hectares c) (ch_hectares c) (nh_hectares c)
    (imm_hectares c) (mat_hectares c + x) (cell_stand_hectares c).

Definition set_pcell (f : gmap string CellArea -> gmap string CellArea)
  (t : TotalArea) : TotalArea :=
  mkTotalArea (f (total_pcell t)).

(** ** Helpers shared by the decision tables *)

(** An [if/elif] chain over closed age bands [lo <= age <= hi]: the first
    band that contains [age] assigns its label, otherwise [level] stays. *)
Fixpoint age_bands (bands : list (Z * Z * string)) (age : Z)
  (level : option string) : option string :=
  match bands with
  | [] => level
  | (lo, hi, lbl) :: r =>
      if ((lo <=? age)%Z && (age <=? hi)%Z)%bool then Some lbl
      else age_bands r age level
  end.

(** An [if/elif] chain whose conditions may raise: conditions are evaluated
    in order until one is true. *)
Fixpoint elifE {A} (cs : list (result bool * A)) (dflt : A) : result A :=
  match cs with
  | [] => Ok dflt
  | (c, v) :: r => ifE c (Ok v) (elifE r dflt)
  end.

(** [thlb = float(thlb) if thlb else 0] *)
Definition thlb_value (thlb : option Q) : Q :=
  match thlb with
  | Some q => if Qeq_bool q 0 then 0 else q
  | None => 0
  end.

(** [x is not None and x >= n] on a nullable int. *)
Definition some_geZ (n : Z) (x : option Z) : bool :=
  match x with Some v => (n <=? v)%Z | None => false end.

(** [x is not None and x > n] on a nullable int. *)
Definition some_gtZ (n : Z) (x : option Z) : bool :=
  match x with Some v => (n <? v)%Z | None => false end.

(** [x is not None and x >= n] on a nullable float. *)
Definition some_geQ (n : Q) (x : option Q) : bool :=
  match x with Some v => Qle_bool n v | None => false end.

(** [x is not None and x < n] on a nullable float. *)
Definition some_ltQ (n : Q) (x : option Q) : bool :=
  match x with Some v => Qlt_bool v n | None => false end.

(** [self.lst_cells.append(pcell)] unless already present. *)
Definition register_cell (c : string) (l : list string) : list string :=
  if existsb (String.eqb c) l then l else l ++ [c].

(** [if op_area and target == 0: self.dict_zero_target[op_area].add(pcell)] *)
Definition register_zero_target (op_area c : string) (target : Q)
  (z : gmap string (gset string)) : gmap string (gset string) :=
  if (truthyS op_area && Qeq_bool target 0)%bool
  then dd_update (∅ : gset string) (fun g => {[c]} ∪ g) op_area z
  else z.

(** [cells[pcell].level[level].bec[bec].hectares += x] *)
Definition cell_add_bec (level : option string) (bec : string) (x : Q)
  (c : CellArea) : CellArea :=
  set_cell_level
    (dd_update Level0 (set_level_bec (al_update (add_bec_hectares x) bec))
       level) c.

(** [cells[pcell].level[level].hectares += x] *)
Definition cell_add_level (level : option string) (x : Q) (c : CellArea)
  : CellArea :=
  set_cell_level (dd_update Level0 (add_level_hectares x) level) c.

(** [cells[pcell].level[level].total_hectares += x] *)
Definition cell_add_level_total (level : option string) (x : Q)
  (c : CellArea) : CellArea :=
  set_cell_level (dd_update Level0 (add_level_total_hectares x) level) c.

(** [self.dict_total_area[op_area].pcell[pcell]] mutated by [f]. *)
Definition on_total (op_area c : string) (f : CellArea -> CellArea)
  (m : gmap string TotalArea) : gmap string TotalArea :=
  dd_update TotalArea0 (set_pcell (dd_update CellArea0 f c)) op_area m.

(** [self.dict_cell_area[pcell]] mutated by [f]. *)
Definition on_cell (c : string) (f : CellArea -> CellArea)
  (m : gmap string CellArea) : gmap string CellArea :=
  dd_update CellArea0 f c m.

(** Reading a cell of either hierarchy. *)
Definition total_cell (s : State) (op_area c : string) : CellArea :=
  dd_get CellArea0 (total_pcell (dd_get TotalArea0 (dict_total_area s) op_area)) c.

Definition alone_cell (s : State) (c : string) : CellArea :=
  dd_get CellArea0 (dict_cell_area s) c.

(** Truth value of a level label: [None] and the empty string are false. *)
Definition truthyL (level : option string) : bool :=
  match level with
  | Some l => truthyS l
  | None => false
  end.

(** The bucket [cell.level[level].bec[bec]]. *)
Definition bucket (c : CellArea) (level bec : string) : BEC :=
  al_get (level_bec (dd_get Level0 (cell_level c) (Some level))) bec.

(** The object [cell.level[level]]. *)
Definition level_of (c : CellArea) (level : string) : Level :=
  dd_get Level0 (cell_level c) (Some level).

(** The keys of [cell.level[level].bec], in iteration order. *)
Definition bec_keys (c : CellArea) (level : string) : list string :=
  map fst (level_bec (level_of c level)).

(** Reading [cell.level[level]] creates the level when it is missing. *)
Definition touch_level (level : string) (c : CellArea) : CellArea :=
  set_cell_level (dd_update Level0 (fun l => l) (Some level)) c.

Definition set_bec_hectares (x : Q) (b : BEC) : BEC :=
  mkBEC x (bec_rank b).

Definition set_bec_rank (r : option Rank) (b : BEC) : BEC :=
  mkBEC (bec_hectares b) r.

(** [cell.level[level].bec[bec]] mutated by [f]. *)
Definition on_bucket (level bec : string) (f : BEC -> BEC) (c : CellArea)
  : CellArea :=
  set_cell_level
    (dd_update Level0 (set_level_bec (al_update f bec)) (Some level)) c.

(** [cell.level[level]] mutated by [f]. *)
Definition on_level (level : string) (f : Level -> Level) (c : CellArea)
  : CellArea :=
  set_cell_level (dd_update Level0 f (Some level)) c.

(** The local variables of one cell's rank walk, with the cell itself.
    [rank] is [None] for the initial empty string. *)
Record Walk := mkWalk {
  walk_cell : CellArea;
  running_total : Q;
  rank : option Rank
}.

Definition is_CH (r : option Rank) : bool :=
  match r with Some CH => true | _ => false end.

(** [rank = NH if running_total <= target else CH] *)
Definition rank_for (running_total target : Q) : Rank :=
  if Qle_bool running_total target then NH else CH.

Definition set_walk_cell (f : CellArea -> CellArea) (w : Walk) : Walk :=
  mkWalk (f (walk_cell w)) (running_total w) (rank w).

(** * GAR 8-001, mule deer *)

Module Gar8001.

Definition str_imm := "Immature".
Definition str_nthlb_sic := "NTHLB SIC".
Definition str_sic := "SIC".

Definition lst_level : list string :=
  ["NTHLB SIC"; "SIC"; "NTHLB Recruit 1"; "Recruit 1"; "NTHLB Recruit 2";
   "Recruit 2"; "NTHLB Recruit 3"; "Recruit 3"; "NTHLB Recruit 4";
   "Recruit 4"; "NTHLB Recruit 5"; "Recruit 5"; "NTHLB Recruit 6";
   "Recruit 6"; "NTHLB Recruit 7"; "Recruit 7"; "NTHLB Recruit 8";
   "Recruit 8"; "NTHLB Recruit 9"; "Recruit 9"; "NTHLB Recruit 10";
   "Recruit 10"; "NTHLB Recruit 11"; "Recruit 11"; "NTHLB Recruit 12";
   "Recruit 12"].

(** The recruitment ladder of the shallow zone and of IDFmw. *)
Definition bands_140 : list (Z * Z * string) :=
  [(130, 139, "Recruit 1"); (120, 129, "Recruit 2");
   (110, 119, "Recruit 3"); (100, 109, "Recruit 4");
   (90, 99, "Recruit 5"); (80, 89, "Recruit 6");
   (70, 79, "Recruit 7"); (60, 69, "Recruit 8")]%Z.

(** The recruitment ladder of IDFdk, IDFdm, ICHdw and MS. *)
Definition bands_175 : list (Z * Z * string) :=
  [(165, 174, "Recruit 1"); (155, 164, "Recruit 2");
   (145, 154, "Recruit 3"); (135, 144, "Recruit 4");
   (125, 134, "Recruit 5"); (115, 124, "Recruit 6");
   (105, 114, "Recruit 7"); (95, 104, "Recruit 8");
   (85, 94, "Recruit 9"); (75, 84, "Recruit 10");
   (65, 74, "Recruit 11"); (55, 64, "Recruit 12")]%Z.

(** The non-timber ladder of IDFdk, IDFdm, ICHdw and MS. *)
Definition bands_nthlb : list (Z * Z * string) :=
  [(115, 119, "NTHLB Recruit 6"); (105, 114, "NTHLB Recruit 7");
   (95, 104, "NTHLB Recruit 8"); (85, 94, "NTHLB Recruit 9");
   (75, 84, "NTHLB Recruit 10"); (65, 74, "NTHLB Recruit 11");
   (55, 64, "NTHLB Recruit 12")]%Z.

(** Shallow snowpack zone: BG, PP, IDFxh with fir leading. *)
Definition shallow (age : option Z) : option string :=
  match age with
  | Some a =>
      if (a =? 0)%Z then None
      else if (140 <=? a)%Z then Some "SIC"
      else age_bands bands_140 a None
  | None => None
  end.

(** [(age is not None and age >= T) or (diam is not None and diam >= 40
    and age is not None and age > 0)] *)
Definition sic_test (T : Z) (age : option Z) (diam : option Q) : bool :=
  some_geZ T age || (some_geQ 40 diam && some_gtZ 0 age).

(** The two successive [if]s of a timber branch: the SIC test, then the
    recruitment ladder for diameters below 40. *)
Definition thlb_branch (T : Z) (bands : list (Z * Z * string))
  (age : option Z) (diam : option Q) : option string :=
  let level := if sic_test T age diam then Some "SIC" else None in
  if some_ltQ 40 diam then
    match age with
    | Some a => if (a =? 0)%Z then level else age_bands bands a level
    | None => level
    end
  else level.

(** IDFmw with [thlb == 0]. *)
Definition idfmw_nthlb (age cc pct : option Z) : result (option string) :=
  if (truthyZ cc && truthyZ age && truthyZ pct
      && some_geZ 50 cc && some_geZ 120 age && some_geZ 50 pct)%bool
  then Ok (Some "NTHLB SIC")
  else if (truthyZ cc && some_geZ 36 cc)%bool then
    let cc_36_50 := Ok (some_geZ 36 cc && negb (some_geZ 50 cc))%bool in
    elifE
      [(andE cc_36_50 (betweenZ 130 139 age), Some "NTHLB Recruit 1");
       (andE cc_36_50 (betweenZ 120 129 age), Some "NTHLB Recruit 2");
       (betweenZ 110 119 age, Some "NTHLB Recruit 3");
       (betweenZ 100 109 age, Some "NTHLB Recruit 4");
       (betweenZ 90 99 age, Some "NTHLB Recruit 5");
       (betweenZ 80 89 age, Some "NTHLB Recruit 6");
       (betweenZ 70 79 age, Some "NTHLB Recruit 7");
       (betweenZ 60 69 age, Some "NTHLB Recruit 8")]
      None
  else Ok None.

(** Moderate snowpack zone, IDFmw. *)
Definition idfmw (age : option Z) (spp : string) (cc : option Z)
  (slp : option string) (thlb : Q) (diam : option Q) (pct : option Z)
  : result (option string) :=
  if (startswith spp "F" && negb (opt_is slp "80+"))%bool then
    if Qlt_bool 0 thlb then
      if (truthyZ cc && some_geZ 36 cc)%bool
      then Ok (thlb_branch 140 bands_140 age diam)
      else Ok None
    else if Qeq_bool thlb 0 then idfmw_nthlb age cc pct
    else Ok None
  else Ok None.

(** IDFdk, IDFdm, ICHdw, MS with [thlb == 0]. *)
Definition moderate_nthlb (age pct : option Z) : result (option string) :=
  match age with
  | Some a =>
      if (a =? 0)%Z then Ok None
      else
        ifE (andE (Ok (120 <=? a)%Z) (geZ 50 pct))
          (Ok (Some "NTHLB SIC"))
          (Ok (age_bands bands_nthlb a None))
  | None => Ok None
  end.

(** Moderate snowpack zone, IDFdk, IDFdm, ICHdw and MS. *)
Definition moderate (age : option Z) (spp : string) (cc : option Z)
  (slp : option string) (thlb : Q) (diam : option Q) (pct : option Z)
  : result (option string) :=
  ifE (andE (Ok (startswith spp "F"))
         (andE (geZ 36 cc) (Ok (negb (opt_is slp "80+")))))
    (if Qlt_bool 0 thlb then Ok (thlb_branch 175 bands_175 age diam)
     else if Qeq_bool thlb 0 then moderate_nthlb age pct
     else Ok None)
    (Ok None).

(** The [if/elif] chain of one crown-closure class of the deep zone;
    [l1] to [l5] are its labels in the order of the chain and [lo5], [hi5]
    the bounds of its last band. *)
Definition deep_chain (l1 l2 l3 l4 l5 : string) (lo5 hi5 : Z)
  (age : option Z) (diam : option Q) : option string :=
  match age, diam with
  | Some a, Some d =>
      if ((a =? 0)%Z || Qeq_bool d 0)%bool then None
      else if ((100 <=? a)%Z || (Qle_bool 40 d && (0 <? a)%Z))%bool
      then Some l1
      else if ((90 <=? a)%Z && (a <=? 99)%Z && Qlt_bool d 40)%bool
      then Some l2
      else if ((80 <=? a)%Z && (a <=? 89)%Z && Qlt_bool d 40)%bool
      then Some l3
      else if ((70 <=? a)%Z && (a <=? 79)%Z && Qlt_bool d 40)%bool
      then Some l4
      else if ((lo5 <=? a)%Z && (a <=? hi5)%Z && Qlt_bool d 40)%bool
      then Some l5
      else None
  | _, _ => None
  end.

(** Deep snowpack zone: ICH other than ICHdw. *)
Definition deep (age : option Z) (spp : string) (cc : option Z)
  (diam : option Q) : option string :=
  if startswith spp "F" then
    if (truthyZ cc && some_geZ 46 cc)%bool then
      deep_chain "SIC" "Recruit 1" "Recruit 2" "Recruit 6" "Recruit 8"
        60 79 age diam
    else if (truthyZ cc && some_geZ 36 cc && negb (some_geZ 46 cc))%bool
    then
      deep_chain "Recruit 3" "Recruit 4" "Recruit 5" "Recruit 7"
        "Recruit 9" 60 69 age diam
    else None
  else None.

Definition imm_zones : list string :=
  ["IDFdk"; "IDFdm"; "ICHdw"; "MS"; "IDFmw"].

(** [if age and age < 20: if bec.startswith((...)): level = self.str_imm] *)
Definition immature (bec : string) (age : option Z)
  (level : option string) : option string :=
  match age with
  | Some a =>
      if (negb (a =? 0)%Z && (a <? 20)%Z && startswith_any bec imm_zones)%bool
      then Some str_imm else level
  | None => level
  end.

(** The decision table of [calculate_level]; [bec] has its spaces removed
    and [thlb] is already a number. *)
Definition classify (bec : string) (age : option Z) (spp : string)
  (cc : option Z) (slp : option string) (thlb : Q) (diam : option Q)
  (pct : option Z) : result (option string) :=
  bind
    (if (startswith_any bec ["BG"; "PP"; "IDFxh"] && startswith spp "F")%bool
     then Ok (shallow age)
     else if startswith bec "IDFmw"
     then idfmw age spp cc slp thlb diam pct
     else if startswith_any bec ["IDFdk"; "IDFdm"; "ICHdw"; "MS"]
     then moderate age spp cc slp thlb diam pct
     else if (startswith bec "ICH" && negb (startswith bec "ICHdw"))%bool
     then Ok (deep age spp cc diam)
     else Ok None)
    (fun level => Ok (immature bec age level)).

(** The accumulation at the end of [calculate_level]. *)
Definition accumulate (level : option string) (bec op_area pcell : string)
  (shp_area target : Q) (s : State) : State :=
  mkState
    (on_total op_area pcell
       (fun c => add_cell_hectares shp_area (cell_add_bec level bec shp_area c))
       (dict_total_area s))
    (on_cell pcell
       (fun c => add_cell_hectares shp_area
                   (set_cell_target target
                      (cell_add_bec level bec shp_area c)))
       (dict_cell_area s))
    (register_zero_target op_area pcell target (dict_zero_target s))
    (register_cell pcell (lst_cells s)).

Definition calculate_level (bec : string) (age : option Z) (spp : string)
  (cc : option Z) (slp : option string) (thlb : option Q)
  (diam : option Q) (pct : option Z) (gfa : option string)
  (notes op_area pcell : string) (shp_area target : Q)
  (height : option Q) (s : State) : result (option string) * State :=
  let bec := remove_spaces bec in
  let thlb := thlb_value thlb in
  match classify bec age spp cc slp thlb diam pct with
  | Ok level =>
      (Ok level, accumulate level bec op_area pcell shp_area target s)
  | Raise e => (Raise e, s)
  end.

(** The loop of [calculate_targets]: the target of an operating area's
    cell is the cell-alone target times the operating area's share of the
    cell's hectares.  The division raises on a cell without area. *)
Definition target_ok (cells : gmap string CellArea) (pcell : string)
  : bool :=
  negb (Qeq_bool (cell_hectares (dd_get CellArea0 cells pcell)) 0).

Definition scaled_target (cells : gmap string CellArea) (pcell : string)
  (c : CellArea) : Q :=
  (cell_target (dd_get CellArea0 cells pcell)
   * (cell_hectares c / cell_hectares (dd_get CellArea0 cells pcell)))%Q.

Definition targets_defined (s : State) : Prop :=
  map_Forall (fun _ t =>
    map_Forall (fun pcell _ => target_ok (dict_cell_area s) pcell = true)
      (total_pcell t)) (dict_total_area s).

Definition set_targets (s : State) : result State :=
  if bool_decide (targets_defined s) then
    Ok (mkState
          (set_pcell
             (map_imap (fun pcell c =>
                Some (set_cell_target
                        (scaled_target (dict_cell_area s) pcell c) c)))
           <$> dict_total_area s)
          (dict_cell_area s) (dict_zero_target s) (lst_cells s))
  else Raise ZeroDivisionError.

(** The rank bookkeeping of one bucket, from [if rank != self.str_ch]
    on; [bec_area] is the area that counts. *)
Definition rank_bucket (target : Q) (level bec : string) (bec_area : Q)
  (w : Walk) : Walk :=
  let w1 :=
    if is_CH (rank w) then w
    else
      let running_total := (running_total w + bec_area)%Q in
      let rank := rank_for running_total target in
      let c := on_level level (set_level_rank (Some rank))
                 (on_bucket level bec (set_bec_rank (Some rank))
                    (walk_cell w)) in
      let c :=
        if existsb (String.eqb level) [str_nthlb_sic; str_sic] then c
        else match rank with
             | CH => add_ch_hectares bec_area c
             | NH => add_nh_hectares bec_area c
             end in
      mkWalk c running_total (Some rank) in
  set_walk_cell (on_level level (add_level_hectares bec_area)) w1.

(** The area of a bucket of the capped level after the cap. *)
Definition capped (target : Q) (bec : string) (bec_area : Q) : bool :=
  negb (startswith bec "IDFmw") && Qle_bool (target * (1 # 2))%Q bec_area.

(** The body of the inner loop of [calculate_cell_ranks]. *)
Definition bec_step (target : Q) (level : string) (w : Walk)
  (bec : string) : Walk :=
  let target_50 := (target * (1 # 2))%Q in
  let bec_area := bec_hectares (bucket (walk_cell w) level bec) in
  if String.eqb level str_nthlb_sic then
    let w :=
      if capped target bec bec_area
      then set_walk_cell (on_bucket level bec (set_bec_hectares target_50)) w
      else w in
    let bec_area := bec_hectares (bucket (walk_cell w) level bec) in
    let w :=
      if startswith_any bec ["IDFdk"; "IDFdm"; "ICHdw"; "MS"]
      then set_walk_cell (add_nthlb_hectares bec_area) w
      else w in
    rank_bucket target level bec bec_area
      (set_walk_cell (add_sic_hectares bec_area) w)
  else if String.eqb level str_sic then
    rank_bucket target level bec bec_area
      (set_walk_cell (add_sic_hectares bec_area) w)
  else if String.eqb level str_imm then
    set_walk_cell (add_imm_hectares bec_area) w
  else rank_bucket target level bec bec_area w.

(** The inner loop over the keys [ks] of a level's [bec] dictionary. *)
Definition walk_becs (target : Q) (level : string) (ks : list string)
  (w : Walk) : Walk :=
  fold_left (bec_step target level) ks w.

(** [for bec in dict_cell_area[pcell].level[level].bec: ...] *)
Definition walk_level (target : Q) (w : Walk) (level : string) : Walk :=
  let w := set_walk_cell (touch_level level) w in
  walk_becs target level (bec_keys (walk_cell w) level) w.

(** The loop over the levels [ls]. *)
Definition walk_levels (target : Q) (ls : list string) (w : Walk) : Walk :=
  fold_left (walk_level target) ls w.

(** The body of the outer loop of [calculate_cell_ranks]: one cell. *)
Definition walk_cell_ranks (c : CellArea) : Walk :=
  walk_levels (cell_target c) (lst_level ++ [str_imm]) (mkWalk c 0 None).

Definition rank_cell (c : CellArea) : CellArea :=
  walk_cell (walk_cell_ranks c).

Definition calculate_cell_ranks (dict_cell_area : gmap string CellArea)
  : gmap string CellArea :=
  rank_cell <$> dict_cell_area.

Definition calculate_ranks (s : State) : State :=
  mkState
    (set_pcell calculate_cell_ranks <$> dict_total_area s)
    (calculate_cell_ranks (dict_cell_area s))
    (dict_zero_target s) (lst_cells s).

Definition calculate_targets (s : State) : result State :=
  bind (set_targets s) (fun s => Ok (calculate_ranks s)).

End Gar8001.

(** * GAR 8-006, moose *)

Module Gar8006.

Definition str_imm := "Immature".
Definition str_mature := "Mature Cover".

Definition lst_level : list string :=
  ["Mature Cover"; "Recruit 1"; "Recruit 2"; "Recruit 3"; "Recruit 4";
   "Recruit 5"; "Recruit 6"; "Recruit 7"; "Recruit 8"; "Recruit 9";
   "Recruit 10"; "Recruit 11"].

(** The crown-closure chain of one height class. *)
Definition cc_chain (l1 l2 l3 l4 : string) (cc : Z) : option string :=
  if (56 <=? cc)%Z then Some l1
  else if ((46 <=? cc)%Z && (cc <? 56)%Z)%bool then Some l2
  else if ((36 <=? cc)%Z && (cc <? 46)%Z)%bool then Some l3
  else if ((26 <=? cc)%Z && (cc <? 36)%Z)%bool then Some l4
  else None.

Definition height_chain (height : Q) (cc : Z) : option string :=
  if Qle_bool 16 height then
    cc_chain "Mature Cover" "Recruit 3" "Recruit 6" "Recruit 9" cc
  else if (Qle_bool 14 height && Qlt_bool height 16)%bool then
    cc_chain "Recruit 1" "Recruit 4" "Recruit 7" "Recruit 10" cc
  else if (Qle_bool 12 height && Qlt_bool height 14)%bool then
    cc_chain "Recruit 2" "Recruit 5" "Recruit 8" "Recruit 11" cc
  else None.

(** [age is not None and ((bec.startswith(('IDF', 'ICH')) and age < 25)
    or (bec.startswith(('MS', 'ESSF')) and age < 35))] *)
Definition imm_test (bec : string) (age : option Z) : bool :=
  match age with
  | Some a =>
      (startswith_any bec ["IDF"; "ICH"] && (a <? 25)%Z)
      || (startswith_any bec ["MS"; "ESSF"] && (a <? 35)%Z)
  | None => false
  end.

Definition classify (bec : string) (age : option Z) (cc : option Z)
  (gfa : option string) (height : option Q) : option string :=
  match height, cc with
  | Some h, Some c =>
      if (opt_is gfa "Y" && truthyQ height && truthyZ cc)%bool then
        let level := height_chain h c in
        if imm_test bec age then Some str_imm else level
      else None
  | _, _ => None
  end.

Definition accumulate (level : option string) (op_area pcell : string)
  (shp_area target : Q) (s : State) : State :=
  let add_level c :=
    match level with
    | Some l => if truthyS l then cell_add_level level shp_area c else c
    | None => c
    end in
  mkState
    (on_total op_area pcell
       (fun c => add_cell_hectares shp_area (add_level c))
       (dict_total_area s))
    (on_cell pcell
       (fun c => add_cell_hectares shp_area (add_level c))
       (dict_cell_area s))
    (register_zero_target op_area pcell target (dict_zero_target s))
    (register_cell pcell (lst_cells s)).

Definition calculate_level (bec : string) (age : option Z) (spp : string)
  (cc : option Z) (slp : option string) (thlb : option Q)
  (diam : option Q) (pct : option Z) (gfa : option string)
  (notes op_area pcell : string) (shp_area target : Q)
  (height : option Q) (s : State) : result (option string) * State :=
  let bec := remove_spaces bec in
  let level := classify bec age cc gfa height in
  (Ok level, accumulate level op_area pcell shp_area target s).

(** The loops of [calculate_targets]: 33% of each hierarchy's own
    hectares. *)
Definition target_cell (c : CellArea) : CellArea :=
  set_cell_target (cell_hectares c * (33 # 100)) c.

Definition set_targets (s : State) : State :=
  mkState
    (set_pcell (fmap target_cell) <$> dict_total_area s)
    (target_cell <$> dict_cell_area s)
    (dict_zero_target s) (lst_cells s).

(** The body of the level loop of [calculate_cell_ranks]. *)
Definition level_step (target : Q) (w : Walk) (level : string) : Walk :=
  let w := set_walk_cell (touch_level level) w in
  let level_area := level_hectares (level_of (walk_cell w) level) in
  if Qeq_bool level_area 0 then w
  else if is_CH (rank w) then w
  else
    let running_total := (running_total w + level_area)%Q in
    let rank := rank_for running_total target in
    let c := on_level level (set_level_rank (Some rank)) (walk_cell w) in
    let c :=
      if existsb (String.eqb level) [str_mature] then c
      else match rank with
           | CH => add_ch_hectares level_area c
           | NH => add_nh_hectares level_area c
           end in
    mkWalk c running_total (Some rank).

Definition walk_cell_ranks (c : CellArea) : Walk :=
  fold_left (level_step (cell_target c)) lst_level (mkWalk c 0 None).

Definition rank_cell (c : CellArea) : CellArea :=
  walk_cell (walk_cell_ranks c).

Definition calculate_cell_ranks (dict_cell_area : gmap string CellArea)
  : gmap string CellArea :=
  rank_cell <$> dict_cell_area.

Definition calculate_ranks (s : State) : State :=
  mkState
    (set_pcell calculate_cell_ranks <$> dict_total_area s)
    (calculate_cell_ranks (dict_cell_area s))
    (dict_zero_target s) (lst_cells s).

Definition calculate_targets (s : State) : State :=
  calculate_ranks (set_targets s).

End Gar8006.

(** * GAR 8-012, caribou *)

Module Gar8012.

Definition str_suitable := "Suitable Cover".
Definition str_no_harv := "No Harvest".

Definition classify (bec : string) (age : option Z) : option string :=
  let level :=
    if (truthyZ age && startswith_any bec ["ESSF"; "ICH"]
        && some_geZ 141 age)%bool
    then Some "Suitable Cover" else None in
  if startswith bec "ESSFwcp" then Some str_no_harv else level.

(** [level != self.str_no_harv] *)
Definition not_no_harv (level : option string) : bool :=
  negb (opt_is level str_no_harv).

Definition accumulate (level : option string) (bec op_area pcell : string)
  (shp_area target : Q) (s : State) : State :=
  let add_level := cell_add_level level shp_area in
  let counted :=
    (not_no_harv level && startswith_any bec ["ESSF"; "ICH"])%bool in
  let s1 :=
    if (truthyL level && not_no_harv level)%bool
    then mkState (on_total op_area pcell add_level (dict_total_area s))
           (on_cell pcell add_level (dict_cell_area s))
           (dict_zero_target s) (lst_cells s)
    else s in
  let s2 :=
    if counted
    then mkState
           (on_total op_area pcell (add_cell_hectares shp_area)
              (dict_total_area s1))
           (on_cell pcell (add_cell_hectares shp_area) (dict_cell_area s1))
           (dict_zero_target s1) (lst_cells s1)
    else s1 in
  mkState (dict_total_area s2) (dict_cell_area s2)
    (register_zero_target op_area pcell target (dict_zero_target s2))
    (register_cell pcell (lst_cells s2)).

Definition calculate_level (bec : string) (age : option Z) (spp : string)
  (cc : option Z) (slp : option string) (thlb : option Q)
  (diam : option Q) (pct : option Z) (gfa : option string)
  (notes op_area pcell : string) (shp_area target : Q)
  (height : option Q) (s : State) : result (option string) * State :=
  let bec := remove_spaces bec in
  let level := classify bec age in
  (Ok level, accumulate level bec op_area pcell shp_area target s).

Definition target_cell (c : CellArea) : CellArea :=
  set_cell_target (cell_hectares c * (7 # 10)) c.

Definition calculate_targets (s : State) : State :=
  mkState
    (set_pcell (fmap target_cell) <$> dict_total_area s)
    (target_cell <$> dict_cell_area s)
    (dict_zero_target s) (lst_cells s).

End Gar8012.

(** * GAR 4-010, caribou *)

Module Gar4010.

Definition str_no_harv := "No Harvest Zone".
Definition str_partial := "Habitat: Partial Cut".
Definition lst_level : list string := ["Habitat"; "Habitat: Older"].

Definition zone1 := "Caribou Management Zone 1".
Definition zone5 := "Caribou Management Zone 5".
Definition zone6 := "Caribou Management Zone 6".
Definition zone7 := "Caribou Management Zone 7".
Definition zone8 := "Caribou Management Zone 8".

(** [age and lo <= age < hi] *)
Definition age_in (lo hi : Z) (age : option Z) : bool :=
  match age with
  | Some a => negb (a =? 0)%Z && (lo <=? a)%Z && (a <? hi)%Z
  | None => false
  end.

(** [age and age >= lo] *)
Definition age_ge (lo : Z) (age : option Z) : bool :=
  truthyZ age && some_geZ lo age.

Definition classify (age : option Z) (slp gfa : option string)
  (notes : string) : option string :=
  if String.eqb notes zone1 then Some str_no_harv
  else if (opt_is gfa "Y" && negb (opt_is slp "80+"))%bool then
    if existsb (String.eqb notes) [zone5; zone6] then
      if age_ge 141 age then Some "Habitat" else None
    else if String.eqb notes zone7 then
      if age_in 141 251 age then Some "Habitat"
      else if age_ge 251 age then Some "Habitat: Older"
      else None
    else if String.eqb notes zone8 then
      if age_in 141 251 age then Some "Habitat"
      else if age_ge 251 age then Some "Habitat: Older"
      else if age_in 121 141 age then Some str_partial
      else None
    else None
  else None.

(** [level in self.lst_level] *)
Definition in_lst_level (level : option string) : bool :=
  match level with
  | Some l => existsb (String.eqb l) lst_level
  | None => false
  end.

(** The planning cell of this regulation is the feature note. *)
Definition accumulate (level : option string) (notes op_area : string)
  (shp_area target : Q) (s : State) : State :=
  let add_level c :=
    if truthyL level then
      let c := cell_add_level level shp_area c in
      if in_lst_level level then add_mat_hectares shp_area c else c
    else c in
  mkState
    (on_total op_area notes
       (fun c => add_cell_hectares shp_area (add_level c))
       (dict_total_area s))
    (on_cell notes
       (fun c => add_cell_hectares shp_area (add_level c))
       (dict_cell_area s))
    (register_zero_target op_area notes target (dict_zero_target s))
    (register_cell notes (lst_cells s)).

Definition calculate_level (bec : string) (age : option Z) (spp : string)
  (cc : option Z) (slp : option string) (thlb : option Q)
  (diam : option Q) (pct : option Z) (gfa : option string)
  (notes op_area pcell : string) (shp_area target : Q)
  (height : option Q) (s : State) : result (option string) * State :=
  let level := classify age slp gfa notes in
  (Ok level, accumulate level notes op_area shp_area target s).

(** The percentage of the cell's own hectares, by cell name. *)
Definition target_cell (pcell : string) (c : CellArea) : CellArea :=
  let cell_area := cell_hectares c in
  let c :=
    if existsb (String.eqb pcell) [zone5; zone6]
    then set_cell_target (cell_area * (7 # 10)) c
    else if String.eqb pcell zone7
    then set_cell_target (cell_area * (4 # 10)) c
    else if String.eqb pcell zone8
    then set_cell_target (cell_area * (3 # 10)) c
    else c in
  set_cell_level
    (alter (set_level_target (cell_area * (1 # 10))) (Some "Habitat: Older"))
    c.

Definition target_cells (m : gmap string CellArea) : gmap string CellArea :=
  map_imap (fun pcell c => Some (target_cell pcell c)) m.

Definition calculate_targets (s : State) : State :=
  mkState
    (set_pcell target_cells <$> dict_total_area s)
    (target_cells (dict_cell_area s))
    (dict_zero_target s) (lst_cells s).

End Gar4010.

(** * GAR 4-001, elk, mule deer, white tailed deer and moose *)

Module Gar4001.

Definition str_imm := "Early Seral".
Definition str_mule_deer := "Mule Deer; ICHmw".
Definition str_moose := "Moose; moderate snow".
Definition str_foraging := "Foraging area".
Definition lst_level : list string :=
  ["Mule Deer SIC"; "Moose SIC"; "Forage Areas"].

(** A plain [dict]: a note outside its three keys raises [KeyError]. *)
Definition dict_levels : gmap string string :=
  <[str_foraging := "Forage Areas"]>
    (<[str_moose := "Moose SIC"]>
       (<[str_mule_deer := "Mule Deer SIC"]> ∅)).

(** [(age and cc) and (age >= a0 and cc >= 40)] *)
Definition sic_test (a0 : Z) (age cc : option Z) : bool :=
  truthyZ age && truthyZ cc && some_geZ a0 age && some_geZ 40 cc.

(** The decision table, inside [if gfa == 'Y']. *)
Definition classify (age cc : option Z) (notes : string) : option string :=
  let level :=
    if String.eqb notes str_mule_deer then
      if sic_test 101 age cc then Some "Mule Deer SIC" else None
    else if String.eqb notes str_moose then
      if sic_test 61 age cc then Some "Moose SIC" else None
    else if String.eqb notes str_foraging then
      if (truthyZ age && some_geZ 81 age)%bool then Some "Forage Areas"
      else None
    else None in
  if (truthyZ age && negb (some_geZ 21 age))%bool then Some str_imm
  else level.

Definition calculate_level (bec : string) (age : option Z) (spp : string)
  (cc : option Z) (slp : option string) (thlb : option Q)
  (diam : option Q) (pct : option Z) (gfa : option string)
  (notes op_area pcell : string) (shp_area target : Q)
  (height : option Q) (s : State) : result (option string) * State :=
  if opt_is gfa "Y" then
    let level := classify age cc notes in
    let add_level := cell_add_level level shp_area in
    let s1 :=
      if truthyL level
      then mkState (on_total op_area pcell add_level (dict_total_area s))
             (on_cell pcell add_level (dict_cell_area s))
             (dict_zero_target s) (lst_cells s)
      else s in
    match dict_getitem dict_levels notes with
    | Raise e =>
        (* the operating area and its cell were reached before the
           failing subscript was evaluated *)
        (Raise e,
         mkState
           (on_total op_area pcell (fun c => c) (dict_total_area s1))
           (dict_cell_area s1) (dict_zero_target s1) (lst_cells s1))
    | Ok total_level =>
        (Ok level,
         mkState
           (on_total op_area pcell
              (fun c => add_cell_hectares shp_area
                 (cell_add_level_total (Some total_level) shp_area c))
              (dict_total_area s1))
           (on_cell pcell
              (fun c => add_cell_hectares shp_area
                 (cell_add_level_total (Some total_level) shp_area c))
              (dict_cell_area s1))
           (register_zero_target op_area pcell target (dict_zero_target s1))
           (register_cell pcell (lst_cells s1)))
    end
  else (Ok None, s).

(** The percentage of a level's own [total_hectares], by level. *)
Definition target_level (level : option string) (l : Level) : Level :=
  if opt_is level "Mule Deer SIC"
  then set_level_target (level_total_hectares l * (4 # 10)) l
  else if opt_is level "Moose SIC"
  then set_level_target (level_total_hectares l * (2 # 10)) l
  else if opt_is level "Forage Areas"
  then set_level_target (level_total_hectares l * (1 # 10)) l
  else l.

Definition target_cell (c : CellArea) : CellArea :=
  set_cell_level (map_imap (fun level l => Some (target_level level l))) c.

Definition calculate_targets (s : State) : State :=
  mkState
    (set_pcell (fmap target_cell) <$> dict_total_area s)
    (target_cell <$> dict_cell_area s)
    (dict_zero_target s) (lst_cells s).

End Gar4001.

(** * The regulation object of the caller

    [self.gar_class] of [util/gar_analysis.py] is one of the regulation
    classes; its [calculate_level] is called once per record. *)

Inductive Regulation := R8001 | R8006 | R8012 | R4010 | R4001.

Definition calculate_level (r : Regulation) :=
  match r with
  | R8001 => Gar8001.calculate_level
  | R8006 => Gar8006.calculate_level
  | R8012 => Gar8012.calculate_level
  | R4010 => Gar4010.calculate_level
  | R4001 => Gar4001.calculate_level
  end.

(** ** Observations on the accumulator *)

(** The record's area [x] entered the total-area denominator of its cell
    in both hierarchies. *)
Definition counted (s s' : State) (op_area pcell : string) (x : Q) : Prop :=
  cell_hectares (alone_cell s' pcell)
  = (cell_hectares (alone_cell s pcell) + x)%Q
  /\ cell_hectares (total_cell s' op_area pcell)
     = (cell_hectares (total_cell s op_area pcell) + x)%Q.

(** The total-area denominators of the cell are what they were. *)
Definition not_counted (s s' : State) (op_area pcell : string) : Prop :=
  cell_hectares (alone_cell s' pcell) = cell_hectares (alone_cell s pcell)
  /\ cell_hectares (total_cell s' op_area pcell)
     = cell_hectares (total_cell s op_area pcell).

(** The hectares that the rank walk of GAR 8-006 reads for a level. *)
Definition area8006 (w : Walk) (l : string) : Q :=
  level_hectares (level_of (walk_cell w) l).

(** The area of a bucket that enters the rank comparison of GAR 8-001:
    the stored hectares, or half the target for a capped bucket. *)
Definition counted_area (target : Q) (level : string) (c : CellArea)
  (bec : string) : Q :=
  let bec_area := bec_hectares (bucket c level bec) in
  if (String.eqb level Gar8001.str_nthlb_sic
      && Gar8001.capped target bec bec_area)%bool
  then (target * (1 # 2))%Q else bec_area.

(** From [w] to [w'] the walk is frozen in the conditional-harvest state:
    the running total has not advanced, the rank is CH, and neither the
    no-harvest and conditional-harvest sums nor the rank of any bucket or
    level has changed. *)
Definition frozen_from (w w' : Walk) : Prop :=
  running_total w' = running_total w
  /\ rank w' = Some CH
  /\ nh_hectares (walk_cell w') = nh_hectares (walk_cell w)
  /\ ch_hectares (walk_cell w') = ch_hectares (walk_cell w)
  /\ (forall l' b', bec_rank (bucket (walk_cell w') l' b')
                    = bec_rank (bucket (walk_cell w) l' b'))
  /\ (forall l', level_rank (level_of (walk_cell w') l')
                 = level_rank (level_of (walk_cell w) l')).

(** [x] comes before [y] in the list [l]. *)
Definition precedes {A} (x y : A) (l : list A) : Prop :=
  exists pre mid post, l = (pre ++ x :: mid ++ y :: post)%list.

(** The bucket [(l1, b1)] is walked before the bucket [(l2, b2)] by the
    rank pass of GAR 8-001 over the cell [c]: its level comes first in
    [lst_level], or both are in the same level and its key comes first in
    the level's dictionary. *)
Definition walked_before (c : CellArea) (l1 b1 l2 b2 : string) : Prop :=
  precedes l1 l2 Gar8001.lst_level
  \/ (l1 = l2 /\ In l1 Gar8001.lst_level
      /\ NoDup (bec_keys c l1) /\ precedes b1 b2 (bec_keys c l1)).

(** While the walk's rank is not CH, no bucket of the cell is ranked CH. *)
Definition no_CH (w : Walk) : Prop :=
  rank w <> Some CH ->
  forall l b, bec_rank (bucket (walk_cell w) l b) <> Some CH.

(** No bucket of the cell carries a rank: the cell has not been walked. *)
Definition unranked (c : CellArea) : Prop :=
  forall l b, bec_rank (bucket c l b) = None.

(** The hectares of the bucket [level], [bec] of a cell; zero when any of
    the keys is missing. *)
Definition bucket_hectares (c : CellArea) (level : option string)
  (bec : string) : Q :=
  bec_hectares (al_get (level_bec (dd_get Level0 (cell_level c) level)) bec).

(** The accumulator states that a run of the caller can reach: the empty
    one, and the one left by [calculate_level] on a further record. *)
Inductive built (r : Regulation) : State -> Prop :=
| built_empty : built r State0
| built_record bec age spp cc slp thlb diam pct gfa notes op_area pcell
    shp_area target height s :
    built r s ->
    built r (snd (calculate_level r bec age spp cc slp thlb diam pct gfa notes
                    op_area pcell shp_area target height s)).

(** A cell as the accumulation leaves it: no bucket and no level carries a
    rank, and the keys of every [bec] dictionary are distinct. *)
Definition fresh_cell (c : CellArea) : Prop :=
  unranked c
  /\ (forall l, level_rank (level_of c l) = None)
  /\ (forall l, NoDup (bec_keys c l)).

(** Every cell of both hierarchies is fresh. *)
Definition all_fresh (s : State) : Prop :=
  (forall pcell, fresh_cell (alone_cell s pcell))
  /\ (forall op_area pcell, fresh_cell (total_cell s op_area pcell)).

(** A level as the accumulation leaves it. *)
Definition fresh_level (l : Level) : Prop :=
  level_rank l = None
  /\ (forall b, bec_rank (al_get (level_bec l) b) = None)
  /\ NoDup (map fst (level_bec l)).

(** [c] is a cell of the state [s], in either hierarchy. *)
Definition cell_of (s : State) (c : CellArea) : Prop :=
  (exists pcell, c = alone_cell s pcell)
  \/ (exists op_area pcell, c = total_cell s op_area pcell).

(** ** Example cells *)

(** A cell of GAR 8-006 of 100 ha with target 33 ha: no mature cover,
    10 ha of "Recruit 1". *)
Definition cell_without_mature : CellArea :=
  mkCellArea {[ Some "Recruit 1" := mkLevel [] 10 0 None 0 0 ]}
    100 33 0 0 0 0 0 0 0.

(** A cell of GAR 8-006 with target 100 ha and levels of 60, 40 and [x]
    hectares, followed by a level of 5 ha. *)
Definition cell_60_40 (x : Q) : CellArea :=
  mkCellArea
    (<[ Some "Recruit 3" := mkLevel [] 5 0 None 0 0 ]>
       (<[ Some "Recruit 2" := mkLevel [] x 0 None 0 0 ]>
          (<[ Some "Recruit 1" := mkLevel [] 40 0 None 0 0 ]>
             {[ Some "Mature Cover" := mkLevel [] 60 0 None 0 0 ]})))
    0 100 0 0 0 0 0 0 0.

(** A cell of GAR 8-001 with target 100 ha whose level "SIC" holds
    buckets of 60, 40 and [x] hectares, followed by a bucket of 5 ha. *)
Definition cell_sic_60_40 (x : Q) : CellArea :=
  mkCellArea
    {[ Some "SIC" :=
         mkLevel [("IDFdk1", mkBEC 60 None); ("IDFdk2", mkBEC 40 None);
                  ("IDFdm1", mkBEC x None); ("MSdm1", mkBEC 5 None)]
           0 0 None 0 0 ]}
    0 100 0 0 0 0 0 0 0.



(** A run of GAR 8-001 over three records of the cell "C1" of target
    100 ha, all classified "SIC": 60 ha, 50 ha and 10 ha in three
    subzones. *)
Definition sic_record (bec : string) (shp_area : Q) (s : State) : State :=
  snd (calculate_level R8001 bec (Some 30%Z) "FD" (Some 50%Z) None
         (Some 1%Q) (Some 45%Q) (Some 80%Z) (Some "Y") "" "OA" "C1"
         shp_area 100 None s).

Definition run_8001 : State :=
  sic_record "IDF mw 3" 10
    (sic_record "IDF mw 2" 50 (sic_record "IDF mw 1" 60 State0)).

Definition ranked_8001 : State :=
  match Gar8001.calculate_targets run_8001 with
  | Ok s => s
  | Raise _ => State0
  end.

(** A run of GAR 8-006 over two records of the cell "C1": 30 ha of
    "Mature Cover" and 10 ha of "Recruit 1". *)
Definition cover_record (height : Q) (shp_area : Q) (s : State) : State :=
  snd (calculate_level R8006 "IDF dk 1" None "FD" (Some 60%Z) None None None
         None (Some "Y") "" "OA" "C1" shp_area 0 (Some height) s).

Definition run_8006 : State :=
  cover_record 15 10 (cover_record 20 30 State0).

(** * The loop of the caller *)

(** The labels of the levels that the rank walk of GAR 8-001 visits. *)
Definition walked_8001 (level : option string) : Prop :=
  forall l, level = Some l -> In l (Gar8001.lst_level ++ [Gar8001.str_imm]).

(** * The loop of the caller over the records

    [calculate_values] of [util/gar_analysis_sa.py] reads the arguments of
    [calculate_level] from each record of the resultant and calls it; a call
    that raises is logged and the loop goes on with the next record. *)

(** The arguments of one call. *)
Record Row := mkRow {
  row_bec : string;
  row_age : option Z;
  row_spp : string;
  row_cc : option Z;
  row_slp : option string;
  row_thlb : option Q;
  row_diam : option Q;
  row_pct : option Z;
  row_gfa : option string;
  row_notes : string;
  row_op_area : string;
  row_pcell : string;
  row_shp_area : Q;
  row_target : Q;
  row_height : option Q
}.

Definition call (r : Regulation) (row : Row) (s : State)
  : result (option string) * State :=
  calculate_level r (row_bec row) (row_age row) (row_spp row) (row_cc row)
    (row_slp row) (row_thlb row) (row_diam row) (row_pct row) (row_gfa row)
    (row_notes row) (row_op_area row) (row_pcell row) (row_shp_area row)
    (row_target row) (row_height row) s.

(** The accumulator after the loop over [rows], from a new regulation
    object. *)
Definition run (r : Regulation) (rows : list Row) : State :=
  fold_left (fun s row => snd (call r row s)) rows State0.

Definition sumQ (l : list Q) : Q := fold_right Qplus 0%Q l.

(** The total area of the records that [sel] selects. *)
Definition area_where (sel : Row -> bool) (rows : list Row) : Q :=
  sumQ (map row_shp_area (List.filter sel rows)).

(** The label that GAR 8-006 gives a record. *)
Definition label_8006 (row : Row) : option string :=
  Gar8006.classify (remove_spaces (row_bec row)) (row_age row) (row_cc row)
    (row_gfa row) (row_height row).

(** The outcome of the decision table of GAR 8-001 on a record. *)
Definition label_8001 (row : Row) : result (option string) :=
  Gar8001.classify (remove_spaces (row_bec row)) (row_age row) (row_spp row)
    (row_cc row) (row_slp row) (thlb_value (row_thlb row)) (row_diam row)
    (row_pct row).

(** [P] holds of every cell of both hierarchies. *)
Definition all_cells (P : CellArea -> Prop) (s : State) : Prop :=
  (forall pcell, P (alone_cell s pcell))
  /\ (forall op_area pcell, P (total_cell s op_area pcell)).

(** What one call of GAR 8-006 does to the cell of the record. *)
Definition add_8006 (row : Row) (c : CellArea) : CellArea :=
  add_cell_hectares (row_shp_area row)
    (if truthyL (label_8006 row)
     then cell_add_level (label_8006 row) (row_shp_area row) c else c).

(** The decision table returned the label [level]. *)
Definition label_is (r : result (option string)) (level : option string)
  : bool :=
  match r with
  | Ok lv => bool_decide (lv = level)
  | Raise _ => false
  end.

(** The label of a record in GAR 8-001; [None] also when the table
    raised. *)
Definition level_8001 (row : Row) : option string :=
  match label_8001 row with
  | Ok lv => lv
  | Raise _ => None
  end.

(** What one call of GAR 8-001 that returns does to the cell of the record
    in the operating-area hierarchy, and in the cell-alone hierarchy. *)
Definition add_8001_total (row : Row) (c : CellArea) : CellArea :=
  add_cell_hectares (row_shp_area row)
    (cell_add_bec (level_8001 row) (remove_spaces (row_bec row))
       (row_shp_area row) c).

Definition add_8001_alone (row : Row) (c : CellArea) : CellArea :=
  add_cell_hectares (row_shp_area row)
    (set_cell_target (row_target row)
       (cell_add_bec (level_8001 row) (remove_spaces (row_bec row))
          (row_shp_area row) c)).

(** The planning cell that a call accumulates into: GAR 4-010 uses the
    feature note, the other regulations the [pcell] argument. *)
Definition cell_key (r : Regulation) (row : Row) : string :=
  match r with
  | R4010 => row_notes row
  | _ => row_pcell row
  end.




(** The level "No Harvest" of the cell was never written, and the hectares
    of "Suitable Cover" are part of the hectares of the cell. *)
Definition suitable_within (c : CellArea) : Prop :=
  level_of c Gar8012.str_no_harv = Level0
  /\ (0 <= level_hectares (level_of c Gar8012.str_suitable))%Q
  /\ (level_hectares (level_of c Gar8012.str_suitable) <= cell_hectares c)%Q.

(** The call reaches the two registrations at the end of
    [calculate_level]: in GAR 8-001 when the decision table returns, in
    GAR 4-001 inside the gross-forested gate and when the note is a key of
    [dict_levels], in the other regulations always. *)
Definition registers (r : Regulation) (row : Row) : bool :=
  match r with
  | R8001 => is_ok (label_8001 row)
  | R4001 =>
      opt_is (row_gfa row) "Y"
      && is_ok (dict_getitem Gar4001.dict_levels (row_notes row))
  | _ => true
  end.




(** Two records of the cell "C1", 40 ha in the operating area "OA" and
    60 ha in "OB", with the target 50. *)
Definition rows_two_areas : list Row :=
  [mkRow "IDF dk 1" (Some 100%Z) "PL" (Some 50%Z) None None None None None
     "" "OA" "C1" 40 50 None;
   mkRow "IDF dk 1" (Some 100%Z) "PL" (Some 50%Z) None None None None None
     "" "OB" "C1" 60 50 None].

Definition targeted_two_areas : State :=
  match Gar8001.calculate_targets (run R8001 rows_two_areas) with
  | Ok s => s
  | Raise _ => State0
  end.


(** The no-harvest hectares that the walk has tallied on top of [nh0] are
    within the target, and within the running total while no bucket is
    ranked CH; the running total is not negative. *)
Definition nh_within (target nh0 : Q) (w : Walk) : Prop :=
  (nh_hectares (walk_cell w) <= nh0 + target)%Q
  /\ (0 <= running_total w)%Q
  /\ (rank w <> Some CH ->
      (nh_hectares (walk_cell w) <= nh0 + running_total w)%Q).

(** A cell as the accumulation of non-negative areas and targets leaves
    it: nothing tallied as no-harvest yet, and no negative target, hectares
    or bucket. *)
Definition nonneg_cell (c : CellArea) : Prop :=
  nh_hectares c = 0%Q
  /\ (0 <= cell_target c)%Q
  /\ (0 <= cell_hectares c)%Q
  /\ (forall l, (0 <= level_hectares (level_of c l))%Q)
  /\ (forall l b, (0 <= bec_hectares (bucket c l b))%Q).

(** Two records of GAR 8-006 in the cell "C1": 10 ha of "Recruit 1" and
    30 ha left unclassified. *)
Definition rows_recruit : list Row :=
  [mkRow "IDF dk 1" None "FD" (Some 60%Z) None None None None (Some "Y") ""
     "OA" "C1" 10 0 (Some 15%Q);
   mkRow "IDF dk 1" None "FD" (Some 10%Z) None None None None (Some "Y") ""
     "OA" "C1" 30 0 (Some 20%Q)].

(** The hectares of the buckets of a level of a cell. *)
Definition bucket_sum (c : CellArea) (l : string) : Q :=
  sumQ (map (fun b => bec_hectares (bucket c l b)) (bec_keys c l)).

(** A cell of GAR 8-001 before the rank pass: the sums that only the pass
    writes are still zero. *)
Definition unwalked (c : CellArea) : Prop :=
  sic_hectares c = 0%Q
  /\ imm_hectares c = 0%Q
  /\ (forall l, level_hectares (level_of c l) = 0%Q).

(** The sums of a cell of GAR 8-001 are those of its buckets. *)
Definition sums_of_buckets (c : CellArea) : Prop :=
  (forall l, In l Gar8001.lst_level ->
             (level_hectares (level_of c l) == bucket_sum c l)%Q)
  /\ level_hectares (level_of c Gar8001.str_imm) = 0%Q
  /\ (imm_hectares c == bucket_sum c Gar8001.str_imm)%Q
  /\ (sic_hectares c
      == bucket_sum c Gar8001.str_nthlb_sic + bucket_sum c Gar8001.str_sic)%Q.




(** A cell on which no target has been written. *)
Definition untargeted (c : CellArea) : Prop :=
  cell_target c = 0%Q /\ forall l, level_target (level_of c l) = 0%Q.

(** The label that GAR 4-001 gives a record inside the gross-forested
    gate. *)
Definition label_4001 (row : Row) : option string :=
  Gar4001.classify (row_age row) (row_cc row) (row_notes row).

(** The record lies in the gross forested area and its feature note is the
    key of [dict_levels] for the level [l]. *)
Definition habitat_4001 (row : Row) (l : string) : bool :=
  opt_is (row_gfa row) "Y"
  && bool_decide (Gar4001.dict_levels !! row_notes row = Some l).

(** The share of its total hectares that [calculate_targets] of GAR 4-001
    gives a level as target. *)
Definition share_4001 (l : string) : Q :=
  if String.eqb l "Mule Deer SIC" then 4 # 10
  else if String.eqb l "Moose SIC" then 2 # 10
  else if String.eqb l "Forage Areas" then 1 # 10
  else 0.

(** What one call of GAR 4-001 does to the cell of the record. *)
Definition add_4001 (row : Row) (c : CellArea) : CellArea :=
  if opt_is (row_gfa row) "Y" then
    let c1 := if truthyL (label_4001 row)
              then cell_add_level (label_4001 row) (row_shp_area row) c
              else c in
    match Gar4001.dict_levels !! row_notes row with
    | Some total_level =>
        add_cell_hectares (row_shp_area row)
          (cell_add_level_total (Some total_level) (row_shp_area row) c1)
    | None => c1
    end
  else c.

(** * Properties *)

(** ** Dictionary accessors *)

Section AccessorFacts.
Context {K : Type} `{Countable K} {V : Type}.
Implicit Types (m : gmap K V) (k : K) (dflt : V) (f : V -> V).

Lemma dd_get_update_eq dflt f k m :
  dd_get dflt (dd_update dflt f k m) k = f (dd_get dflt m k).
Proof. unfold dd_get, dd_update. by rewrite lookup_insert_eq. Qed.

Lemma dd_get_update_ne dflt f k k' m :
  k ≠ k' -> dd_get dflt (dd_update dflt f k m) k' = dd_get dflt m k'.
Proof.
  intros Hne. unfold dd_get, dd_update. by rewrite lookup_insert_ne.
Qed.

Lemma dd_update_is_Some dflt f k m : is_Some (dd_update dflt f k m !! k).
Proof. unfold dd_update. rewrite lookup_insert_eq. eauto. Qed.

Lemma defaultdict_getitem_value dflt m k :
  fst (defaultdict_getitem dflt m k) = dd_get dflt m k.
Proof. unfold defaultdict_getitem, dd_get. by destruct (m !! k). Qed.

Lemma defaultdict_getitem_dict dflt m k :
  snd (defaultdict_getitem dflt m k) = dd_update dflt (fun v => v) k m.
Proof.
  unfold defaultdict_getitem, dd_update, dd_get.
  destruct (m !! k) eqn:E; simpl; [by rewrite insert_id | done].
Qed.
End AccessorFacts.

Lemma al_get_update_eq f k l : al_get (al_update f k l) k = f (al_get l k).
Proof.
  induction l as [|[k' v] r IH]; simpl.
  - by rewrite String.eqb_refl.
  - destruct (String.eqb k' k) eqn:E; simpl; by rewrite E.
Qed.

Lemma al_get_update_ne f k k' l :
  k ≠ k' -> al_get (al_update f k l) k' = al_get l k'.
Proof.
  intros Hne. induction l as [|[k0 v] r IH]; simpl.
  - destruct (String.eqb k k') eqn:E; [|done].
    apply String.eqb_eq in E. congruence.
  - destruct (String.eqb k0 k) eqn:E; simpl.
    + apply String.eqb_eq in E. subst k0.
      destruct (String.eqb k k') eqn:E'; [|done].
      apply String.eqb_eq in E'. congruence.
    + by rewrite IH.
Qed.

Lemma al_update_keys f k l :
  In k (map fst l) -> map fst (al_update f k l) = map fst l.
Proof.
  induction l as [|[k' v] r IH]; simpl; [done|].
  intros [->|Hin].
  - by rewrite String.eqb_refl.
  - destruct (String.eqb k' k); simpl; [done|]. by rewrite IH.
Qed.

(** ** Strings *)

Lemma startswith_String c p s :
  startswith s (String c p) = true ->
  exists s', s = String c s' /\ startswith s' p = true.
Proof.
  unfold startswith. destruct s as [|c' s']; simpl; [done|].
  destruct (Ascii.ascii_dec c c') as [->|]; [eauto | done].
Qed.

(** Replaces a hypothesis [startswith s "lit" = true] by the shape of [s]. *)
Ltac peel_prefix H :=
  repeat
    (let s' := fresh "s" in
     let E := fresh "E" in
     apply startswith_String in H as (s' & E & H); subst).

(** ** C9: the label depends on the arguments only *)

(** C9. Classification is deterministic across repeated calls: for every
    regulation, calling [calculate_level] a second time with the same
    arguments on the state left by the first call returns the same outcome,
    and so does a call on any other accumulator state: the returned label is
    a function of the arguments alone. *)
Theorem calculate_level_deterministic :
  forall (r : Regulation) bec age spp cc slp thlb diam pct gfa notes op_area
         pcell shp_area target height (s s' : State),
    let call := calculate_level r bec age spp cc slp thlb diam pct gfa notes
                  op_area pcell shp_area target height in
    fst (call (snd (call s))) = fst (call s) /\ fst (call s') = fst (call s).
Proof.
  intros r bec age spp cc slp thlb diam pct gfa notes op_area pcell shp_area
    target height s s'.
  destruct r; simpl.
  - unfold Gar8001.calculate_level.
    destruct (Gar8001.classify _ _ _ _ _ _ _ _); simpl; auto.
  - unfold Gar8006.calculate_level; simpl; auto.
  - unfold Gar8012.calculate_level; simpl; auto.
  - unfold Gar4010.calculate_level; simpl; auto.
  - unfold Gar4001.calculate_level.
    destruct (opt_is gfa "Y"); simpl; [|auto].
    destruct (dict_getitem Gar4001.dict_levels notes); simpl; auto.
Qed.

(** ** Decision tables *)

Lemma Qlt_bool_true a b : (a < b)%Q -> Qlt_bool a b = true.
Proof.
  intros Hlt. unfold Qlt_bool. destruct (Qle_bool b a) eqn:E; [|done].
  apply Qle_bool_iff in E. exfalso. apply (Qlt_not_le _ _ Hlt E).
Qed.

Lemma Qlt_bool_false a b : (b <= a)%Q -> Qlt_bool a b = false.
Proof.
  intros Hle. unfold Qlt_bool. apply Qle_bool_iff in Hle. by rewrite Hle.
Qed.

Lemma thlb_branch_null_age T bands diam :
  Gar8001.thlb_branch T bands None diam = None.
Proof.
  unfold Gar8001.thlb_branch, Gar8001.sic_test. simpl.
  rewrite andb_false_r. by destruct (some_ltQ 40 diam).
Qed.

Lemma thlb_branch_override T bands a d :
  (0 < a)%Z -> (40 <= d)%Q ->
  Gar8001.thlb_branch T bands (Some a) (Some d) = Some "SIC".
Proof.
  intros Ha Hd. unfold Gar8001.thlb_branch, Gar8001.sic_test. simpl.
  apply Qle_bool_iff in Hd as Hd'. rewrite Hd'.
  apply Z.ltb_lt in Ha. rewrite Ha, orb_true_r.
  by rewrite (Qlt_bool_false _ _ Hd).
Qed.

Lemma idfmw_nthlb_null_age cc pct :
  Gar8001.idfmw_nthlb None cc pct = Ok None
  \/ Gar8001.idfmw_nthlb None cc pct = Raise TypeError.
Proof.
  unfold Gar8001.idfmw_nthlb. simpl.
  rewrite andb_false_r. simpl.
  destruct (truthyZ cc && some_geZ 36 cc)%bool; [right | by left].
  by destruct (some_geZ 36 cc && negb (some_geZ 50 cc))%bool.
Qed.

(** With a null age the decision table of GAR 8-001 assigns no level at
    all, or fails on a comparison with the null age. *)
Lemma classify_null_age bec spp cc slp thlb diam pct :
  Gar8001.classify bec None spp cc slp thlb diam pct = Ok None
  \/ Gar8001.classify bec None spp cc slp thlb diam pct = Raise TypeError.
Proof.
  unfold Gar8001.classify.
  destruct (startswith_any bec ["BG"; "PP"; "IDFxh"] && startswith spp "F")%bool;
    [by left|].
  destruct (startswith bec "IDFmw").
  { unfold Gar8001.idfmw.
    destruct (startswith spp "F" && negb (opt_is slp "80+"))%bool; [|by left].
    destruct (Qlt_bool 0 thlb).
    - rewrite thlb_branch_null_age.
      destruct (truthyZ cc && some_geZ 36 cc)%bool; by left.
    - destruct (Qeq_bool thlb 0); [|by left].
      destruct (idfmw_nthlb_null_age cc pct) as [-> | ->]; [by left | by right]. }
  destruct (startswith_any bec ["IDFdk"; "IDFdm"; "ICHdw"; "MS"]).
  { unfold Gar8001.moderate.
    destruct (startswith spp "F"); simpl; [|by left].
    destruct cc as [c|]; simpl; [|by right].
    destruct ((36 <=? c)%Z); simpl; [|by left].
    destruct (negb (opt_is slp "80+")); simpl; [|by left].
    rewrite thlb_branch_null_age.
    destruct (Qlt_bool 0 thlb); [by left|].
    destruct (Qeq_bool thlb 0); by left. }
  destruct (startswith bec "ICH" && negb (startswith bec "ICHdw"))%bool;
    [|by left].
  unfold Gar8001.deep.
  destruct (startswith spp "F"); [|by left].
  destruct (truthyZ cc && some_geZ 46 cc)%bool; [by left|].
  destruct (truthyZ cc && some_geZ 36 cc && negb (some_geZ 46 cc))%bool;
    by left.
Qed.

(** Under the gates of the diameter override, the branch of the decision
    table that is taken is a timber branch. *)
Lemma classify_timber_branch bec age spp c slp thlb diam pct :
  startswith bec "IDFmw" = true
  \/ startswith_any bec ["IDFdk"; "IDFdm"; "ICHdw"; "MS"] = true ->
  startswith spp "F" = true ->
  opt_is slp "80+" = false ->
  (0 < thlb)%Q ->
  (36 <= c)%Z ->
  exists T bands,
    Gar8001.classify bec age spp (Some c) slp thlb diam pct
    = Ok (Gar8001.immature bec age (Gar8001.thlb_branch T bands age diam)).
Proof.
  intros Hzone Hspp Hslp Hthlb Hc.
  assert (Hc' : (36 <=? c)%Z = true) by by apply Z.leb_le.
  assert (Hc0 : (c =? 0)%Z = false) by (apply Z.eqb_neq; lia).
  unfold Gar8001.classify.
  destruct Hzone as [Hz | Hz].
  - exists 140%Z, Gar8001.bands_140.
    replace (startswith_any bec ["BG"; "PP"; "IDFxh"]) with false
      by (peel_prefix Hz; reflexivity).
    simpl. rewrite Hz. unfold Gar8001.idfmw.
    rewrite Hspp, Hslp, (Qlt_bool_true _ _ Hthlb). simpl.
    by rewrite Hc0, Hc'.
  - exists 175%Z, Gar8001.bands_175.
    assert (startswith_any bec ["BG"; "PP"; "IDFxh"] = false
            /\ startswith bec "IDFmw" = false) as [-> ->].
    { unfold startswith_any in Hz. simpl in Hz.
      repeat (apply orb_prop in Hz as [Hz | Hz]); try discriminate;
        peel_prefix Hz; split; reflexivity. }
    rewrite Hz. simpl. unfold Gar8001.moderate.
    rewrite Hspp, Hslp. simpl. rewrite Hc'. simpl.
    by rewrite (Qlt_bool_true _ _ Hthlb).
Qed.

(** ** C7: the diameter override *)

(** C7 (amended). A record with a null age is never classified "SIC" by GAR
    8-001, whatever its diameter and gross-forested indicator.  Under the
    gates of the diameter override (a bec of IDFmw, IDFdk, IDFdm, ICHdw or
    MS, fir leading, slope other than 80+, positive timber harvest landbase,
    crown closure at least 36) and with a diameter of at least 40, the
    record with a null age is left unclassified, and the same record with
    any age of 20 years or more is "SIC", however far the age is below the
    age threshold. *)
Theorem diameter_override_requires_age :
  forall bec spp cc slp thlb diam pct gfa notes op_area pcell shp_area target
         height (s : State),
    let call age :=
      fst (Gar8001.calculate_level bec age spp cc slp thlb diam pct gfa notes
             op_area pcell shp_area target height s) in
    call None <> Ok (Some "SIC")
    /\ (forall c d,
         (startswith (remove_spaces bec) "IDFmw" = true
          \/ startswith_any (remove_spaces bec)
               ["IDFdk"; "IDFdm"; "ICHdw"; "MS"] = true) ->
         startswith spp "F" = true ->
         opt_is slp "80+" = false ->
         (0 < thlb_value thlb)%Q ->
         cc = Some c -> (36 <= c)%Z ->
         diam = Some d -> (40 <= d)%Q ->
         call None = Ok None
         /\ forall a, (20 <= a)%Z -> call (Some a) = Ok (Some "SIC")).
Proof.
  intros bec spp cc slp thlb diam pct gfa notes op_area pcell shp_area target
    height s call. subst call. unfold Gar8001.calculate_level. split.
  - destruct (classify_null_age (remove_spaces bec) spp cc slp
                (thlb_value thlb) diam pct) as [-> | ->]; simpl; congruence.
  - intros c d Hzone Hspp Hslp Hthlb -> Hc -> Hd. split.
    + destruct (classify_timber_branch (remove_spaces bec) None spp c slp
                  (thlb_value thlb) (Some d) pct Hzone Hspp Hslp Hthlb Hc)
        as (T & bands & ->).
      by rewrite thlb_branch_null_age.
    + intros a Ha.
      destruct (classify_timber_branch (remove_spaces bec) (Some a) spp c slp
                  (thlb_value thlb) (Some d) pct Hzone Hspp Hslp Hthlb Hc)
        as (T & bands & ->).
      rewrite thlb_branch_override by (lia || done).
      unfold Gar8001.immature.
      replace (a <? 20)%Z with false by (symmetry; apply Z.ltb_ge; lia).
      by rewrite andb_false_r.
Qed.

Lemma diameter_override_requires_age_witness :
  let call age :=
    fst (Gar8001.calculate_level "IDF mw 1" age "FD" (Some 50%Z) None
           (Some 1%Q) (Some 45%Q) (Some 80%Z) (Some "Y") "" "OA" "C1" 10 100
           None State0) in
  call None = Ok None /\ call (Some 30%Z) = Ok (Some "SIC").
Proof.
  intros call.
  destruct (proj2 (diameter_override_requires_age "IDF mw 1" "FD"
                     (Some 50%Z) None (Some 1%Q) (Some 45%Q) (Some 80%Z)
                     (Some "Y") "" "OA" "C1" 10 100 None State0)
              50%Z 45%Q) as [H0 H1];
    [by left | reflexivity | reflexivity | reflexivity | reflexivity | lia
    | reflexivity | by vm_compute | ].
  split; [exact H0 | apply H1; lia].
Defined.

(** C7, as stated, fails: age null, diameter 45 and the gross-forested
    indicator set, in the IDFmw timber branch with all its gates open; the
    record is left unclassified. *)
Lemma diameter_override_null_age_counterexample :
  fst (Gar8001.calculate_level "IDF mw 1" None "FD" (Some 50%Z) None
         (Some 1%Q) (Some 45%Q) (Some 80%Z) (Some "Y") "" "OA" "C1" 10 100
         None State0)
  = Ok None.
Proof. reflexivity. Qed.

(** ** C8: the immature rule *)

Lemma elifE_ok {A} (cs : list (result bool * A)) (dflt : A) :
  Forall (fun c => is_ok (fst c) = true) cs -> is_ok (elifE cs dflt) = true.
Proof.
  induction 1 as [|[c v] r Hc _ IH]; simpl; [done|].
  simpl in Hc. destruct c as [[]|]; simpl; done.
Qed.

Lemma idfmw_nthlb_ok a cc pct :
  is_ok (Gar8001.idfmw_nthlb (Some a) cc pct) = true.
Proof.
  unfold Gar8001.idfmw_nthlb.
  destruct (truthyZ cc && truthyZ (Some a) && truthyZ pct && some_geZ 50 cc
            && some_geZ 120 (Some a) && some_geZ 50 pct)%bool; [done|].
  destruct (truthyZ cc && some_geZ 36 cc)%bool; [|done].
  apply elifE_ok.
  repeat constructor; simpl;
    by destruct (some_geZ 36 cc && negb (some_geZ 50 cc))%bool.
Qed.





(** ** Accumulation *)

Lemma on_cell_get pcell f m :
  dd_get CellArea0 (on_cell pcell f m) pcell = f (dd_get CellArea0 m pcell).
Proof. apply dd_get_update_eq. Qed.

Lemma on_total_get op_area pcell f m :
  dd_get CellArea0
    (total_pcell (dd_get TotalArea0 (on_total op_area pcell f m) op_area))
    pcell
  = f (dd_get CellArea0 (total_pcell (dd_get TotalArea0 m op_area)) pcell).
Proof.
  unfold on_total. rewrite dd_get_update_eq. simpl. apply dd_get_update_eq.
Qed.

Lemma bucket_hectares_cell_add_bec level bec x c :
  bucket_hectares (cell_add_bec level bec x c) level bec
  = (bucket_hectares c level bec + x)%Q.
Proof.
  unfold bucket_hectares, cell_add_bec. simpl.
  rewrite dd_get_update_eq. simpl. by rewrite al_get_update_eq.
Qed.

Lemma counted_8001 level bec op_area pcell shp_area target s :
  counted s (Gar8001.accumulate level bec op_area pcell shp_area target s)
    op_area pcell shp_area.
Proof.
  unfold counted, alone_cell, total_cell, Gar8001.accumulate. simpl.
  by rewrite on_cell_get, on_total_get.
Qed.

Lemma counted_8006 level op_area pcell shp_area target s :
  counted s (Gar8006.accumulate level op_area pcell shp_area target s)
    op_area pcell shp_area.
Proof.
  unfold counted, alone_cell, total_cell, Gar8006.accumulate. simpl.
  rewrite on_cell_get, on_total_get.
  destruct level as [l|]; [destruct (truthyS l)|]; done.
Qed.

Lemma counted_4010 level notes op_area shp_area target s :
  counted s (Gar4010.accumulate level notes op_area shp_area target s)
    op_area notes shp_area.
Proof.
  unfold counted, alone_cell, total_cell, Gar4010.accumulate. simpl.
  rewrite on_cell_get, on_total_get.
  destruct (truthyL level); [destruct (Gar4010.in_lst_level level)|]; done.
Qed.

Lemma counted_8012 level bec op_area pcell shp_area target s :
  if (Gar8012.not_no_harv level && startswith_any bec ["ESSF"; "ICH"])%bool
  then counted s
         (Gar8012.accumulate level bec op_area pcell shp_area target s)
         op_area pcell shp_area
  else not_counted s
         (Gar8012.accumulate level bec op_area pcell shp_area target s)
         op_area pcell.
Proof.
  unfold counted, not_counted, alone_cell, total_cell, Gar8012.accumulate.
  destruct (Gar8012.not_no_harv level), (startswith_any bec ["ESSF"; "ICH"]),
    (truthyL level);
    cbn [andb dict_cell_area dict_total_area];
    rewrite ?on_cell_get, ?on_total_get; try done;
    rewrite ?on_cell_get, ?on_total_get; done.
Qed.

Lemma not_no_harv_classify bec age :
  Gar8012.not_no_harv (Gar8012.classify bec age)
  = negb (startswith bec "ESSFwcp").
Proof.
  unfold Gar8012.classify.
  destruct (startswith bec "ESSFwcp"); [done|].
  by destruct (truthyZ age && startswith_any bec ["ESSF"; "ICH"]
               && some_geZ 141 age)%bool.
Qed.

(** ** C6: which records enter the total area of their cell *)

(** C6 (amended). A record that [calculate_level] processes adds its area
    to the total-area denominator of its cell, in both hierarchies and
    whether or not it was classified, in GAR 8-001 (when the call returns;
    a call that raises changes nothing), GAR 8-006 and GAR 4-010 (whose cell
    is the feature note).  GAR 8-012 counts only a record whose bec starts
    with ESSF or ICH and that is not in the no-harvest zone (ESSFwcp); GAR
    4-001 counts only a record of the gross forested land base, whose note
    must be one of the three habitats for the call to return. *)
Theorem total_area_counting :
  forall bec age spp cc slp thlb diam pct gfa notes op_area pcell shp_area
         target height (s : State),
    let s8001 := Gar8001.calculate_level bec age spp cc slp thlb diam pct gfa
                   notes op_area pcell shp_area target height s in
    let s8006 := Gar8006.calculate_level bec age spp cc slp thlb diam pct gfa
                   notes op_area pcell shp_area target height s in
    let s4010 := Gar4010.calculate_level bec age spp cc slp thlb diam pct gfa
                   notes op_area pcell shp_area target height s in
    let s8012 := Gar8012.calculate_level bec age spp cc slp thlb diam pct gfa
                   notes op_area pcell shp_area target height s in
    let s4001 := Gar4001.calculate_level bec age spp cc slp thlb diam pct gfa
                   notes op_area pcell shp_area target height s in
    (is_ok (fst s8001) = true -> counted s (snd s8001) op_area pcell shp_area)
    /\ (is_ok (fst s8001) = false -> snd s8001 = s)
    /\ counted s (snd s8006) op_area pcell shp_area
    /\ counted s (snd s4010) op_area notes shp_area
    /\ (startswith_any (remove_spaces bec) ["ESSF"; "ICH"] = true ->
        startswith (remove_spaces bec) "ESSFwcp" = false ->
        counted s (snd s8012) op_area pcell shp_area)
    /\ (startswith_any (remove_spaces bec) ["ESSF"; "ICH"] = false
        \/ startswith (remove_spaces bec) "ESSFwcp" = true ->
        not_counted s (snd s8012) op_area pcell)
    /\ (opt_is gfa "Y" = true -> is_Some (Gar4001.dict_levels !! notes) ->
        counted s (snd s4001) op_area pcell shp_area)
    /\ (opt_is gfa "Y" = false \/ Gar4001.dict_levels !! notes = None ->
        not_counted s (snd s4001) op_area pcell).
Proof.
  intros bec age spp cc slp thlb diam pct gfa notes op_area pcell shp_area
    target height s. cbv zeta.
  split; [|split; [|split; [|split; [|split; [|split; [|split]]]]]].
  - unfold Gar8001.calculate_level.
    destruct (Gar8001.classify _ _ _ _ _ _ _ _); simpl; [|done].
    intros _. apply counted_8001.
  - unfold Gar8001.calculate_level.
    destruct (Gar8001.classify _ _ _ _ _ _ _ _); simpl; done.
  - apply counted_8006.
  - apply counted_4010.
  - intros Hz Hw. unfold Gar8012.calculate_level. cbn [snd].
    pose proof (counted_8012 (Gar8012.classify (remove_spaces bec) age)
                  (remove_spaces bec) op_area pcell shp_area target s) as Hc.
    by rewrite not_no_harv_classify, Hz, Hw in Hc.
  - intros Hz. unfold Gar8012.calculate_level. cbn [snd].
    pose proof (counted_8012 (Gar8012.classify (remove_spaces bec) age)
                  (remove_spaces bec) op_area pcell shp_area target s) as Hc.
    rewrite not_no_harv_classify in Hc.
    destruct Hz as [Hz | Hw].
    + by rewrite Hz, andb_false_r in Hc.
    + by rewrite Hw in Hc.
  - intros Hgfa [l Hl]. unfold Gar4001.calculate_level.
    rewrite Hgfa. unfold dict_getitem. rewrite Hl. simpl.
    unfold counted, alone_cell, total_cell. simpl.
    rewrite on_cell_get, on_total_get.
    destruct (truthyL (Gar4001.classify age cc notes)); simpl; [|done].
    by rewrite on_cell_get, on_total_get.
  - intros Hno. unfold Gar4001.calculate_level.
    destruct (opt_is gfa "Y") eqn:Hgfa; [|done].
    destruct Hno as [? | Hl]; [done|].
    unfold dict_getitem. rewrite Hl. simpl.
    unfold not_counted, alone_cell, total_cell. simpl.
    rewrite on_total_get.
    destruct (truthyL (Gar4001.classify age cc notes)); simpl; [|done].
    by rewrite on_cell_get, on_total_get.
Qed.

Lemma total_area_counting_witness :
  counted State0
    (snd (Gar8012.calculate_level "ESSF wc 4" (Some 150%Z) "S" (Some 60%Z)
            None None None None (Some "Y") "" "OA" "C1" 10 100 None State0))
    "OA" "C1" 10
  /\ counted State0
       (snd (Gar4001.calculate_level "ESSF wc 4" (Some 150%Z) "S"
               (Some 60%Z) None None None None (Some "Y") "Foraging area"
               "OA" "C1" 10 100 None State0))
       "OA" "C1" 10
  /\ not_counted State0
       (snd (Gar4001.calculate_level "ESSF wc 4" (Some 150%Z) "S"
               (Some 60%Z) None None None None None "Foraging area"
               "OA" "C1" 10 100 None State0))
       "OA" "C1".
Proof.
  pose proof (total_area_counting "ESSF wc 4" (Some 150%Z) "S" (Some 60%Z)
                None None None None (Some "Y") "Foraging area" "OA" "C1" 10
                100 None State0) as (_ & _ & _ & _ & H12 & _ & H01 & _).
  pose proof (total_area_counting "ESSF wc 4" (Some 150%Z) "S" (Some 60%Z)
                None None None None None "Foraging area" "OA" "C1" 10
                100 None State0) as (_ & _ & _ & _ & _ & _ & _ & Hno).
  split; [|split].
  - apply H12; reflexivity.
  - apply H01; [reflexivity | by eexists].
  - apply Hno. by left.
Defined.

(** C6, as stated, fails: GAR 8-012 leaves a record outside ESSF and ICH
    out of the total area of its cell (here 10 ha in MS), and GAR 4-001
    leaves out a record outside the gross forested land base. *)
Lemma total_area_counting_counterexample :
  let s8012 :=
    snd (Gar8012.calculate_level "MS dm 1" (Some 150%Z) "PL" (Some 60%Z)
           None None None None (Some "Y") "" "OA" "C1" 10 100 None State0) in
  let s4001 :=
    snd (Gar4001.calculate_level "ICH mw 2" (Some 150%Z) "FD" (Some 60%Z)
           None None None None None "Mule Deer; ICHmw" "OA" "C1" 10 100 None
           State0) in
  cell_hectares (alone_cell s8012 "C1") = 0%Q
  /\ cell_hectares (total_cell s8012 "OA" "C1") = 0%Q
  /\ ~ counted State0 s8012 "OA" "C1" 10
  /\ cell_hectares (alone_cell s4001 "C1") = 0%Q
  /\ ~ counted State0 s4001 "OA" "C1" 10.
Proof.
  repeat split; try reflexivity; intros [Hc _]; vm_compute in Hc;
    discriminate.
Qed.

(** ** C5: where the accumulation can fail *)

(** C5 (amended). The bucket accessors never fail: for every key, also one
    never seen before, reading a [defaultdict] yields the stored object or
    creates the constructor's zero-valued one.  Hence the accumulation of
    GAR 8-001 adds no failure to the decision table's (for every operating
    area, cell, level label, [None] included, and bec the bucket of both
    hierarchies is found or created and receives the record's area), and
    [calculate_level] of GAR 8-006, GAR 8-012 and GAR 4-010 never raises.
    GAR 4-001 looks the feature note up in the plain three-entry table
    [dict_levels]: inside the gross-forested gate its accumulation returns
    exactly when the note is one of the table's keys. *)
Theorem accumulation_failures :
  (forall (K : Type) (EqK : EqDecision K) (CK : Countable K) (V : Type)
          (dflt : V) (m : gmap K V) (k : K),
      fst (defaultdict_getitem dflt m k) = dd_get dflt m k
      /\ snd (defaultdict_getitem dflt m k) !! k = Some (dd_get dflt m k)
      /\ (m !! k = None -> fst (defaultdict_getitem dflt m k) = dflt))
  /\ forall bec age spp cc slp thlb diam pct gfa notes op_area pcell shp_area
            target height (s : State),
      let bec' := remove_spaces bec in
      let table := Gar8001.classify bec' age spp cc slp (thlb_value thlb)
                     diam pct in
      let r8001 := Gar8001.calculate_level bec age spp cc slp thlb diam pct
                     gfa notes op_area pcell shp_area target height s in
      fst r8001 = table
      /\ (forall level, table = Ok level ->
          bucket_hectares (alone_cell (snd r8001) pcell) level bec'
          = (bucket_hectares (alone_cell s pcell) level bec' + shp_area)%Q
          /\ bucket_hectares (total_cell (snd r8001) op_area pcell) level bec'
             = (bucket_hectares (total_cell s op_area pcell) level bec'
                + shp_area)%Q)
      /\ is_ok (fst (Gar8006.calculate_level bec age spp cc slp thlb diam pct
                       gfa notes op_area pcell shp_area target height s))
         = true
      /\ is_ok (fst (Gar8012.calculate_level bec age spp cc slp thlb diam pct
                       gfa notes op_area pcell shp_area target height s))
         = true
      /\ is_ok (fst (Gar4010.calculate_level bec age spp cc slp thlb diam pct
                       gfa notes op_area pcell shp_area target height s))
         = true
      /\ (is_ok (fst (Gar4001.calculate_level bec age spp cc slp thlb diam
                        pct gfa notes op_area pcell shp_area target height s))
          = true
          <-> opt_is gfa "Y" = false
              \/ is_Some (Gar4001.dict_levels !! notes)).
Proof.
  split.
  - intros K EqK CK V dflt m k.
    rewrite defaultdict_getitem_value, defaultdict_getitem_dict.
    unfold dd_update, dd_get. rewrite lookup_insert_eq.
    repeat split. by intros ->.
  - intros bec age spp cc slp thlb diam pct gfa notes op_area pcell shp_area
      target height s. cbv zeta.
    split; [|split; [|split; [|split; [|split]]]]; try reflexivity.
    + unfold Gar8001.calculate_level.
      by destruct (Gar8001.classify _ _ _ _ _ _ _ _).
    + intros level Hl. unfold Gar8001.calculate_level. rewrite Hl.
      unfold alone_cell, total_cell, Gar8001.accumulate.
      cbn [snd dict_cell_area dict_total_area].
      rewrite on_cell_get, on_total_get.
      unfold add_cell_hectares, set_cell_target, bucket_hectares.
      cbn [cell_level].
      split; apply bucket_hectares_cell_add_bec.
    + unfold Gar4001.calculate_level, dict_getitem.
      destruct (opt_is gfa "Y"); [|by split; [left|]].
      destruct (Gar4001.dict_levels !! notes) as [l|]; simpl.
      * split; [right; by eexists | done].
      * split; [done | by intros [?|[? ?]]].
Qed.

Lemma accumulation_failures_witness :
  let r8001 :=
    Gar8001.calculate_level "MS dm 1" None "PL" None None None None None None
      "" "OA" "C1" 10 100 None State0 in
  bucket_hectares (alone_cell (snd r8001) "C1") None "MSdm1" = (0 + 10)%Q
  /\ is_ok (fst (Gar4001.calculate_level "MS dm 1" None "PL" None None None
                   None None None "any note" "OA" "C1" 10 100 None State0))
     = true.
Proof.
  pose proof (proj2 accumulation_failures "MS dm 1" None "PL" None None None
                None None None "any note" "OA" "C1" 10%Q 100%Q None State0)
    as (_ & _ & _ & _ & _ & H01).
  pose proof (proj2 accumulation_failures "MS dm 1" None "PL" None None None
                None None None "" "OA" "C1" 10%Q 100%Q None State0)
    as (_ & H81 & _).
  split.
  - apply (proj1 (H81 None eq_refl)).
  - apply H01. by left.
Defined.

(** C5, as stated, fails: in GAR 4-001 a record of the gross forested land
    base whose feature note is none of the three habitats raises
    [KeyError] in the accumulation. *)
Lemma accumulation_failures_counterexample :
  fst (Gar4001.calculate_level "ICH mw 2" (Some 150%Z) "FD" (Some 60%Z) None
         None None None (Some "Y") "Elk; shallow snow" "OA" "C1" 10 100 None
         State0)
  = Raise KeyError.
Proof. reflexivity. Qed.

(** ** Levels and buckets of a cell *)

Lemma level_of_on_level_eq l f c :
  level_of (on_level l f c) l = f (level_of c l).
Proof. unfold level_of, on_level. simpl. apply dd_get_update_eq. Qed.

Lemma level_of_on_level_ne l l' f c :
  l <> l' -> level_of (on_level l f c) l' = level_of c l'.
Proof.
  intros Hne. unfold level_of, on_level. simpl.
  apply dd_get_update_ne. congruence.
Qed.

Lemma level_of_touch l l' c : level_of (touch_level l c) l' = level_of c l'.
Proof.
  change (touch_level l c) with (on_level l (fun x => x) c).
  destruct (String.eqb_spec l l') as [->|Hne].
  - by rewrite level_of_on_level_eq.
  - by rewrite level_of_on_level_ne.
Qed.

Lemma level_of_add_scalar c l x :
  level_of (add_ch_hectares x c) l = level_of c l
  /\ level_of (add_nh_hectares x c) l = level_of c l
  /\ level_of (add_sic_hectares x c) l = level_of c l
  /\ level_of (add_nthlb_hectares x c) l = level_of c l
  /\ level_of (add_imm_hectares x c) l = level_of c l.
Proof. done. Qed.

Lemma level_of_add_ch c l x : level_of (add_ch_hectares x c) l = level_of c l.
Proof. done. Qed.

Lemma level_of_add_nh c l x : level_of (add_nh_hectares x c) l = level_of c l.
Proof. done. Qed.

Lemma level_of_add_sic c l x :
  level_of (add_sic_hectares x c) l = level_of c l.
Proof. done. Qed.

Lemma level_of_add_nthlb c l x :
  level_of (add_nthlb_hectares x c) l = level_of c l.
Proof. done. Qed.

Lemma level_of_add_imm c l x :
  level_of (add_imm_hectares x c) l = level_of c l.
Proof. done. Qed.

Lemma fold_left_invariant {A B C} (f : A -> B -> A) (g : A -> C) l a :
  (forall a b, In b l -> g (f a b) = g a) -> g (fold_left f l a) = g a.
Proof.
  revert a. induction l as [|b l IH]; intros a Hf; simpl; [done|].
  rewrite IH by (intros; apply Hf; by right). apply Hf. by left.
Qed.

(** ** The rank walk of GAR 8-006 *)

Section Walk8006.
Variable target : Q.
Implicit Types (w : Walk) (l : string).

(** A level without area, or any level once the rank is CH, is only
    looked at. *)
Lemma level_step_skip w l :
  Qeq_bool (area8006 w l) 0 = true \/ rank w = Some CH ->
  Gar8006.level_step target w l = set_walk_cell (touch_level l) w.
Proof.
  intros Hskip. unfold Gar8006.level_step, area8006 in *.
  cbn [walk_cell set_walk_cell rank]. rewrite level_of_touch.
  destruct (Qeq_bool _ 0); [done|].
  destruct Hskip as [? | ->]; done.
Qed.

(** Otherwise the level's area enters the running total and the level is
    ranked by the comparison with the target. *)
Lemma level_step_ranks w l :
  Qeq_bool (area8006 w l) 0 = false -> rank w <> Some CH ->
  let w' := Gar8006.level_step target w l in
  running_total w' = (running_total w + area8006 w l)%Q
  /\ rank w' = Some (rank_for (running_total w + area8006 w l) target)
  /\ level_rank (level_of (walk_cell w') l) = rank w'.
Proof.
  intros Hne Hrk. unfold Gar8006.level_step, area8006 in *.
  cbn [walk_cell set_walk_cell rank running_total].
  rewrite level_of_touch, Hne.
  replace (is_CH (rank w)) with false
    by (by destruct (rank w) as [[]|]).
  cbn [walk_cell rank running_total]. repeat split.
  destruct (existsb _ _), (rank_for _ _);
    by rewrite ?level_of_add_ch, ?level_of_add_nh, level_of_on_level_eq.
Qed.

Lemma level_step_other w l l' :
  l <> l' ->
  level_of (walk_cell (Gar8006.level_step target w l)) l'
  = level_of (walk_cell w) l'.
Proof.
  intros Hne. unfold Gar8006.level_step.
  destruct (Qeq_bool _ 0);
    [cbn [walk_cell set_walk_cell]; by rewrite level_of_touch|].
  destruct (is_CH _);
    cbn [walk_cell set_walk_cell]; [by rewrite level_of_touch|].
  destruct (existsb _ _), (rank_for _ _);
    by rewrite ?level_of_add_ch, ?level_of_add_nh, level_of_on_level_ne,
         level_of_touch.
Qed.

(** The walk never changes the hectares of a level. *)
Lemma level_step_hectares w l l' :
  level_hectares (level_of (walk_cell (Gar8006.level_step target w l)) l')
  = level_hectares (level_of (walk_cell w) l').
Proof.
  destruct (String.eqb_spec l l') as [<-|Hne];
    [|by rewrite level_step_other].
  destruct (Qeq_bool (area8006 w l) 0) eqn:E0.
  { rewrite level_step_skip by by left.
    cbn [walk_cell set_walk_cell]. by rewrite level_of_touch. }
  destruct (is_CH (rank w)) eqn:Ech.
  { rewrite level_step_skip by (right; by destruct (rank w) as [[]|]).
    cbn [walk_cell set_walk_cell]. by rewrite level_of_touch. }
  unfold Gar8006.level_step, area8006 in *.
  cbn [walk_cell set_walk_cell rank]. rewrite level_of_touch, E0, Ech.
  cbn [walk_cell].
  destruct (existsb _ _), (rank_for _ _);
    by rewrite ?level_of_add_ch, ?level_of_add_nh, level_of_on_level_eq,
         level_of_touch.
Qed.

Lemma level_step_scalars w l :
  let w' := Gar8006.level_step target w l in
  cell_target (walk_cell w') = cell_target (walk_cell w)
  /\ cell_hectares (walk_cell w') = cell_hectares (walk_cell w).
Proof.
  unfold Gar8006.level_step. cbn [walk_cell set_walk_cell rank].
  destruct (Qeq_bool _ 0); [done|].
  destruct (is_CH (rank w)); [done|].
  by destruct (existsb _ _), (rank_for _ _).
Qed.

(** Once the rank is CH the walk changes neither the running total, nor
    the rank, nor the rank or the sums of any level. *)
Lemma walk_frozen ls w :
  rank w = Some CH ->
  let w' := fold_left (Gar8006.level_step target) ls w in
  running_total w' = running_total w
  /\ rank w' = Some CH
  /\ nh_hectares (walk_cell w') = nh_hectares (walk_cell w)
  /\ ch_hectares (walk_cell w') = ch_hectares (walk_cell w)
  /\ forall l, level_rank (level_of (walk_cell w') l)
               = level_rank (level_of (walk_cell w) l).
Proof.
  revert w. induction ls as [|l0 ls IH]; intros w Hch; simpl; [done|].
  rewrite level_step_skip by by right.
  destruct (IH (set_walk_cell (touch_level l0) w) Hch)
    as (Hrt & Hrk & Hnh & Hc & Hl).
  repeat split; try done.
  intros l. rewrite Hl. cbn [walk_cell set_walk_cell].
  by rewrite level_of_touch.
Qed.

Lemma walk_other ls w l :
  ~ In l ls ->
  level_of (walk_cell (fold_left (Gar8006.level_step target) ls w)) l
  = level_of (walk_cell w) l.
Proof.
  intros Hnin.
  apply (fold_left_invariant _ (fun w => level_of (walk_cell w) l)).
  intros a b Hb. apply level_step_other. intros ->. done.
Qed.

(** A level of zero hectares keeps its rank through the whole walk. *)
Lemma walk_zero_level ls w l :
  Qeq_bool (area8006 w l) 0 = true ->
  level_rank (level_of (walk_cell (fold_left (Gar8006.level_step target)
                                     ls w)) l)
  = level_rank (level_of (walk_cell w) l).
Proof.
  revert w. induction ls as [|l0 ls IH]; intros w Hz; simpl; [done|].
  rewrite IH.
  - destruct (String.eqb_spec l0 l) as [->|Hne].
    + rewrite level_step_skip by by left.
      cbn [walk_cell set_walk_cell]. by rewrite level_of_touch.
    + by rewrite level_step_other.
  - unfold area8006. by rewrite level_step_hectares.
Qed.
End Walk8006.

Lemma NoDup_lst_level_8006 : NoDup Gar8006.lst_level.
Proof. by compute_done. Qed.

(** ** C10: levels without area *)

(** C10. In the rank pass of GAR 8-006 a level whose hectares are zero is
    skipped: the step on it leaves the running total, the walk's rank, the
    level's own rank and the no-harvest and conditional-harvest sums as they
    were, whatever the running total and the target are, and no later step
    of the walk ranks it either, so the rank it has after the pass over the
    cell is the one it had before ([None] for a fresh level). *)
Theorem zero_level_is_skipped :
  forall (target : Q) (w : Walk) (level : string),
    (area8006 w level == 0)%Q ->
    let w' := Gar8006.level_step target w level in
    running_total w' = running_total w
    /\ rank w' = rank w
    /\ level_rank (level_of (walk_cell w') level)
       = level_rank (level_of (walk_cell w) level)
    /\ nh_hectares (walk_cell w') = nh_hectares (walk_cell w)
    /\ ch_hectares (walk_cell w') = ch_hectares (walk_cell w)
    /\ forall levels,
         level_rank
           (level_of
              (walk_cell (fold_left (Gar8006.level_step target) levels w))
              level)
         = level_rank (level_of (walk_cell w) level).
Proof.
  intros target w level Hz. apply Qeq_bool_iff in Hz.
  cbv zeta. rewrite level_step_skip by by left.
  cbn [set_walk_cell walk_cell running_total rank].
  rewrite level_of_touch. repeat split.
  intros levels. by apply walk_zero_level.
Qed.

Lemma zero_level_is_skipped_witness :
  level_rank (level_of (Gar8006.rank_cell cell_without_mature) "Mature Cover")
  = None
  /\ level_rank (level_of (Gar8006.rank_cell cell_without_mature) "Recruit 1")
     = Some NH.
Proof.
  split; [|reflexivity].
  apply (zero_level_is_skipped 33 (mkWalk cell_without_mature 0 None)
           "Mature Cover").
  reflexivity.
Defined.

(** ** Buckets *)

Lemma bucket_level_of c l b :
  bucket c l b = al_get (level_bec (level_of c l)) b.
Proof. done. Qed.

Lemma on_bucket_on_level l b f c :
  on_bucket l b f c = on_level l (set_level_bec (al_update f b)) c.
Proof. done. Qed.

Lemma bucket_on_bucket_eq l b f c :
  bucket (on_bucket l b f c) l b = f (bucket c l b).
Proof.
  rewrite !bucket_level_of, on_bucket_on_level, level_of_on_level_eq.
  simpl. apply al_get_update_eq.
Qed.

Lemma bucket_on_bucket_ne l b l' b' f c :
  l <> l' \/ b <> b' -> bucket (on_bucket l b f c) l' b' = bucket c l' b'.
Proof.
  intros Hne. rewrite !bucket_level_of, on_bucket_on_level.
  destruct (String.eqb_spec l l') as [<-|Hl].
  - rewrite level_of_on_level_eq. simpl.
    apply al_get_update_ne. by destruct Hne.
  - by rewrite level_of_on_level_ne.
Qed.

Lemma bucket_on_level l f l' b' c :
  (forall x, level_bec (f x) = level_bec x) ->
  bucket (on_level l f c) l' b' = bucket c l' b'.
Proof.
  intros Hf. rewrite !bucket_level_of.
  destruct (String.eqb_spec l l') as [<-|Hl].
  - by rewrite level_of_on_level_eq, Hf.
  - by rewrite level_of_on_level_ne.
Qed.

Lemma bucket_touch l l' b' c : bucket (touch_level l c) l' b' = bucket c l' b'.
Proof. by rewrite !bucket_level_of, level_of_touch. Qed.

Lemma bec_keys_on_level l f l' c :
  (forall x, level_bec (f x) = level_bec x) ->
  bec_keys (on_level l f c) l' = bec_keys c l'.
Proof.
  intros Hf. unfold bec_keys.
  destruct (String.eqb_spec l l') as [<-|Hl].
  - by rewrite level_of_on_level_eq, Hf.
  - by rewrite level_of_on_level_ne.
Qed.

Lemma bec_keys_on_bucket l b f l' c :
  l <> l' \/ In b (bec_keys c l) ->
  bec_keys (on_bucket l b f c) l' = bec_keys c l'.
Proof.
  intros Hin. unfold bec_keys in *. rewrite on_bucket_on_level.
  destruct (String.eqb_spec l l') as [<-|Hl].
  - rewrite level_of_on_level_eq. simpl.
    apply al_update_keys. by destruct Hin.
  - by rewrite level_of_on_level_ne.
Qed.

Lemma bec_keys_touch l l' c : bec_keys (touch_level l c) l' = bec_keys c l'.
Proof. unfold bec_keys. by rewrite level_of_touch. Qed.

Lemma bucket_add_ch c l b x : bucket (add_ch_hectares x c) l b = bucket c l b.
Proof. done. Qed.

Lemma bucket_add_nh c l b x : bucket (add_nh_hectares x c) l b = bucket c l b.
Proof. done. Qed.

Lemma bucket_add_sic c l b x :
  bucket (add_sic_hectares x c) l b = bucket c l b.
Proof. done. Qed.

Lemma bucket_add_nthlb c l b x :
  bucket (add_nthlb_hectares x c) l b = bucket c l b.
Proof. done. Qed.

Lemma bucket_add_imm c l b x :
  bucket (add_imm_hectares x c) l b = bucket c l b.
Proof. done. Qed.

Lemma bec_keys_add_ch c l x : bec_keys (add_ch_hectares x c) l = bec_keys c l.
Proof. done. Qed.

Lemma bec_keys_add_nh c l x : bec_keys (add_nh_hectares x c) l = bec_keys c l.
Proof. done. Qed.

Lemma bec_keys_add_sic c l x :
  bec_keys (add_sic_hectares x c) l = bec_keys c l.
Proof. done. Qed.

Lemma bec_keys_add_nthlb c l x :
  bec_keys (add_nthlb_hectares x c) l = bec_keys c l.
Proof. done. Qed.

Lemma bec_keys_add_imm c l x :
  bec_keys (add_imm_hectares x c) l = bec_keys c l.
Proof. done. Qed.

Create Rewrite HintDb cell.
#[local] Hint Rewrite bucket_add_ch bucket_add_nh bucket_add_sic
  bucket_add_nthlb bucket_add_imm bec_keys_add_ch bec_keys_add_nh
  bec_keys_add_sic bec_keys_add_nthlb bec_keys_add_imm level_of_add_ch
  level_of_add_nh level_of_add_sic level_of_add_nthlb level_of_add_imm
  bucket_touch bec_keys_touch level_of_touch bucket_on_bucket_eq
  level_of_on_level_eq : cell.

Lemma is_CH_false r : r <> Some CH -> is_CH r = false.
Proof. by destruct r as [[]|]. Qed.

Lemma is_CH_true r : r = Some CH -> is_CH r = true.
Proof. by intros ->. Qed.

(** ** The rank bookkeeping of one bucket in GAR 8-001 *)

Section RankBucket.
Variable target : Q.
Implicit Types (w : Walk) (l b : string) (a : Q).

Lemma rank_bucket_frozen l b a w :
  rank w = Some CH ->
  Gar8001.rank_bucket target l b a w
  = set_walk_cell (on_level l (add_level_hectares a)) w.
Proof. intros Hch. unfold Gar8001.rank_bucket. by rewrite Hch. Qed.

Lemma rank_bucket_ranks l b a w :
  rank w <> Some CH ->
  let w' := Gar8001.rank_bucket target l b a w in
  running_total w' = (running_total w + a)%Q
  /\ rank w' = Some (rank_for (running_total w + a) target)
  /\ bec_rank (bucket (walk_cell w') l b) = rank w'
  /\ level_rank (level_of (walk_cell w') l) = rank w'.
Proof.
  intros Hrk. unfold Gar8001.rank_bucket.
  rewrite (is_CH_false _ Hrk).
  cbn [set_walk_cell walk_cell running_total rank]. repeat split.
  - rewrite bucket_on_level by done.
    destruct (existsb _ _), (rank_for _ _); autorewrite with cell;
      rewrite bucket_on_level by done; by rewrite bucket_on_bucket_eq.
  - rewrite level_of_on_level_eq.
    destruct (existsb _ _), (rank_for _ _); autorewrite with cell; done.
Qed.

Lemma rank_bucket_running_total l b a w :
  running_total (Gar8001.rank_bucket target l b a w)
  = if is_CH (rank w) then running_total w else (running_total w + a)%Q.
Proof. unfold Gar8001.rank_bucket. by destruct (is_CH (rank w)). Qed.

Lemma rank_bucket_other l b a w l' b' :
  l <> l' \/ b <> b' ->
  bucket (walk_cell (Gar8001.rank_bucket target l b a w)) l' b'
  = bucket (walk_cell w) l' b'.
Proof.
  intros Hne. unfold Gar8001.rank_bucket.
  destruct (is_CH (rank w)); cbn [set_walk_cell walk_cell];
    rewrite bucket_on_level by done; [done|].
  destruct (existsb _ _), (rank_for _ _); autorewrite with cell;
    rewrite bucket_on_level by done; by rewrite bucket_on_bucket_ne.
Qed.

Lemma rank_bucket_hectares l b a w l' b' :
  bec_hectares (bucket (walk_cell (Gar8001.rank_bucket target l b a w)) l' b')
  = bec_hectares (bucket (walk_cell w) l' b').
Proof.
  destruct (String.eqb_spec l l') as [<-|Hl];
    [destruct (String.eqb_spec b b') as [<-|Hb]|];
    try (rewrite rank_bucket_other by tauto; done).
  unfold Gar8001.rank_bucket.
  destruct (is_CH (rank w)); cbn [set_walk_cell walk_cell];
    rewrite bucket_on_level by done; [done|].
  destruct (existsb _ _), (rank_for _ _); autorewrite with cell;
    rewrite bucket_on_level by done; by rewrite bucket_on_bucket_eq.
Qed.

Lemma rank_bucket_keys l b a w l' :
  l <> l' \/ In b (bec_keys (walk_cell w) l) ->
  bec_keys (walk_cell (Gar8001.rank_bucket target l b a w)) l'
  = bec_keys (walk_cell w) l'.
Proof.
  intros Hin. unfold Gar8001.rank_bucket.
  destruct (is_CH (rank w)); cbn [set_walk_cell walk_cell];
    rewrite bec_keys_on_level by done; [done|].
  destruct (existsb _ _), (rank_for _ _); autorewrite with cell;
    rewrite bec_keys_on_level by done; by rewrite bec_keys_on_bucket.
Qed.

Lemma rank_bucket_scalars l b a w :
  let w' := Gar8001.rank_bucket target l b a w in
  cell_target (walk_cell w') = cell_target (walk_cell w)
  /\ cell_hectares (walk_cell w') = cell_hectares (walk_cell w).
Proof.
  unfold Gar8001.rank_bucket.
  destruct (is_CH (rank w)); [done|].
  by destruct (existsb _ _), (rank_for _ _).
Qed.
End RankBucket.

Lemma bec_rank_on_bucket_hectares l b x c l' b' :
  bec_rank (bucket (on_bucket l b (set_bec_hectares x) c) l' b')
  = bec_rank (bucket c l' b').
Proof.
  destruct (String.eqb_spec l l') as [<-|Hl];
    [destruct (String.eqb_spec b b') as [<-|Hb]|].
  - by rewrite bucket_on_bucket_eq.
  - by rewrite bucket_on_bucket_ne by tauto.
  - by rewrite bucket_on_bucket_ne by tauto.
Qed.

Lemma level_rank_on_bucket l b f c l' :
  level_rank (level_of (on_bucket l b f c) l') = level_rank (level_of c l').
Proof.
  rewrite on_bucket_on_level.
  destruct (String.eqb_spec l l') as [<-|Hl].
  - by rewrite level_of_on_level_eq.
  - by rewrite level_of_on_level_ne.
Qed.

Lemma level_rank_add_level_hectares l a c l' :
  level_rank (level_of (on_level l (add_level_hectares a) c) l')
  = level_rank (level_of c l').
Proof.
  destruct (String.eqb_spec l l') as [<-|Hl].
  - by rewrite level_of_on_level_eq.
  - by rewrite level_of_on_level_ne.
Qed.

(** ** One step of the rank walk of GAR 8-001 *)

(** Splits a goal about [bec_step] into the branches of its [if/elif]
    chain. *)
Ltac bec_step_cases :=
  unfold Gar8001.bec_step, counted_area;
  destruct (String.eqb _ Gar8001.str_nthlb_sic) eqn:Enthlb;
  [ destruct (Gar8001.capped _ _ _) eqn:Ecap;
    destruct (startswith_any _ _)
  | destruct (String.eqb _ Gar8001.str_sic) eqn:Esic;
    [| destruct (String.eqb _ Gar8001.str_imm) eqn:Eimm] ];
  cbn [andb set_walk_cell walk_cell rank running_total].

Section BecStep.
Variable target : Q.
Implicit Types (w : Walk) (l b : string).

Lemma bec_step_frozen l w b :
  rank w = Some CH ->
  let w' := Gar8001.bec_step target l w b in
  running_total w' = running_total w
  /\ rank w' = Some CH
  /\ nh_hectares (walk_cell w') = nh_hectares (walk_cell w)
  /\ ch_hectares (walk_cell w') = ch_hectares (walk_cell w)
  /\ (forall l' b', bec_rank (bucket (walk_cell w') l' b')
                    = bec_rank (bucket (walk_cell w) l' b'))
  /\ (forall l', level_rank (level_of (walk_cell w') l')
                 = level_rank (level_of (walk_cell w) l')).
Proof.
  intros Hch. cbv zeta. bec_step_cases;
    rewrite ?rank_bucket_frozen by done;
    cbn [set_walk_cell walk_cell rank running_total];
    (split; [done|]); (split; [done|]); (split; [done|]);
    (split; [done|]); split; intros;
    rewrite ?bucket_on_level by done;
    rewrite ?level_rank_add_level_hectares;
    autorewrite with cell;
    by rewrite ?bec_rank_on_bucket_hectares, ?level_rank_on_bucket.
Qed.

Lemma bec_step_ranks l w b :
  rank w <> Some CH -> l <> Gar8001.str_imm ->
  let w' := Gar8001.bec_step target l w b in
  running_total w' = (running_total w + counted_area target l (walk_cell w) b)%Q
  /\ rank w' = Some (rank_for
                       (running_total w
                        + counted_area target l (walk_cell w) b) target)
  /\ bec_rank (bucket (walk_cell w') l b) = rank w'.
Proof.
  intros Hrk Himm. cbv zeta. bec_step_cases;
    try (apply String.eqb_eq in Eimm; done);
    autorewrite with cell; cbn [bec_hectares set_bec_hectares];
    match goal with
    | |- context [Gar8001.rank_bucket target l b ?a ?w0] =>
        destruct (rank_bucket_ranks target l b a w0 Hrk)
          as (Hrt & Hr & Hb & _)
    end;
    cbn [set_walk_cell walk_cell rank running_total] in *;
    by rewrite Hrt, Hb, Hr.
Qed.

Lemma bec_step_hectares_self l w b :
  bec_hectares (bucket (walk_cell (Gar8001.bec_step target l w b)) l b)
  = counted_area target l (walk_cell w) b.
Proof.
  bec_step_cases; rewrite ?rank_bucket_hectares;
    cbn [set_walk_cell walk_cell]; autorewrite with cell; done.
Qed.

Lemma bec_step_other l w b l' b' :
  l <> l' \/ b <> b' ->
  bucket (walk_cell (Gar8001.bec_step target l w b)) l' b'
  = bucket (walk_cell w) l' b'.
Proof.
  intros Hne. bec_step_cases; rewrite ?rank_bucket_other by done;
    cbn [set_walk_cell walk_cell]; autorewrite with cell;
    by rewrite ?bucket_on_bucket_ne.
Qed.

Lemma bec_step_keys l w b l' :
  In b (bec_keys (walk_cell w) l) ->
  bec_keys (walk_cell (Gar8001.bec_step target l w b)) l'
  = bec_keys (walk_cell w) l'.
Proof.
  intros Hin. bec_step_cases;
    rewrite ?rank_bucket_keys
      by (right; cbn [set_walk_cell walk_cell]; autorewrite with cell;
          by rewrite ?bec_keys_on_bucket by tauto);
    cbn [set_walk_cell walk_cell]; autorewrite with cell;
    by rewrite ?bec_keys_on_bucket by tauto.
Qed.

Lemma bec_step_scalars l w b :
  let w' := Gar8001.bec_step target l w b in
  cell_target (walk_cell w') = cell_target (walk_cell w)
  /\ cell_hectares (walk_cell w') = cell_hectares (walk_cell w).
Proof.
  cbv zeta. bec_step_cases;
    try match goal with
    | |- context [Gar8001.rank_bucket target l b ?a ?w0] =>
        destruct (rank_bucket_scalars target l b a w0) as [-> ->]
    end; done.
Qed.
End BecStep.

(** ** The rank walk of GAR 8-001 *)

Section Walk8001.
Variable target : Q.
Implicit Types (w : Walk) (l b : string) (ks ls : list string).

Lemma walk_level_unfold w l :
  Gar8001.walk_level target w l
  = Gar8001.walk_becs target l (bec_keys (walk_cell w) l)
      (set_walk_cell (touch_level l) w).
Proof.
  unfold Gar8001.walk_level. cbn [set_walk_cell walk_cell].
  by rewrite bec_keys_touch.
Qed.

(** Frozen walks. *)
Lemma frozen_from_trans w1 w2 w3 :
  frozen_from w1 w2 -> frozen_from w2 w3 -> frozen_from w1 w3.
Proof.
  intros (H1 & H2 & H3 & H4 & H5 & H6) (G1 & G2 & G3 & G4 & G5 & G6).
  repeat split; congruence.
Qed.

Lemma walk_becs_frozen l ks w :
  rank w = Some CH -> frozen_from w (Gar8001.walk_becs target l ks w).
Proof.
  revert w. induction ks as [|k ks IH]; intros w Hch; [done|].
  pose proof (bec_step_frozen target l w k Hch) as Hstep.
  eapply frozen_from_trans; [exact Hstep|].
  apply IH. by destruct Hstep as (_ & ? & _).
Qed.

Lemma walk_level_frozen l w :
  rank w = Some CH -> frozen_from w (Gar8001.walk_level target w l).
Proof.
  intros Hch. rewrite walk_level_unfold.
  eapply frozen_from_trans; [|by apply walk_becs_frozen].
  repeat split; cbn [set_walk_cell walk_cell]; intros;
    by autorewrite with cell.
Qed.

Lemma walk_levels_frozen ls w :
  rank w = Some CH -> frozen_from w (Gar8001.walk_levels target ls w).
Proof.
  revert w. induction ls as [|l ls IH]; intros w Hch; [done|].
  pose proof (walk_level_frozen l w Hch) as Hstep.
  eapply frozen_from_trans; [exact Hstep|].
  apply IH. by destruct Hstep as (_ & ? & _).
Qed.

(** What the walk leaves alone. *)
Lemma walk_becs_other l ks w l' b' :
  l <> l' \/ ~ In b' ks ->
  bucket (walk_cell (Gar8001.walk_becs target l ks w)) l' b'
  = bucket (walk_cell w) l' b'.
Proof.
  intros Hne.
  apply (fold_left_invariant _ (fun w => bucket (walk_cell w) l' b')).
  intros a k Hk. apply bec_step_other.
  destruct Hne as [?|Hnin]; [by left|right]. by intros ->.
Qed.

Lemma walk_level_other l w l' b' :
  l <> l' ->
  bucket (walk_cell (Gar8001.walk_level target w l)) l' b'
  = bucket (walk_cell w) l' b'.
Proof.
  intros Hne. rewrite walk_level_unfold, walk_becs_other by by left.
  cbn [set_walk_cell walk_cell]. by autorewrite with cell.
Qed.

Lemma walk_levels_other ls w l' b' :
  ~ In l' ls ->
  bucket (walk_cell (Gar8001.walk_levels target ls w)) l' b'
  = bucket (walk_cell w) l' b'.
Proof.
  intros Hnin.
  apply (fold_left_invariant _ (fun w => bucket (walk_cell w) l' b')).
  intros a l Hl. apply walk_level_other. by intros ->.
Qed.

(** The keys of the buckets stay as they are. *)
Lemma walk_becs_keys l ks w l' :
  (forall k, In k ks -> In k (bec_keys (walk_cell w) l)) ->
  bec_keys (walk_cell (Gar8001.walk_becs target l ks w)) l'
  = bec_keys (walk_cell w) l'.
Proof.
  revert w. induction ks as [|k ks IH]; intros w Hin; [done|].
  unfold Gar8001.walk_becs in *. simpl. rewrite IH.
  - apply bec_step_keys. apply Hin. by left.
  - intros k' Hk'. rewrite bec_step_keys by (apply Hin; by left).
    apply Hin. by right.
Qed.

Lemma walk_level_keys l w l' :
  bec_keys (walk_cell (Gar8001.walk_level target w l)) l'
  = bec_keys (walk_cell w) l'.
Proof.
  rewrite walk_level_unfold, walk_becs_keys;
    cbn [set_walk_cell walk_cell]; by autorewrite with cell.
Qed.

Lemma walk_levels_keys ls w l' :
  bec_keys (walk_cell (Gar8001.walk_levels target ls w)) l'
  = bec_keys (walk_cell w) l'.
Proof.
  apply (fold_left_invariant _ (fun w => bec_keys (walk_cell w) l')).
  intros. apply walk_level_keys.
Qed.

(** The invariant [no_CH]. *)
Lemma bec_step_no_CH l w b : no_CH w -> no_CH (Gar8001.bec_step target l w b).
Proof.
  intros Hinv Hrk' l' b'.
  destruct (decide (rank w = Some CH)) as [Hch|Hnch].
  { by destruct (bec_step_frozen target l w b Hch) as (_ & ? & _). }
  destruct (decide (l = Gar8001.str_imm)) as [->|Himm].
  { unfold Gar8001.bec_step. simpl. cbn [set_walk_cell walk_cell].
    autorewrite with cell. by apply Hinv. }
  destruct (bec_step_ranks target l w b Hnch Himm) as (_ & Hr & Hb).
  destruct (decide (l = l' /\ b = b')) as [[<- <-]|Hne].
  - by rewrite Hb.
  - rewrite bec_step_other; [by apply Hinv|].
    destruct (decide (l = l')); [right|left]; naive_solver.
Qed.

Lemma walk_becs_no_CH l ks w : no_CH w -> no_CH (Gar8001.walk_becs target l ks w).
Proof.
  revert w. induction ks as [|k ks IH]; intros w Hinv; [done|].
  apply IH. by apply bec_step_no_CH.
Qed.

Lemma walk_level_no_CH l w :
  no_CH w -> no_CH (Gar8001.walk_level target w l).
Proof.
  intros Hinv. rewrite walk_level_unfold. apply walk_becs_no_CH.
  intros Hrk l' b'. cbn [set_walk_cell walk_cell]. autorewrite with cell.
  by apply Hinv.
Qed.

Lemma walk_levels_no_CH ls w : no_CH w -> no_CH (Gar8001.walk_levels target ls w).
Proof.
  revert w. induction ls as [|l ls IH]; intros w Hinv; [done|].
  apply IH. by apply walk_level_no_CH.
Qed.
End Walk8001.

Lemma NoDup_lst_level_8001 : NoDup (Gar8001.lst_level ++ [Gar8001.str_imm]).
Proof. by compute_done. Qed.

Lemma NoDup_precedes {A} (x y : A) (l : list A) :
  NoDup l -> precedes x y l ->
  exists pre rest,
    l = (pre ++ x :: rest)%list
    /\ ~ In x pre /\ ~ In x rest /\ ~ In y pre /\ x <> y.
Proof.
  intros Hnd (pre & mid & post & ->). exists pre, (mid ++ y :: post)%list.
  apply NoDup_app in Hnd as (_ & Hdisj & Hnd).
  apply NoDup_cons in Hnd as [Hx _].
  rewrite !list_elem_of_In in *.
  assert (Hy : In y (mid ++ y :: post)%list)
    by (apply in_or_app; right; by left).
  repeat split; try done.
  - intros Hin. apply (Hdisj x); rewrite list_elem_of_In; [done | by left].
  - intros Hin. apply (Hdisj y); rewrite list_elem_of_In; [done | by right].
  - intros ->. done.
Qed.

Lemma walk_levels_app target ls1 ls2 w :
  Gar8001.walk_levels target (ls1 ++ ls2)%list w
  = Gar8001.walk_levels target ls2 (Gar8001.walk_levels target ls1 w).
Proof. apply fold_left_app. Qed.

Lemma walk_levels_cons target l ls w :
  Gar8001.walk_levels target (l :: ls) w
  = Gar8001.walk_levels target ls (Gar8001.walk_level target w l).
Proof. done. Qed.

Lemma walk_becs_app target l ks1 ks2 w :
  Gar8001.walk_becs target l (ks1 ++ ks2)%list w
  = Gar8001.walk_becs target l ks2 (Gar8001.walk_becs target l ks1 w).
Proof. apply fold_left_app. Qed.

Lemma unranked_no_CH c rt r : unranked c -> no_CH (mkWalk c rt r).
Proof. intros Hc _ l b. cbn [walk_cell]. by rewrite Hc. Qed.

(** In a cell that was not ranked before, a bucket ranked CH by the pass
    of GAR 8-001 leaves every bucket walked after it without a rank. *)
Lemma rank_cell_8001_after_CH c l1 b1 l2 b2 :
  unranked c ->
  walked_before c l1 b1 l2 b2 ->
  bec_rank (bucket (Gar8001.rank_cell c) l1 b1) = Some CH ->
  bec_rank (bucket (Gar8001.rank_cell c) l2 b2) = None.
Proof.
  intros Hfresh Hbefore.
  unfold Gar8001.rank_cell, Gar8001.walk_cell_ranks.
  set (t := cell_target c). set (w0 := mkWalk c 0 None).
  pose proof (unranked_no_CH c 0 None Hfresh) as Hinv0. fold w0 in Hinv0.
  pose proof NoDup_lst_level_8001 as Hnd.
  destruct Hbefore as [Hlv | (<- & Hin & Hndk & Hk)].
  - (* the two buckets are in different levels *)
    assert (Hlv' : precedes l1 l2 (Gar8001.lst_level ++ [Gar8001.str_imm])).
    { destruct Hlv as (pre & mid & post & ->).
      exists pre, mid, (post ++ [Gar8001.str_imm])%list.
      by rewrite <- !app_assoc, <- !app_comm_cons, <- !app_assoc. }
    destruct (NoDup_precedes _ _ _ Hnd Hlv')
      as (pre & rest & -> & _ & Hl1 & Hl2 & Hne).
    rewrite walk_levels_app, walk_levels_cons.
    set (wpre := Gar8001.walk_levels t pre w0).
    set (w1 := Gar8001.walk_level t wpre l1).
    rewrite (walk_levels_other t rest w1 l1 b1 Hl1). intros Hb1.
    assert (Hch : rank w1 = Some CH).
    { destruct (decide (rank w1 = Some CH)) as [|Hn]; [done|].
      exfalso. revert Hb1.
      by apply (walk_level_no_CH t l1 wpre (walk_levels_no_CH t pre w0 Hinv0)). }
    destruct (walk_levels_frozen t rest w1 Hch) as (_ & _ & _ & _ & -> & _).
    subst w1. rewrite walk_level_other by done.
    subst wpre. rewrite walk_levels_other by done. apply Hfresh.
  - (* both buckets are in the level [l1] *)
    apply in_split in Hin as (pre0 & rest0 & Hsplit).
    assert (Hlv' : exists pre rest,
               (Gar8001.lst_level ++ [Gar8001.str_imm])%list
               = (pre ++ l1 :: rest)%list).
    { exists pre0, (rest0 ++ [Gar8001.str_imm])%list.
      by rewrite Hsplit, <- app_assoc. }
    destruct Hlv' as (pre & rest & Heq). rewrite Heq in Hnd |- *.
    apply NoDup_app in Hnd as (_ & Hdisj & Hnd).
    apply NoDup_cons in Hnd as [Hl1 _].
    rewrite list_elem_of_In in Hl1.
    assert (Hl1' : ~ In l1 pre).
    { intros Hp. apply (Hdisj l1); rewrite list_elem_of_In; [done | by left]. }
    destruct (NoDup_precedes _ _ _ Hndk Hk)
      as (kpre & krest & Hkeys & _ & Hb1 & Hb2 & Hne).
    rewrite walk_levels_app, walk_levels_cons.
    set (wpre := Gar8001.walk_levels t pre w0).
    rewrite walk_level_unfold.
    replace (bec_keys (walk_cell wpre) l1) with (kpre ++ b1 :: krest)%list
      by (subst wpre; by rewrite walk_levels_keys).
    rewrite walk_becs_app.
    set (wt := set_walk_cell (touch_level l1) wpre).
    set (wa := Gar8001.walk_becs t l1 kpre wt).
    change (Gar8001.walk_becs t l1 (b1 :: krest) wa)
      with (Gar8001.walk_becs t l1 krest (Gar8001.bec_step t l1 wa b1)).
    set (wb := Gar8001.bec_step t l1 wa b1).
    rewrite (walk_levels_other t rest _ l1 b1 Hl1).
    rewrite (walk_becs_other t l1 krest wb l1 b1) by by right.
    intros Hrk1.
    assert (Hinvb : no_CH wb).
    { apply bec_step_no_CH, walk_becs_no_CH.
      intros Hr l b. subst wt. cbn [set_walk_cell walk_cell].
      autorewrite with cell.
      by apply (walk_levels_no_CH t pre w0 Hinv0). }
    assert (Hch : rank wb = Some CH).
    { destruct (decide (rank wb = Some CH)) as [|Hn]; [done|].
      exfalso. revert Hrk1. by apply Hinvb. }
    pose proof (walk_becs_frozen t l1 krest wb Hch) as Hf1.
    assert (Hch' : rank (Gar8001.walk_becs t l1 krest wb) = Some CH)
      by by destruct Hf1 as (_ & ? & _).
    destruct (walk_levels_frozen t rest _ Hch') as (_ & _ & _ & _ & -> & _).
    destruct Hf1 as (_ & _ & _ & _ & -> & _).
    subst wb. rewrite bec_step_other by by right.
    subst wa. rewrite walk_becs_other by by right.
    subst wt. cbn [set_walk_cell walk_cell]. autorewrite with cell.
    subst wpre. rewrite walk_levels_other by done. apply Hfresh.
Qed.

Lemma fold_left_cons {A B} (f : A -> B -> A) b l a :
  fold_left f (b :: l) a = fold_left f l (f a b).
Proof. done. Qed.

Lemma level_step_rank_cases target w l :
  let w' := Gar8006.level_step target w l in
  level_rank (level_of (walk_cell w') l)
  = level_rank (level_of (walk_cell w) l)
  \/ level_rank (level_of (walk_cell w') l) = rank w'.
Proof.
  cbv zeta.
  destruct (Qeq_bool (area8006 w l) 0) eqn:E0.
  { left. rewrite level_step_skip by by left.
    cbn [set_walk_cell walk_cell]. by rewrite level_of_touch. }
  destruct (decide (rank w = Some CH)) as [Hch|Hn].
  { left. rewrite level_step_skip by by right.
    cbn [set_walk_cell walk_cell]. by rewrite level_of_touch. }
  right. by destruct (level_step_ranks target w l E0 Hn) as (_ & _ & ->).
Qed.

(** In a cell that was not ranked before, a level ranked CH by the pass of
    GAR 8-006 leaves every level walked after it without a rank. *)
Lemma rank_cell_8006_after_CH c l1 l2 :
  (forall l, level_rank (level_of c l) = None) ->
  precedes l1 l2 Gar8006.lst_level ->
  level_rank (level_of (Gar8006.rank_cell c) l1) = Some CH ->
  level_rank (level_of (Gar8006.rank_cell c) l2) = None.
Proof.
  intros Hfresh Hbefore.
  unfold Gar8006.rank_cell, Gar8006.walk_cell_ranks.
  set (t := cell_target c). set (w0 := mkWalk c 0 None).
  destruct (NoDup_precedes _ _ _ NoDup_lst_level_8006 Hbefore)
    as (pre & rest & -> & Hl1p & Hl1 & Hl2 & Hne).
  rewrite fold_left_app, fold_left_cons.
  set (wpre := fold_left (Gar8006.level_step t) pre w0).
  set (w1 := Gar8006.level_step t wpre l1).
  rewrite (walk_other t rest w1 l1 Hl1). intros Hrk1.
  assert (Hch : rank w1 = Some CH).
  { destruct (level_step_rank_cases t wpre l1) as [Hsame | Hranked];
      fold w1 in Hsame || fold w1 in Hranked.
    - rewrite Hsame in Hrk1. subst wpre.
      rewrite walk_other in Hrk1 by done.
      cbn [walk_cell] in Hrk1. by rewrite Hfresh in Hrk1.
    - by rewrite <- Hranked. }
  destruct (walk_frozen t rest w1 Hch) as (_ & _ & _ & _ & ->).
  subst w1. rewrite level_step_other by done.
  subst wpre. rewrite walk_other by done. apply Hfresh.
Qed.

(** ** The cells that the accumulation builds *)

Lemma al_update_keys_new f k l :
  ~ In k (map fst l) -> map fst (al_update f k l) = (map fst l ++ [k])%list.
Proof.
  induction l as [|[k' v] r IH]; simpl; [done|].
  intros Hnin. destruct (String.eqb_spec k' k) as [->|Hne].
  - exfalso. apply Hnin. by left.
  - simpl. rewrite IH; [done|]. intros Hin. apply Hnin. by right.
Qed.

Lemma al_update_NoDup f k l :
  NoDup (map fst l) -> NoDup (map fst (al_update f k l)).
Proof.
  intros Hnd. destruct (in_dec string_dec k (map fst l)) as [Hin|Hnin].
  - by rewrite al_update_keys.
  - rewrite al_update_keys_new by done.
    apply NoDup_app. repeat split; [done| |apply NoDup_singleton].
    intros x Hx Hx'. apply list_elem_of_In in Hx.
    apply list_elem_of_singleton in Hx'. by subst.
Qed.

Lemma al_update_rank f k l b :
  (forall v, bec_rank (f v) = bec_rank v) ->
  bec_rank (al_get (al_update f k l) b) = bec_rank (al_get l b).
Proof.
  intros Hf. destruct (String.eqb_spec k b) as [->|Hne].
  - by rewrite al_get_update_eq, Hf.
  - by rewrite al_get_update_ne.
Qed.

Lemma fresh_cell_levels c :
  fresh_cell c <-> forall l, fresh_level (level_of c l).
Proof.
  unfold fresh_cell, fresh_level, unranked, bec_keys. split.
  - intros (Hb & Hl & Hk) l. repeat split; [apply Hl | apply Hb | apply Hk].
  - intros H. repeat split; intros; apply H.
Qed.

Lemma fresh_level_0 : fresh_level Level0.
Proof. repeat split. apply NoDup_nil_2. Qed.

Lemma fresh_cell_0 : fresh_cell CellArea0.
Proof. apply fresh_cell_levels. intros l. apply fresh_level_0. Qed.

(** A mutation of one level that keeps the level fresh keeps the cell
    fresh. *)
Lemma fresh_cell_update g level c :
  (forall l, fresh_level l -> fresh_level (g l)) ->
  fresh_cell c -> fresh_cell (set_cell_level (dd_update Level0 g level) c).
Proof.
  intros Hg Hc. apply fresh_cell_levels. intros l.
  rewrite fresh_cell_levels in Hc. unfold level_of in *.
  cbn [cell_level set_cell_level].
  destruct (decide (level = Some l)) as [->|Hne].
  - rewrite dd_get_update_eq. apply Hg, Hc.
  - rewrite dd_get_update_ne by done. apply Hc.
Qed.

Lemma fresh_cell_add_bec level bec x c :
  fresh_cell c -> fresh_cell (cell_add_bec level bec x c).
Proof.
  apply fresh_cell_update. intros l (Hr & Hb & Hk). repeat split; [done| |].
  - intros b. cbn [set_level_bec level_bec].
    by rewrite al_update_rank.
  - cbn [set_level_bec level_bec]. by apply al_update_NoDup.
Qed.

Lemma fresh_cell_add_level level x c :
  fresh_cell c -> fresh_cell (cell_add_level level x c).
Proof. apply fresh_cell_update. by intros l (Hr & Hb & Hk). Qed.

Lemma fresh_cell_add_level_total level x c :
  fresh_cell c -> fresh_cell (cell_add_level_total level x c).
Proof. apply fresh_cell_update. by intros l (Hr & Hb & Hk). Qed.

Lemma fresh_cell_scalars x c :
  fresh_cell c ->
  fresh_cell (add_cell_hectares x c)
  /\ fresh_cell (set_cell_target x c)
  /\ fresh_cell (add_mat_hectares x c).
Proof. done. Qed.

Lemma all_fresh_0 : all_fresh State0.
Proof. split; intros; apply fresh_cell_0. Qed.

(** Mutating a cell of either hierarchy by a function that keeps a cell
    fresh keeps every cell fresh. *)
Lemma all_fresh_on_cell g pcell t c z l :
  (forall c, fresh_cell c -> fresh_cell (g c)) ->
  all_fresh (mkState t c z l) ->
  all_fresh (mkState t (on_cell pcell g c) z l).
Proof.
  intros Hg [Ha Ht]. split; [|exact Ht].
  intros pc. specialize (Ha pc). unfold alone_cell, on_cell in *.
  cbn [dict_cell_area] in *.
  destruct (decide (pcell = pc)) as [->|Hne].
  - rewrite dd_get_update_eq. by apply Hg.
  - by rewrite dd_get_update_ne.
Qed.

Lemma all_fresh_on_total f op_area pcell t c z l :
  (forall c, fresh_cell c -> fresh_cell (f c)) ->
  all_fresh (mkState t c z l) ->
  all_fresh (mkState (on_total op_area pcell f t) c z l).
Proof.
  intros Hf [Ha Ht]. split; [exact Ha|].
  intros op pc. specialize (Ht op pc). unfold total_cell, on_total in *.
  cbn [dict_total_area] in *.
  destruct (decide (op_area = op)) as [->|Hne].
  - rewrite dd_get_update_eq. cbn [total_pcell set_pcell].
    destruct (decide (pcell = pc)) as [->|Hne].
    + rewrite dd_get_update_eq. by apply Hf.
    + by rewrite dd_get_update_ne.
  - by rewrite dd_get_update_ne.
Qed.

Lemma all_fresh_eta s z l :
  all_fresh s -> all_fresh (mkState (dict_total_area s) (dict_cell_area s) z l).
Proof. by destruct s. Qed.

Lemma fresh_cell_add_cell_hectares x c :
  fresh_cell c -> fresh_cell (add_cell_hectares x c).
Proof. done. Qed.

Lemma fresh_cell_set_cell_target x c :
  fresh_cell c -> fresh_cell (set_cell_target x c).
Proof. done. Qed.

Lemma fresh_cell_add_mat_hectares x c :
  fresh_cell c -> fresh_cell (add_mat_hectares x c).
Proof. done. Qed.

(** Proves that a composition of the setters keeps a cell fresh. *)
Ltac keeps_fresh :=
  intros; cbv beta;
  repeat match goal with
         | H : fresh_cell ?c |- fresh_cell ?c => exact H
         | |- fresh_cell (cell_add_bec _ _ _ _) => apply fresh_cell_add_bec
         | |- fresh_cell (cell_add_level _ _ _) => apply fresh_cell_add_level
         | |- fresh_cell (cell_add_level_total _ _ _) =>
             apply fresh_cell_add_level_total
         | |- fresh_cell (add_cell_hectares _ _) =>
             apply fresh_cell_add_cell_hectares
         | |- fresh_cell (set_cell_target _ _) =>
             apply fresh_cell_set_cell_target
         | |- fresh_cell (add_mat_hectares _ _) =>
             apply fresh_cell_add_mat_hectares
         | |- fresh_cell (if ?b then _ else _) => destruct b
         | |- fresh_cell (match ?o with Some _ => _ | None => _ end) =>
             destruct o
         end.

(** Proves that an accumulation keeps every cell fresh. *)
Ltac keeps_all_fresh IH :=
  cbn [dict_total_area dict_cell_area dict_zero_target lst_cells];
  repeat match goal with
         | |- all_fresh (mkState (on_total _ _ _ _) _ _ _) =>
             eapply all_fresh_on_total; [keeps_fresh|]
         | |- all_fresh (mkState _ (on_cell _ _ _) _ _) =>
             eapply all_fresh_on_cell; [keeps_fresh|]
         | |- all_fresh (mkState (dict_total_area _) (dict_cell_area _) _ _) =>
             apply all_fresh_eta; exact IH
         | |- all_fresh _ => exact IH
         end.

(** Every state that a run reaches holds fresh cells only. *)
Lemma built_all_fresh r s : built r s -> all_fresh s.
Proof.
  induction 1 as [|bec age spp cc slp thlb diam pct gfa notes op_area pcell
                    shp_area target height s _ IH]; [apply all_fresh_0|].
  destruct r; cbn [calculate_level].
  - unfold Gar8001.calculate_level.
    destruct (Gar8001.classify _ _ _ _ _ _ _ _); [|done].
    cbn [snd]. unfold Gar8001.accumulate. keeps_all_fresh IH.
  - unfold Gar8006.calculate_level. cbn [snd]. unfold Gar8006.accumulate.
    keeps_all_fresh IH.
  - unfold Gar8012.calculate_level. cbn [snd]. unfold Gar8012.accumulate.
    cbv zeta.
    destruct (Gar8012.not_no_harv _ && startswith_any _ _)%bool,
      (truthyL _ && Gar8012.not_no_harv _)%bool; keeps_all_fresh IH.
  - unfold Gar4010.calculate_level. cbn [snd]. unfold Gar4010.accumulate.
    keeps_all_fresh IH.
  - unfold Gar4001.calculate_level. cbv zeta.
    destruct (opt_is gfa "Y"); [|done].
    destruct (dict_getitem Gar4001.dict_levels notes),
      (truthyL (Gar4001.classify age cc notes)); cbn [snd];
      keeps_all_fresh IH.
Qed.

Lemma bec_keys_rank_cell_8001 c l :
  bec_keys (Gar8001.rank_cell c) l = bec_keys c l.
Proof.
  unfold Gar8001.rank_cell, Gar8001.walk_cell_ranks.
  by rewrite walk_levels_keys.
Qed.

(** The cells that the passes of [calculate_targets] leave: the walk of a
    fresh cell, or the default cell of a missing key. *)
Lemma ranked_cells_8001 s s' c' :
  all_fresh s -> Gar8001.calculate_targets s = Ok s' -> cell_of s' c' ->
  c' = CellArea0 \/ exists c, fresh_cell c /\ c' = Gar8001.rank_cell c.
Proof.
  intros [Ha Ht]. unfold Gar8001.calculate_targets, Gar8001.set_targets.
  destruct (bool_decide _); [|done]. cbn [bind]. intros [= <-].
  unfold Gar8001.calculate_ranks, Gar8001.calculate_cell_ranks.
  cbn [dict_total_area dict_cell_area].
  intros [[pcell ->] | (op_area & pcell & ->)].
  - specialize (Ha pcell). unfold alone_cell, dd_get in *.
    cbn [dict_cell_area]. rewrite lookup_fmap.
    destruct (dict_cell_area s !! pcell) as [c|]; [right | by left].
    by exists c.
  - specialize (Ht op_area pcell). unfold total_cell, dd_get in *.
    cbn [dict_total_area]. rewrite !lookup_fmap.
    destruct (dict_total_area s !! op_area) as [ta|];
      cbn [fmap option_fmap option_map default from_option id total_pcell
             set_pcell TotalArea0] in *;
      [|left; by rewrite lookup_empty].
    rewrite lookup_fmap, map_lookup_imap.
    destruct (total_pcell ta !! pcell) as [c|];
      cbn [fmap option_fmap option_map default from_option id mbind
             option_bind] in *; [right | by left].
    eexists. split; [|reflexivity]. by apply fresh_cell_set_cell_target.
Qed.

Lemma ranked_cells_8006 s c' :
  all_fresh s -> cell_of (Gar8006.calculate_targets s) c' ->
  c' = CellArea0 \/ exists c, fresh_cell c /\ c' = Gar8006.rank_cell c.
Proof.
  intros [Ha Ht].
  unfold Gar8006.calculate_targets, Gar8006.set_targets,
    Gar8006.calculate_ranks, Gar8006.calculate_cell_ranks.
  cbn [dict_total_area dict_cell_area].
  intros [[pcell ->] | (op_area & pcell & ->)].
  - specialize (Ha pcell). unfold alone_cell, dd_get in *.
    cbn [dict_cell_area]. rewrite !lookup_fmap.
    destruct (dict_cell_area s !! pcell) as [c|];
      cbn [fmap option_fmap option_map default from_option id] in *;
      [right | by left].
    eexists. split; [|reflexivity].
    by apply fresh_cell_set_cell_target.
  - specialize (Ht op_area pcell). unfold total_cell, dd_get in *.
    cbn [dict_total_area]. rewrite !lookup_fmap.
    destruct (dict_total_area s !! op_area) as [ta|];
      cbn [fmap option_fmap option_map default from_option id total_pcell
             set_pcell TotalArea0] in *;
      [|left; by rewrite lookup_empty].
    rewrite !lookup_fmap.
    destruct (total_pcell ta !! pcell) as [c|];
      cbn [fmap option_fmap option_map default from_option id] in *;
      [right | by left].
    eexists. split; [|reflexivity].
    by apply fresh_cell_set_cell_target.
Qed.

(** ** C3: conditional harvest is sticky *)

(** C3. Once a bucket is assigned Conditional-Harvest, the rest of the
    cell's walk is frozen: whatever buckets and levels remain, the running
    total does not advance, the walk's rank stays CH, and no bucket's rank
    changes any more, so no later bucket is assigned No-Harvest.  In a cell
    that was not ranked before, every bucket walked after one that the pass
    ranked CH has the rank [None] after the pass.  This holds for the bec
    buckets of GAR 8-001 and for the levels of GAR 8-006, and so it does in
    every cell of either hierarchy that [calculate_targets] leaves after any
    sequence of records. *)
Theorem conditional_harvest_is_sticky :
  (forall target l b ks ls (w : Walk),
      rank w <> Some CH -> l <> Gar8001.str_imm ->
      let w1 := Gar8001.bec_step target l w b in
      bec_rank (bucket (walk_cell w1) l b) = Some CH ->
      frozen_from w1
        (Gar8001.walk_levels target ls (Gar8001.walk_becs target l ks w1)))
  /\ (forall c l1 b1 l2 b2,
        unranked c -> walked_before c l1 b1 l2 b2 ->
        bec_rank (bucket (Gar8001.rank_cell c) l1 b1) = Some CH ->
        bec_rank (bucket (Gar8001.rank_cell c) l2 b2) = None)
  /\ (forall target l ls (w : Walk),
        let w1 := Gar8006.level_step target w l in
        rank w1 = Some CH ->
        let w2 := fold_left (Gar8006.level_step target) ls w1 in
        running_total w2 = running_total w1
        /\ rank w2 = Some CH
        /\ nh_hectares (walk_cell w2) = nh_hectares (walk_cell w1)
        /\ ch_hectares (walk_cell w2) = ch_hectares (walk_cell w1)
        /\ forall l', level_rank (level_of (walk_cell w2) l')
                      = level_rank (level_of (walk_cell w1) l'))
  /\ (forall c l1 l2,
        (forall l, level_rank (level_of c l) = None) ->
        precedes l1 l2 Gar8006.lst_level ->
        level_rank (level_of (Gar8006.rank_cell c) l1) = Some CH ->
        level_rank (level_of (Gar8006.rank_cell c) l2) = None)
  /\ (forall s s' c l1 b1 l2 b2,
        built R8001 s -> Gar8001.calculate_targets s = Ok s' ->
        cell_of s' c ->
        precedes l1 l2 Gar8001.lst_level
        \/ (l1 = l2 /\ In l1 Gar8001.lst_level
            /\ precedes b1 b2 (bec_keys c l1)) ->
        bec_rank (bucket c l1 b1) = Some CH ->
        bec_rank (bucket c l2 b2) = None)
  /\ (forall s c l1 l2,
        built R8006 s -> cell_of (Gar8006.calculate_targets s) c ->
        precedes l1 l2 Gar8006.lst_level ->
        level_rank (level_of c l1) = Some CH ->
        level_rank (level_of c l2) = None).
Proof.
  split; [|split; [|split; [|split; [|split]]]].
  - intros target l b ks ls w Hrk Himm w1 Hb.
    destruct (bec_step_ranks target l w b Hrk Himm) as (_ & _ & Hbr).
    fold w1 in Hbr. rewrite Hb in Hbr. symmetry in Hbr.
    pose proof (walk_becs_frozen target l ks w1 Hbr) as Hf.
    eapply frozen_from_trans; [exact Hf|].
    apply walk_levels_frozen. by destruct Hf as (_ & ? & _).
  - apply rank_cell_8001_after_CH.
  - intros target l ls w w1 Hch. by apply walk_frozen.
  - apply rank_cell_8006_after_CH.
  - intros s s' c' l1 b1 l2 b2 Hs Ht Hc Hbefore Hch.
    destruct (ranked_cells_8001 s s' c' (built_all_fresh _ _ Hs) Ht Hc)
      as [-> | (c & (Hu & Hl & Hk) & ->)].
    + by rewrite (proj1 fresh_cell_0) in Hch.
    + apply (rank_cell_8001_after_CH c l1 b1); [exact Hu| |exact Hch].
      destruct Hbefore as [Hlv | (-> & Hin & Hb)]; [by left | right].
      rewrite bec_keys_rank_cell_8001 in Hb. by repeat split.
  - intros s c' l1 l2 Hs Hc Hbefore Hch.
    destruct (ranked_cells_8006 s c' (built_all_fresh _ _ Hs) Hc)
      as [-> | (c & (Hu & Hl & Hk) & ->)].
    + by rewrite (proj1 (proj2 fresh_cell_0)) in Hch.
    + by apply (rank_cell_8006_after_CH c l1).
Qed.

Lemma unranked_cell_sic_60_40 x : unranked (cell_sic_60_40 x).
Proof.
  intros l b. unfold bucket, dd_get, cell_sic_60_40. cbn [cell_level].
  destruct (decide (l = "SIC")) as [->|Hne].
  - rewrite lookup_singleton_eq. cbn [default from_option id level_bec al_get].
    repeat match goal with |- context [String.eqb ?k b] =>
      destruct (String.eqb k b) end; done.
  - rewrite lookup_singleton_ne by congruence. done.
Qed.

Lemma unranked_cell_60_40 x l : level_rank (level_of (cell_60_40 x) l) = None.
Proof.
  unfold level_of, dd_get, cell_60_40. cbn [cell_level].
  repeat (rewrite lookup_insert; case_decide; [done|]).
  rewrite lookup_singleton. by case_decide.
Qed.

Lemma built_run_8001 : built R8001 run_8001.
Proof. repeat apply built_record. apply built_empty. Qed.

Lemma built_run_8006 : built R8006 run_8006.
Proof. repeat apply built_record. apply built_empty. Qed.

Lemma ranked_8001_ok : Gar8001.calculate_targets run_8001 = Ok ranked_8001.
Proof.
  unfold ranked_8001.
  assert (H : is_ok (Gar8001.calculate_targets run_8001) = true)
    by (vm_compute; reflexivity).
  by destruct (Gar8001.calculate_targets run_8001).
Qed.

Lemma conditional_harvest_is_sticky_witness :
  bec_rank (bucket (Gar8001.rank_cell (cell_sic_60_40 7)) "SIC" "MSdm1") = None
  /\ level_rank (level_of (Gar8006.rank_cell (cell_60_40 7)) "Recruit 3")
     = None
  /\ bec_rank (bucket (total_cell ranked_8001 "OA" "C1") "SIC" "IDFmw3")
     = None
  /\ level_rank
       (level_of (alone_cell (Gar8006.calculate_targets run_8006) "C1")
          "Recruit 1")
     = None.
Proof.
  destruct conditional_harvest_is_sticky
    as (_ & H8001 & _ & H8006 & Hrun1 & Hrun6).
  split; [|split; [|split]]; cycle 2.
  - apply (Hrun1 run_8001 ranked_8001 _ "SIC" "IDFmw2" "SIC" "IDFmw3").
    + apply built_run_8001.
    + apply ranked_8001_ok.
    + right. by exists "OA", "C1".
    + right. repeat split.
      * unfold Gar8001.lst_level. simpl. tauto.
      * exists ["IDFmw1"], [], []. by vm_compute.
    + by vm_compute.
  - apply (Hrun6 run_8006 _ "Mature Cover" "Recruit 1").
    + apply built_run_8006.
    + left. by exists "C1".
    + by exists [], [],
        ["Recruit 2"; "Recruit 3"; "Recruit 4"; "Recruit 5"; "Recruit 6";
         "Recruit 7"; "Recruit 8"; "Recruit 9"; "Recruit 10"; "Recruit 11"].
    + by vm_compute.
  - apply (H8001 (cell_sic_60_40 7) "SIC" "IDFdm1" "SIC" "MSdm1").
    + apply unranked_cell_sic_60_40.
    + right. repeat split.
      * unfold Gar8001.lst_level. simpl. tauto.
      * by compute_done.
      * by exists ["IDFdk1"; "IDFdk2"], [], [].
    + reflexivity.
  - apply (H8006 (cell_60_40 7) "Recruit 2" "Recruit 3").
    + apply unranked_cell_60_40.
    + by exists ["Mature Cover"; "Recruit 1"], [],
        ["Recruit 4"; "Recruit 5"; "Recruit 6"; "Recruit 7"; "Recruit 8";
         "Recruit 9"; "Recruit 10"; "Recruit 11"].
    + reflexivity.
Defined.

(** ** C2: the cap on the non-timber SIC buckets *)


Lemma rank_bucket_sic target l b a w :
  sic_hectares (walk_cell (Gar8001.rank_bucket target l b a w))
  = sic_hectares (walk_cell w).
Proof.
  unfold Gar8001.rank_bucket.
  destruct (is_CH (rank w)); [done|].
  by destruct (existsb _ _), (rank_for _ _).
Qed.






(** ** Both hierarchies *)






(** ** C1: the rank rule *)










(** ** Targets *)

Lemma rank_cell_8006_scalars c :
  cell_target (Gar8006.rank_cell c) = cell_target c
  /\ cell_hectares (Gar8006.rank_cell c) = cell_hectares c.
Proof.
  unfold Gar8006.rank_cell, Gar8006.walk_cell_ranks. split.
  - apply (fold_left_invariant _ (fun w => cell_target (walk_cell w))).
    intros a b _. apply level_step_scalars.
  - apply (fold_left_invariant _ (fun w => cell_hectares (walk_cell w))).
    intros a b _. apply level_step_scalars.
Qed.

Lemma walk_level_scalars target w l :
  cell_target (walk_cell (Gar8001.walk_level target w l))
  = cell_target (walk_cell w)
  /\ cell_hectares (walk_cell (Gar8001.walk_level target w l))
     = cell_hectares (walk_cell w).
Proof.
  unfold Gar8001.walk_level, Gar8001.walk_becs. split.
  - by rewrite (fold_left_invariant _ (fun w => cell_target (walk_cell w)))
      by (intros a b _; apply bec_step_scalars).
  - by rewrite (fold_left_invariant _ (fun w => cell_hectares (walk_cell w)))
      by (intros a b _; apply bec_step_scalars).
Qed.

Lemma rank_cell_8001_scalars c :
  cell_target (Gar8001.rank_cell c) = cell_target c
  /\ cell_hectares (Gar8001.rank_cell c) = cell_hectares c.
Proof.
  unfold Gar8001.rank_cell, Gar8001.walk_cell_ranks, Gar8001.walk_levels.
  split.
  - apply (fold_left_invariant _ (fun w => cell_target (walk_cell w))).
    intros a b _. apply walk_level_scalars.
  - apply (fold_left_invariant _ (fun w => cell_hectares (walk_cell w))).
    intros a b _. apply walk_level_scalars.
Qed.

(** Reading a cell of the operating-area hierarchy after a pass that maps
    [f] over the cells of every operating area. *)
Lemma total_cell_fmap (f : gmap string CellArea -> gmap string CellArea)
    (g : CellArea -> CellArea) m cells z l op_area ta pcell c :
  m !! op_area = Some ta ->
  total_pcell ta !! pcell = Some c ->
  f (total_pcell ta) !! pcell = Some (g c) ->
  total_cell (mkState (set_pcell f <$> m) cells z l) op_area pcell = g c.
Proof.
  intros Hop Hc Hf. unfold total_cell, dd_get. cbn [dict_total_area].
  rewrite lookup_fmap, Hop. simpl. by rewrite Hf.
Qed.


Section OperatingAreaTargets.
Variables (s : State) (op_area : string) (ta : TotalArea) (pcell : string)
  (c : CellArea).
Hypothesis Hop : dict_total_area s !! op_area = Some ta.
Hypothesis Hcell : total_pcell ta !! pcell = Some c.





End OperatingAreaTargets.


(** ** C4: the targets of the operating areas *)




(** * Properties of the loop, the targets and the rank pass *)

Lemma age_bands_range bands a level l :
  age_bands bands a level = Some l ->
  level = Some l \/ In l (map snd bands).
Proof.
  induction bands as [|[[lo hi] lbl] r IH]; simpl; [by left|].
  destruct ((lo <=? a)%Z && (a <=? hi)%Z)%bool.
  - intros [= <-]. right. by left.
  - intros H. destruct (IH H); [by left | right; by right].
Qed.

Lemma elifE_range {A} (cs : list (result bool * A)) (dflt v : A) :
  elifE cs dflt = Ok v -> v = dflt \/ In v (map snd cs).
Proof.
  induction cs as [|[c x] r IH]; simpl.
  - intros [= <-]. by left.
  - destruct c as [[]|]; simpl; [|..].
    + intros [= <-]. right. by left.
    + intros H. destruct (IH H); [by left | right; by right].
    + done.
Qed.

Lemma Ok_inj {A} (a b : A) : Ok a = Ok b -> a = b.
Proof. by intros [= ->]. Qed.

(** Decides membership in a list of string literals. *)
Ltac in_labels :=
  apply list_elem_of_In; compute_done.

Lemma walked_8001_bands_140 l :
  In l (map snd Gar8001.bands_140) ->
  In l (Gar8001.lst_level ++ [Gar8001.str_imm]).
Proof.
  intros H. simpl in H. repeat (destruct H as [<-|H]; [in_labels|]). done.
Qed.

Lemma walked_8001_bands_175 l :
  In l (map snd Gar8001.bands_175) ->
  In l (Gar8001.lst_level ++ [Gar8001.str_imm]).
Proof.
  intros H. simpl in H. repeat (destruct H as [<-|H]; [in_labels|]). done.
Qed.

Lemma walked_8001_bands_nthlb l :
  In l (map snd Gar8001.bands_nthlb) ->
  In l (Gar8001.lst_level ++ [Gar8001.str_imm]).
Proof.
  intros H. simpl in H. repeat (destruct H as [<-|H]; [in_labels|]). done.
Qed.

Lemma walked_8001_None : walked_8001 None.
Proof. by intros l. Qed.

Lemma walked_8001_Some l :
  In l (Gar8001.lst_level ++ [Gar8001.str_imm]) -> walked_8001 (Some l).
Proof. by intros H l' [= <-]. Qed.

Lemma walked_8001_age_bands bands a level :
  (forall l, In l (map snd bands) ->
             In l (Gar8001.lst_level ++ [Gar8001.str_imm])) ->
  walked_8001 level -> walked_8001 (age_bands bands a level).
Proof.
  intros Hb Hl l H.
  destruct (age_bands_range bands a level l H) as [->|Hin]; auto.
Qed.

Lemma walked_8001_thlb_branch T bands age diam :
  (forall l, In l (map snd bands) ->
             In l (Gar8001.lst_level ++ [Gar8001.str_imm])) ->
  walked_8001 (Gar8001.thlb_branch T bands age diam).
Proof.
  intros Hb. unfold Gar8001.thlb_branch.
  assert (H0 : walked_8001
                 (if Gar8001.sic_test T age diam then Some "SIC" else None)).
  { destruct (Gar8001.sic_test T age diam);
      [apply walked_8001_Some; in_labels | apply walked_8001_None]. }
  destruct (some_ltQ 40 diam); [|done].
  destruct age as [a|]; [|done].
  destruct (a =? 0)%Z; [done|]. by apply walked_8001_age_bands.
Qed.

Lemma walked_8001_deep_chain l1 l2 l3 l4 l5 lo5 hi5 age diam :
  Forall (fun l => In l (Gar8001.lst_level ++ [Gar8001.str_imm]))
    [l1; l2; l3; l4; l5] ->
  walked_8001 (Gar8001.deep_chain l1 l2 l3 l4 l5 lo5 hi5 age diam).
Proof.
  intros H. repeat (apply Forall_cons in H as [? H]).
  unfold Gar8001.deep_chain.
  destruct age as [a|], diam as [d|]; try apply walked_8001_None.
  repeat match goal with
         | |- walked_8001 (if ?b then _ else _) => destruct b
         end;
    first [apply walked_8001_None | by apply walked_8001_Some].
Qed.

Lemma walked_8001_deep age spp cc diam :
  walked_8001 (Gar8001.deep age spp cc diam).
Proof.
  unfold Gar8001.deep.
  repeat match goal with
         | |- walked_8001 (if ?b then _ else _) => destruct b
         end;
    try apply walked_8001_None;
    apply walked_8001_deep_chain;
    repeat (apply Forall_cons; split; [in_labels|]); apply Forall_nil_2.
Qed.

Lemma walked_8001_shallow age : walked_8001 (Gar8001.shallow age).
Proof.
  unfold Gar8001.shallow. destruct age as [a|]; [|apply walked_8001_None].
  destruct (a =? 0)%Z; [apply walked_8001_None|].
  destruct (140 <=? a)%Z; [apply walked_8001_Some; in_labels|].
  apply walked_8001_age_bands;
    [apply walked_8001_bands_140 | apply walked_8001_None].
Qed.

Lemma walked_8001_idfmw_nthlb age cc pct level :
  Gar8001.idfmw_nthlb age cc pct = Ok level -> walked_8001 level.
Proof.
  unfold Gar8001.idfmw_nthlb.
  destruct (truthyZ cc && truthyZ age && truthyZ pct && some_geZ 50 cc
            && some_geZ 120 age && some_geZ 50 pct)%bool.
  { intros <-%Ok_inj. apply walked_8001_Some. in_labels. }
  destruct (truthyZ cc && some_geZ 36 cc)%bool;
    [|intros <-%Ok_inj; apply walked_8001_None].
  intros H. apply elifE_range in H as [->|H]; [apply walked_8001_None|].
  simpl in H.
  repeat (destruct H as [<-|H]; [apply walked_8001_Some; in_labels|]). done.
Qed.

Lemma walked_8001_idfmw age spp cc slp thlb diam pct level :
  Gar8001.idfmw age spp cc slp thlb diam pct = Ok level -> walked_8001 level.
Proof.
  unfold Gar8001.idfmw.
  destruct (startswith spp "F" && negb (opt_is slp "80+"))%bool;
    [|intros <-%Ok_inj; apply walked_8001_None].
  destruct (Qlt_bool 0 thlb).
  - destruct (truthyZ cc && some_geZ 36 cc)%bool; intros <-%Ok_inj;
      [|apply walked_8001_None].
    apply walked_8001_thlb_branch, walked_8001_bands_140.
  - destruct (Qeq_bool thlb 0); [apply walked_8001_idfmw_nthlb|].
    intros <-%Ok_inj; apply walked_8001_None.
Qed.

Lemma walked_8001_moderate_nthlb age pct level :
  Gar8001.moderate_nthlb age pct = Ok level -> walked_8001 level.
Proof.
  unfold Gar8001.moderate_nthlb.
  destruct age as [a|]; [|intros <-%Ok_inj; apply walked_8001_None].
  destruct (a =? 0)%Z; [intros <-%Ok_inj; apply walked_8001_None|].
  destruct (120 <=? a)%Z; cbn [ifE andE bind geZ cmpZ].
  - destruct pct as [p|]; cbn [ifE andE bind geZ cmpZ]; [|done].
    destruct (50 <=? p)%Z; intros <-%Ok_inj.
    + apply walked_8001_Some. in_labels.
    + apply walked_8001_age_bands;
        [apply walked_8001_bands_nthlb | apply walked_8001_None].
  - intros <-%Ok_inj.
    apply walked_8001_age_bands;
      [apply walked_8001_bands_nthlb | apply walked_8001_None].
Qed.

Lemma walked_8001_moderate age spp cc slp thlb diam pct level :
  Gar8001.moderate age spp cc slp thlb diam pct = Ok level ->
  walked_8001 level.
Proof.
  unfold Gar8001.moderate.
  destruct (startswith spp "F"); simpl;
    [|intros <-%Ok_inj; apply walked_8001_None].
  destruct cc as [c|]; simpl; [|done].
  destruct (36 <=? c)%Z; simpl; [|intros <-%Ok_inj; apply walked_8001_None].
  destruct (negb (opt_is slp "80+")); simpl;
    [|intros <-%Ok_inj; apply walked_8001_None].
  destruct (Qlt_bool 0 thlb).
  - intros <-%Ok_inj. apply walked_8001_thlb_branch, walked_8001_bands_175.
  - destruct (Qeq_bool thlb 0); [apply walked_8001_moderate_nthlb|].
    intros <-%Ok_inj; apply walked_8001_None.
Qed.

Lemma walked_8001_immature bec age level :
  walked_8001 level -> walked_8001 (Gar8001.immature bec age level).
Proof.
  intros H. unfold Gar8001.immature. destruct age as [a|]; [|done].
  destruct (negb (a =? 0)%Z && (a <? 20)%Z
            && startswith_any bec Gar8001.imm_zones)%bool; [|done].
  apply walked_8001_Some. in_labels.
Qed.

(** X1. Whatever label the decision table of GAR 8-001 returns is one of
    the levels that its rank pass walks: a level of [lst_level] or
    "Immature". *)
Theorem classify_8001_is_walked bec age spp cc slp thlb diam pct l :
  Gar8001.classify bec age spp cc slp thlb diam pct = Ok (Some l) ->
  In l (Gar8001.lst_level ++ [Gar8001.str_imm]).
Proof.
  unfold Gar8001.classify. intros H.
  assert (Hw : forall r level,
             r = Ok level -> walked_8001 level ->
             bind r (fun level => Ok (Gar8001.immature bec age level))
             = Ok (Some l) ->
             In l (Gar8001.lst_level ++ [Gar8001.str_imm])).
  { intros r level -> Hl. cbn [bind]. intros Hi%Ok_inj.
    exact (walked_8001_immature bec age level Hl l Hi). }
  revert H.
  destruct (startswith_any bec ["BG"; "PP"; "IDFxh"] && startswith spp "F")%bool.
  { apply (Hw _ _ eq_refl), walked_8001_shallow. }
  destruct (startswith bec "IDFmw").
  { destruct (Gar8001.idfmw age spp cc slp thlb diam pct) eqn:E; [|done].
    apply (Hw _ _ eq_refl). by apply walked_8001_idfmw in E. }
  destruct (startswith_any bec ["IDFdk"; "IDFdm"; "ICHdw"; "MS"]).
  { destruct (Gar8001.moderate age spp cc slp thlb diam pct) eqn:E; [|done].
    apply (Hw _ _ eq_refl). by apply walked_8001_moderate in E. }
  destruct (startswith bec "ICH" && negb (startswith bec "ICHdw"))%bool.
  - apply (Hw _ _ eq_refl), walked_8001_deep.
  - apply (Hw _ _ eq_refl), walked_8001_None.
Qed.

Lemma classify_8001_is_walked_witness :
  In "Recruit 4" (Gar8001.lst_level ++ [Gar8001.str_imm]).
Proof.
  apply (classify_8001_is_walked "BGxh1" (Some 105%Z) "FD" None None 0 None
           None "Recruit 4").
  reflexivity.
Defined.

(** ** The decision table of GAR 8-006 *)

Lemma cc_chain_range l1 l2 l3 l4 c l :
  Gar8006.cc_chain l1 l2 l3 l4 c = Some l -> In l [l1; l2; l3; l4].
Proof.
  unfold Gar8006.cc_chain.
  repeat match goal with
         | |- (if ?b then _ else _) = _ -> _ => destruct b
         end; intros [= <-]; simpl; tauto.
Qed.

Lemma cc_chain_None l1 l2 l3 l4 c :
  Gar8006.cc_chain l1 l2 l3 l4 c = None <-> (c < 26)%Z.
Proof.
  unfold Gar8006.cc_chain.
  destruct (Z.leb_spec 56 c), (Z.leb_spec 46 c), (Z.ltb_spec c 56),
    (Z.leb_spec 36 c), (Z.ltb_spec c 46), (Z.leb_spec 26 c),
    (Z.ltb_spec c 36); simpl; split; intros; try done; lia.
Qed.

Lemma height_chain_None h c :
  Gar8006.height_chain h c = None <-> (h < 12)%Q \/ (c < 26)%Z.
Proof.
  unfold Gar8006.height_chain.
  destruct (Qle_bool 16 h) eqn:E16.
  { apply Qle_bool_iff in E16. rewrite cc_chain_None.
    split; [by right | intros [H|H]; [lra | done]]. }
  assert (H16 : (h < 16)%Q).
  { apply Qnot_le_lt. intros H. apply Qle_bool_iff in H. congruence. }
  rewrite (Qlt_bool_true _ _ H16), andb_true_r.
  destruct (Qle_bool 14 h) eqn:E14.
  { apply Qle_bool_iff in E14. rewrite cc_chain_None.
    split; [by right | intros [H|H]; [lra | done]]. }
  assert (H14 : (h < 14)%Q).
  { apply Qnot_le_lt. intros H. apply Qle_bool_iff in H. congruence. }
  rewrite (Qlt_bool_true _ _ H14), andb_true_r.
  destruct (Qle_bool 12 h) eqn:E12.
  { apply Qle_bool_iff in E12. rewrite cc_chain_None.
    split; [by right | intros [H|H]; [lra | done]]. }
  split; [|done]. intros _. left.
  apply Qnot_le_lt. intros H. apply Qle_bool_iff in H. congruence.
Qed.

Lemma height_chain_range h c l :
  Gar8006.height_chain h c = Some l -> In l Gar8006.lst_level.
Proof.
  unfold Gar8006.height_chain.
  repeat match goal with
         | |- (if ?b then _ else _) = _ -> _ => destruct b
         end; try done;
    intros H%cc_chain_range; simpl in H;
    repeat (destruct H as [<-|H]; [in_labels|]); done.
Qed.

(** X2. GAR 8-006 classifies a record only behind the gate on the
    gross-forested indicator, the height and the crown closure: a null or
    zero height or crown closure leaves the record unclassified, also when
    its age is immature.  Behind the gate the record is unclassified exactly
    when it is not immature and is lower than 12 m or has a crown closure
    below 26.  Every label is a level of [lst_level] or "Immature". *)
Theorem classify_8006_gate bec age cc gfa height :
  ((opt_is gfa "Y" && truthyQ height && truthyZ cc)%bool = false ->
   Gar8006.classify bec age cc gfa height = None)
  /\ (forall h c,
        height = Some h -> cc = Some c ->
        (opt_is gfa "Y" && truthyQ height && truthyZ cc)%bool = true ->
        (Gar8006.classify bec age cc gfa height = None
         <-> Gar8006.imm_test bec age = false
             /\ ((h < 12)%Q \/ (c < 26)%Z)))
  /\ (forall l,
        Gar8006.classify bec age cc gfa height = Some l ->
        In l (Gar8006.lst_level ++ [Gar8006.str_imm])).
Proof.
  unfold Gar8006.classify. split; [|split].
  - intros Hgate. destruct height as [h|], cc as [c|]; try done.
    by rewrite Hgate.
  - intros h c -> -> ->. cbv zeta.
    destruct (Gar8006.imm_test bec age).
    + split; [done | by intros [? _]].
    + rewrite height_chain_None. split; [done | by intros [_ ?]].
  - intros l. destruct height as [h|], cc as [c|]; try done.
    destruct (opt_is gfa "Y" && truthyQ (Some h) && truthyZ (Some c))%bool;
      [|done].
    cbv zeta. destruct (Gar8006.imm_test bec age).
    + intros [= <-]. in_labels.
    + intros H%height_chain_range. apply in_or_app. by left.
Qed.

Lemma classify_8006_gate_witness :
  Gar8006.classify "IDFdk1" (Some 10%Z) (Some 60%Z) (Some "Y") (Some 0%Q)
  = None
  /\ Gar8006.classify "IDFdk1" (Some 90%Z) (Some 20%Z) (Some "Y") (Some 20%Q)
     = None
  /\ In "Recruit 4" (Gar8006.lst_level ++ [Gar8006.str_imm]).
Proof.
  split; [|split].
  - by apply (classify_8006_gate "IDFdk1" (Some 10%Z) (Some 60%Z) (Some "Y")
                (Some 0%Q)).
  - apply (proj1 (proj2 (classify_8006_gate "IDFdk1" (Some 90%Z) (Some 20%Z)
                           (Some "Y") (Some 20%Q))) 20%Q 20%Z);
      [done | done | done |].
    split; [done | right; lia].
  - by apply (proj2 (proj2 (classify_8006_gate "IDFdk1" (Some 90%Z)
                              (Some 50%Z) (Some "Y") (Some 15%Q)))).
Defined.

(** ** When the decision table of GAR 8-001 raises *)

Lemma Qeq_not_lt_bool thlb : Qeq_bool thlb 0 = true -> Qlt_bool 0 thlb = false.
Proof.
  intros H. apply Qeq_bool_iff in H. apply Qlt_bool_false. lra.
Qed.

Lemma idfmw_nthlb_raises age cc pct :
  Gar8001.idfmw_nthlb age cc pct = Raise TypeError
  <-> (truthyZ cc && some_geZ 36 cc)%bool = true /\ age = None.
Proof.
  destruct age as [a|].
  - pose proof (idfmw_nthlb_ok a cc pct) as Hok.
    destruct (Gar8001.idfmw_nthlb (Some a) cc pct); [|done].
    split; [done | by intros [_ ?]].
  - unfold Gar8001.idfmw_nthlb. cbn [truthyZ]. rewrite andb_false_r.
    cbn [andb]. destruct (truthyZ cc && some_geZ 36 cc)%bool.
    + split; [done | intros _].
      by destruct (some_geZ 36 cc && negb (some_geZ 50 cc))%bool.
    + split; [done | by intros [? _]].
Qed.

Lemma moderate_nthlb_raises age pct :
  Gar8001.moderate_nthlb age pct = Raise TypeError
  <-> some_geZ 120 age = true /\ pct = None.
Proof.
  unfold Gar8001.moderate_nthlb. destruct age as [a|]; cbn [some_geZ].
  - destruct (Z.eqb_spec a 0) as [->|Ha]; [split; [done | by intros [? _]]|].
    destruct (120 <=? a)%Z; cbn [ifE andE bind].
    + destruct pct as [p|]; cbn [geZ cmpZ ifE bind].
      * destruct (50 <=? p)%Z; split; try done; by intros [_ ?].
      * done.
    + split; [done | by intros [? _]].
  - split; [done | by intros [? _]].
Qed.

Lemma moderate_raises age spp cc slp thlb diam pct :
  Gar8001.moderate age spp cc slp thlb diam pct = Raise TypeError
  <-> startswith spp "F" = true
      /\ (cc = None
          \/ (some_geZ 36 cc = true /\ opt_is slp "80+" = false
              /\ Qeq_bool thlb 0 = true /\ some_geZ 120 age = true
              /\ pct = None)).
Proof.
  unfold Gar8001.moderate.
  destruct (startswith spp "F"); cbn [ifE andE bind];
    [|split; [done | by intros [? _]]].
  destruct cc as [c|]; cbn [geZ cmpZ ifE andE bind some_geZ];
    [|split; [intros _; split; [done | by left] | done]].
  destruct (36 <=? c)%Z; cbn [ifE andE bind];
    [|split; [done | by intros [_ [?|(? & _)]]]].
  destruct (opt_is slp "80+"); cbn [negb ifE andE bind];
    [split; [done | by intros [_ [?|(_ & ? & _)]]]|].
  destruct (Qeq_bool thlb 0) eqn:E0.
  - rewrite (Qeq_not_lt_bool _ E0), moderate_nthlb_raises.
    split; [intros [? ?]; split; [done | right; done] |].
    by intros [_ [?|(_ & _ & _ & ? & ?)]].
  - destruct (Qlt_bool 0 thlb);
      split; try done; by intros [_ [?|(_ & _ & ? & _)]].
Qed.

Lemma idfmw_raises age spp cc slp thlb diam pct :
  Gar8001.idfmw age spp cc slp thlb diam pct = Raise TypeError
  <-> startswith spp "F" = true /\ opt_is slp "80+" = false
      /\ Qeq_bool thlb 0 = true
      /\ (truthyZ cc && some_geZ 36 cc)%bool = true /\ age = None.
Proof.
  unfold Gar8001.idfmw.
  destruct (startswith spp "F"); cbn [andb];
    [|split; [done | by intros [? _]]].
  destruct (opt_is slp "80+"); cbn [negb];
    [split; [done | by intros (_ & ? & _)]|].
  destruct (Qeq_bool thlb 0) eqn:E0.
  - rewrite (Qeq_not_lt_bool _ E0), idfmw_nthlb_raises. tauto.
  - destruct (Qlt_bool 0 thlb);
      [destruct (truthyZ cc && some_geZ 36 cc)%bool|];
      split; try done; by intros (_ & _ & ? & _).
Qed.

Lemma idfmw_TypeError age spp cc slp thlb diam pct e :
  Gar8001.idfmw age spp cc slp thlb diam pct = Raise e -> e = TypeError.
Proof.
  unfold Gar8001.idfmw.
  repeat match goal with
         | |- (if ?b then _ else _) = _ -> _ => destruct b
         end; try done.
  destruct age as [a|].
  - pose proof (idfmw_nthlb_ok a cc pct) as Hok. intros H.
    by rewrite H in Hok.
  - destruct (idfmw_nthlb_null_age cc pct) as [-> | ->]; congruence.
Qed.

Lemma moderate_TypeError age spp cc slp thlb diam pct e :
  Gar8001.moderate age spp cc slp thlb diam pct = Raise e -> e = TypeError.
Proof.
  unfold Gar8001.moderate, Gar8001.moderate_nthlb.
  destruct (startswith spp "F"), cc as [c|]; cbn [ifE andE bind geZ cmpZ];
    try congruence.
  destruct (36 <=? c)%Z; cbn [ifE andE bind]; [|done].
  destruct (negb (opt_is slp "80+")); cbn [ifE andE bind]; [|done].
  destruct (Qlt_bool 0 thlb); [done|].
  destruct (Qeq_bool thlb 0); [|done].
  destruct age as [a|]; [|done]. destruct (a =? 0)%Z; [done|].
  destruct (120 <=? a)%Z, pct as [p|]; cbn [ifE andE bind geZ cmpZ];
    try congruence.
  by destruct (50 <=? p)%Z.
Qed.

Lemma bind_Ok_raises {A B} (r : result A) (g : A -> B) e :
  bind r (fun x => Ok (g x)) = Raise e <-> r = Raise e.
Proof. destruct r; simpl; split; congruence. Qed.

(** X3. The decision table of GAR 8-001 fails in exactly three situations,
    all of them on a fir-leading stand outside the shallow zone, and always
    with a [TypeError] from comparing a null value: in IDFmw, a null age
    in the non-timber branch (slope not 80+, thlb 0, crown closure at least
    36); in IDFdk, IDFdm, ICHdw and MS, a null crown closure, or a null
    species percentage in the non-timber branch at an age of 120 or more. *)
Theorem classify_8001_raises bec age spp cc slp thlb diam pct :
  (Gar8001.classify bec age spp cc slp thlb diam pct = Raise TypeError
   <-> startswith_any bec ["BG"; "PP"; "IDFxh"] = false
       /\ startswith spp "F" = true
       /\ ((startswith bec "IDFmw" = true
            /\ opt_is slp "80+" = false /\ Qeq_bool thlb 0 = true
            /\ (truthyZ cc && some_geZ 36 cc)%bool = true /\ age = None)
           \/ (startswith bec "IDFmw" = false
               /\ startswith_any bec ["IDFdk"; "IDFdm"; "ICHdw"; "MS"] = true
               /\ (cc = None
                   \/ (some_geZ 36 cc = true /\ opt_is slp "80+" = false
                       /\ Qeq_bool thlb 0 = true
                       /\ some_geZ 120 age = true /\ pct = None)))))
  /\ (forall e,
        Gar8001.classify bec age spp cc slp thlb diam pct = Raise e ->
        e = TypeError).
Proof.
  unfold Gar8001.classify. split.
  - rewrite bind_Ok_raises.
    destruct (startswith_any bec ["BG"; "PP"; "IDFxh"]) eqn:Esh;
      destruct (startswith spp "F") eqn:Espp; cbn [andb].
    + split; [done | by intros [? _]].
    + destruct (startswith bec "IDFmw").
      { rewrite idfmw_raises, Espp. split; [by intros [? _] | by intros [? _]]. }
      destruct (startswith_any bec ["IDFdk"; "IDFdm"; "ICHdw"; "MS"]).
      { rewrite moderate_raises, Espp.
        split; [by intros [? _] | by intros [? _]]. }
      destruct (startswith bec "ICH" && negb (startswith bec "ICHdw"))%bool;
        split; try done; by intros [? _].
    + destruct (startswith bec "IDFmw").
      { rewrite idfmw_raises, Espp.
        split; [intros (_ & ? & ? & ? & ?); do 2 (split; [done|]); by left|].
        intros (_ & _ & [(_ & ? & ? & ? & ?) | (? & _)]); done. }
      destruct (startswith_any bec ["IDFdk"; "IDFdm"; "ICHdw"; "MS"]).
      { rewrite moderate_raises, Espp.
        split; [intros [_ ?]; do 2 (split; [done|]); by right|].
        intros (_ & _ & [(? & _) | (_ & _ & ?)]); done. }
      destruct (startswith bec "ICH" && negb (startswith bec "ICHdw"))%bool;
        split; try done;
        intros (_ & _ & [(? & _) | (_ & ? & _)]); done.
    + destruct (startswith bec "IDFmw").
      { rewrite idfmw_raises, Espp. split; [by intros [? _] |].
        by intros (_ & ? & _). }
      destruct (startswith_any bec ["IDFdk"; "IDFdm"; "ICHdw"; "MS"]).
      { rewrite moderate_raises, Espp. split; [by intros [? _] |].
        by intros (_ & ? & _). }
      destruct (startswith bec "ICH" && negb (startswith bec "ICHdw"))%bool;
        split; try done; by intros (_ & ? & _).
  - intros e. rewrite bind_Ok_raises.
    repeat match goal with
           | |- (if ?b then _ else _) = _ -> _ => destruct b
           end; try done.
    + apply idfmw_TypeError.
    + apply moderate_TypeError.
Qed.

Lemma classify_8001_raises_witness :
  Gar8001.classify "MSdm1" (Some 50%Z) "FD" None None 0 None None
  = Raise TypeError
  /\ forall e,
       Gar8001.classify "IDFmw1" None "FD" (Some 40%Z) None 0 None None
       = Raise e -> e = TypeError.
Proof.
  split.
  - apply (proj1 (classify_8001_raises "MSdm1" (Some 50%Z) "FD" None None 0
                    None None)).
    do 2 (split; [reflexivity|]). right.
    do 2 (split; [reflexivity|]). by left.
  - apply (proj2 (classify_8001_raises "IDFmw1" None "FD" (Some 40%Z) None 0
                    None None)).
Defined.

(** ** Sums of areas *)

Lemma sumQ_app l1 l2 : (sumQ (l1 ++ l2) == sumQ l1 + sumQ l2)%Q.
Proof.
  induction l1 as [|x l1 IH]; simpl; [lra|]. rewrite IH. lra.
Qed.

Lemma area_where_snoc sel rows row :
  (area_where sel (rows ++ [row])
   == area_where sel rows + (if sel row then row_shp_area row else 0))%Q.
Proof.
  unfold area_where. rewrite List.filter_app, map_app, sumQ_app.
  simpl. destruct (sel row); simpl; lra.
Qed.

Lemma run_snoc r rows row :
  run r (rows ++ [row]) = snd (call r row (run r rows)).
Proof. unfold run. by rewrite fold_left_app. Qed.

Lemma built_run r rows : built r (run r rows).
Proof.
  induction rows as [|row rows IH] using rev_ind; [apply built_empty|].
  rewrite run_snoc. apply built_record, IH.
Qed.

Lemma built_is_run r s : built r s -> exists rows, s = run r rows.
Proof.
  induction 1 as [|bec age spp cc slp thlb diam pct gfa notes op_area pcell
                    shp_area target height s _ [rows ->]]; [by exists []|].
  exists (rows ++ [mkRow bec age spp cc slp thlb diam pct gfa notes op_area
                     pcell shp_area target height])%list.
  by rewrite run_snoc.
Qed.

(** A quantity of the accumulator to which every call adds the area of the
    record when [sel] selects it, and nothing otherwise, is the total area
    of the selected records. *)
Lemma run_measure r (m : State -> Q) (sel : Row -> bool) :
  (m State0 == 0)%Q ->
  (forall row s,
      (m (snd (call r row s))
       == m s + (if sel row then row_shp_area row else 0))%Q) ->
  forall rows, (m (run r rows) == area_where sel rows)%Q.
Proof.
  intros H0 Hstep rows.
  induction rows as [|row rows IH] using rev_ind; [exact H0|].
  by rewrite run_snoc, Hstep, area_where_snoc, IH.
Qed.

(** ** Reading a cell after a mutation *)

Lemma dd_get_on_cell pcell g c p :
  dd_get CellArea0 (on_cell pcell g c) p
  = if String.eqb p pcell then g (dd_get CellArea0 c p)
    else dd_get CellArea0 c p.
Proof.
  unfold on_cell. destruct (String.eqb_spec p pcell) as [->|Hne].
  - apply dd_get_update_eq.
  - by apply dd_get_update_ne.
Qed.

Lemma dd_get_on_total op_area pcell f t o p :
  dd_get CellArea0 (total_pcell (dd_get TotalArea0 (on_total op_area pcell f t) o)) p
  = if (String.eqb o op_area && String.eqb p pcell)%bool
    then f (dd_get CellArea0 (total_pcell (dd_get TotalArea0 t o)) p)
    else dd_get CellArea0 (total_pcell (dd_get TotalArea0 t o)) p.
Proof.
  unfold on_total. destruct (String.eqb_spec o op_area) as [->|Hne].
  - rewrite dd_get_update_eq. cbn [total_pcell set_pcell andb].
    destruct (String.eqb_spec p pcell) as [->|Hne].
    + apply dd_get_update_eq.
    + by apply dd_get_update_ne.
  - by rewrite dd_get_update_ne.
Qed.

Lemma level_of_cell_add_level level x c l :
  level_of (cell_add_level level x c) l
  = if opt_is level l then add_level_hectares x (level_of c l)
    else level_of c l.
Proof.
  unfold level_of, cell_add_level. cbn [cell_level set_cell_level].
  destruct level as [l'|]; cbn [opt_is].
  - destruct (String.eqb_spec l' l) as [->|Hne].
    + apply dd_get_update_eq.
    + apply dd_get_update_ne. congruence.
  - by apply dd_get_update_ne.
Qed.

(** ** The accumulation of GAR 8-006 *)

Lemma label_8006_truthy row l : label_8006 row = Some l -> truthyS l = true.
Proof.
  unfold label_8006, Gar8006.classify.
  destruct (row_height row) as [h|], (row_cc row) as [c|]; try done.
  destruct (opt_is (row_gfa row) "Y" && truthyQ (Some h)
            && truthyZ (Some c))%bool; [|done].
  cbv zeta. destruct (Gar8006.imm_test _ _); [by intros [= <-]|].
  intros H%height_chain_range. simpl in H.
  repeat (destruct H as [<-|H]; [done|]). done.
Qed.

Lemma call_8006 row s :
  snd (call R8006 row s)
  = Gar8006.accumulate (label_8006 row) (row_op_area row) (row_pcell row)
      (row_shp_area row) (row_target row) s.
Proof. reflexivity. Qed.

Lemma alone_cell_8006 row s p :
  alone_cell (snd (call R8006 row s)) p
  = if String.eqb p (row_pcell row) then add_8006 row (alone_cell s p)
    else alone_cell s p.
Proof.
  rewrite call_8006. unfold alone_cell, Gar8006.accumulate, add_8006.
  cbn [dict_cell_area]. rewrite dd_get_on_cell.
  destruct (String.eqb p (row_pcell row)); [|done].
  by destruct (label_8006 row) as [l|].
Qed.

Lemma total_cell_8006 row s o p :
  total_cell (snd (call R8006 row s)) o p
  = if (String.eqb o (row_op_area row) && String.eqb p (row_pcell row))%bool
    then add_8006 row (total_cell s o p)
    else total_cell s o p.
Proof.
  rewrite call_8006. unfold total_cell, Gar8006.accumulate, add_8006.
  cbn [dict_total_area]. rewrite dd_get_on_total.
  destruct (String.eqb o (row_op_area row) && String.eqb p (row_pcell row))%bool;
    [|done].
  by destruct (label_8006 row) as [l|].
Qed.

Lemma add_8006_hectares row c :
  cell_hectares (add_8006 row c) = (cell_hectares c + row_shp_area row)%Q.
Proof. unfold add_8006. by destruct (truthyL (label_8006 row)). Qed.

Lemma add_8006_level row c l :
  (level_hectares (level_of (add_8006 row c) l)
   == level_hectares (level_of c l)
      + (if opt_is (label_8006 row) l then row_shp_area row else 0))%Q.
Proof.
  unfold add_8006.
  change (level_of (add_cell_hectares ?x ?c') l) with (level_of c' l).
  destruct (label_8006 row) as [l'|] eqn:E; cbn [truthyL opt_is]; [|lra].
  rewrite (label_8006_truthy _ _ E), level_of_cell_add_level. cbn [opt_is].
  destruct (String.eqb l' l); cbn [level_hectares add_level_hectares]; lra.
Qed.

(** X4. GAR 8-006 aggregates by grouping: after any sequence of records,
    the hectares of a cell are the total area of the records of that cell
    (of that operating area and cell, in the operating-area hierarchy), and
    the hectares of a level of the cell are the total area of those of them
    that were given that label. *)
Theorem accumulation_8006_sums rows op_area pcell l :
  let s := run R8006 rows in
  let in_cell row := String.eqb pcell (row_pcell row) in
  let in_area row :=
    (String.eqb op_area (row_op_area row) && in_cell row)%bool in
  let labelled row := opt_is (label_8006 row) l in
  (cell_hectares (alone_cell s pcell) == area_where in_cell rows)%Q
  /\ (cell_hectares (total_cell s op_area pcell) == area_where in_area rows)%Q
  /\ (level_hectares (level_of (alone_cell s pcell) l)
      == area_where (fun row => in_cell row && labelled row)%bool rows)%Q
  /\ (level_hectares (level_of (total_cell s op_area pcell) l)
      == area_where (fun row => in_area row && labelled row)%bool rows)%Q.
Proof.
  cbv zeta. repeat split.
  - apply (run_measure R8006 (fun s => cell_hectares (alone_cell s pcell)));
      [reflexivity|].
    intros row s. rewrite alone_cell_8006.
    destruct (String.eqb pcell (row_pcell row));
      [rewrite add_8006_hectares|]; lra.
  - apply (run_measure R8006
             (fun s => cell_hectares (total_cell s op_area pcell)));
      [reflexivity|].
    intros row s. rewrite total_cell_8006.
    destruct (String.eqb op_area (row_op_area row)
              && String.eqb pcell (row_pcell row))%bool;
      [rewrite add_8006_hectares|]; lra.
  - apply (run_measure R8006
             (fun s => level_hectares (level_of (alone_cell s pcell) l)));
      [reflexivity|].
    intros row s. rewrite alone_cell_8006.
    destruct (String.eqb pcell (row_pcell row)); cbn [andb];
      [apply add_8006_level | lra].
  - apply (run_measure R8006
             (fun s => level_hectares
                         (level_of (total_cell s op_area pcell) l)));
      [reflexivity|].
    intros row s. rewrite total_cell_8006.
    destruct (String.eqb op_area (row_op_area row)
              && String.eqb pcell (row_pcell row))%bool; cbn [andb];
      [apply add_8006_level | lra].
Qed.

(** ** The accumulation of GAR 8-001 *)

Lemma call_8001 row s :
  snd (call R8001 row s)
  = if is_ok (label_8001 row)
    then Gar8001.accumulate (level_8001 row) (remove_spaces (row_bec row))
           (row_op_area row) (row_pcell row) (row_shp_area row)
           (row_target row) s
    else s.
Proof.
  unfold call, calculate_level, Gar8001.calculate_level, level_8001,
    label_8001.
  cbv zeta. by destruct (Gar8001.classify _ _ _ _ _ _ _ _).
Qed.

Lemma alone_cell_8001 row s p :
  alone_cell (snd (call R8001 row s)) p
  = if (is_ok (label_8001 row) && String.eqb p (row_pcell row))%bool
    then add_8001_alone row (alone_cell s p)
    else alone_cell s p.
Proof.
  rewrite call_8001. destruct (is_ok (label_8001 row)); [|done].
  unfold alone_cell, Gar8001.accumulate, add_8001_alone.
  cbn [dict_cell_area andb]. by rewrite dd_get_on_cell.
Qed.

Lemma total_cell_8001 row s o p :
  total_cell (snd (call R8001 row s)) o p
  = if (is_ok (label_8001 row) && String.eqb o (row_op_area row)
        && String.eqb p (row_pcell row))%bool
    then add_8001_total row (total_cell s o p)
    else total_cell s o p.
Proof.
  rewrite call_8001. destruct (is_ok (label_8001 row)); [|done].
  unfold total_cell, Gar8001.accumulate, add_8001_total.
  cbn [dict_total_area andb]. by rewrite dd_get_on_total.
Qed.

Lemma bucket_hectares_add_bec level bec x c level' bec' :
  (bucket_hectares (cell_add_bec level bec x c) level' bec'
   == bucket_hectares c level' bec'
      + (if (bool_decide (level = level') && String.eqb bec bec')%bool
         then x else 0))%Q.
Proof.
  unfold bucket_hectares, cell_add_bec. cbn [cell_level set_cell_level].
  case_bool_decide as Hl; cbn [andb].
  - subst level'. rewrite dd_get_update_eq. cbn [level_bec set_level_bec].
    destruct (String.eqb_spec bec bec') as [->|Hne].
    + rewrite al_get_update_eq. cbn [bec_hectares add_bec_hectares]. lra.
    + rewrite al_get_update_ne by done. lra.
  - rewrite dd_get_update_ne by done. lra.
Qed.

Lemma add_8001_alone_hectares row c :
  cell_hectares (add_8001_alone row c)
  = (cell_hectares c + row_shp_area row)%Q.
Proof. reflexivity. Qed.

Lemma add_8001_total_hectares row c :
  cell_hectares (add_8001_total row c)
  = (cell_hectares c + row_shp_area row)%Q.
Proof. reflexivity. Qed.

Lemma label_is_level_8001 row level :
  is_ok (label_8001 row) = true ->
  label_is (label_8001 row) level = bool_decide (level_8001 row = level).
Proof. unfold label_is, level_8001. by destruct (label_8001 row). Qed.

(** X5. GAR 8-001 aggregates by grouping, over the records on which its
    decision table returns: the hectares of a cell are the total area of
    the records of the cell (of the operating area and cell), and the
    hectares of a bucket are the total area of those of them with the
    bucket's label (the unclassified label included) and, spaces removed,
    the bucket's bec. *)
Theorem accumulation_8001_sums rows op_area pcell level bec :
  let s := run R8001 rows in
  let in_cell row :=
    (is_ok (label_8001 row) && String.eqb pcell (row_pcell row))%bool in
  let in_area row :=
    (is_ok (label_8001 row) && String.eqb op_area (row_op_area row)
     && String.eqb pcell (row_pcell row))%bool in
  let in_bucket row :=
    (label_is (label_8001 row) level
     && String.eqb (remove_spaces (row_bec row)) bec)%bool in
  (cell_hectares (alone_cell s pcell) == area_where in_cell rows)%Q
  /\ (cell_hectares (total_cell s op_area pcell) == area_where in_area rows)%Q
  /\ (bucket_hectares (alone_cell s pcell) level bec
      == area_where (fun row => in_cell row && in_bucket row)%bool rows)%Q
  /\ (bucket_hectares (total_cell s op_area pcell) level bec
      == area_where (fun row => in_area row && in_bucket row)%bool rows)%Q.
Proof.
  cbv zeta. repeat split.
  - apply (run_measure R8001 (fun s => cell_hectares (alone_cell s pcell)));
      [reflexivity|].
    intros row s. rewrite alone_cell_8001.
    destruct (is_ok (label_8001 row) && String.eqb pcell (row_pcell row))%bool;
      [rewrite add_8001_alone_hectares|]; lra.
  - apply (run_measure R8001
             (fun s => cell_hectares (total_cell s op_area pcell)));
      [reflexivity|].
    intros row s. rewrite total_cell_8001.
    destruct (is_ok (label_8001 row) && String.eqb op_area (row_op_area row)
              && String.eqb pcell (row_pcell row))%bool;
      [rewrite add_8001_total_hectares|]; lra.
  - apply (run_measure R8001
             (fun s => bucket_hectares (alone_cell s pcell) level bec));
      [reflexivity|].
    intros row s. rewrite alone_cell_8001.
    destruct (is_ok (label_8001 row)) eqn:Eok; cbn [andb]; [|lra].
    destruct (String.eqb pcell (row_pcell row)); cbn [andb]; [|lra].
    rewrite (label_is_level_8001 _ _ Eok). unfold add_8001_alone.
    change (bucket_hectares (add_cell_hectares ?x (set_cell_target ?t ?c'))
              level bec)
      with (bucket_hectares c' level bec).
    apply bucket_hectares_add_bec.
  - apply (run_measure R8001
             (fun s => bucket_hectares (total_cell s op_area pcell) level bec));
      [reflexivity|].
    intros row s. rewrite total_cell_8001.
    destruct (is_ok (label_8001 row)) eqn:Eok; cbn [andb]; [|lra].
    destruct (String.eqb op_area (row_op_area row)
              && String.eqb pcell (row_pcell row))%bool; cbn [andb]; [|lra].
    rewrite (label_is_level_8001 _ _ Eok). unfold add_8001_total.
    change (bucket_hectares (add_cell_hectares ?x ?c') level bec)
      with (bucket_hectares c' level bec).
    apply bucket_hectares_add_bec.
Qed.

Lemma run_app r rows rows' :
  run r (rows ++ rows')
  = fold_left (fun s row => snd (call r row s)) rows' (run r rows).
Proof. unfold run. by rewrite fold_left_app. Qed.

Lemma cell_target_8001_kept pcell rows' s :
  forallb (fun row => negb (is_ok (label_8001 row)
                            && String.eqb pcell (row_pcell row))) rows'
  = true ->
  alone_cell (fold_left (fun s row => snd (call R8001 row s)) rows' s) pcell
  = alone_cell s pcell.
Proof.
  revert s. induction rows' as [|row rows' IH]; intros s; [done|].
  cbn [forallb fold_left]. intros [Hrow Hrest]%andb_prop.
  rewrite (IH _ Hrest), alone_cell_8001.
  by apply negb_true_iff in Hrow as ->.
Qed.

Lemma total_target_8001 rows op_area pcell :
  cell_target (total_cell (run R8001 rows) op_area pcell) = 0%Q.
Proof.
  induction rows as [|row rows IH] using rev_ind; [done|].
  rewrite run_snoc, total_cell_8001.
  by destruct (is_ok (label_8001 row) && String.eqb op_area (row_op_area row)
               && String.eqb pcell (row_pcell row))%bool.
Qed.

(** X6. In GAR 8-001 every record on which the decision table returns
    overwrites the target of its cell in the cell-alone hierarchy: after
    the loop the target of a cell is the target argument of the last such
    record of the cell.  The accumulation sets no target in the
    operating-area hierarchy. *)
Theorem cell_target_8001_is_last rows row rows' op_area pcell :
  (is_ok (label_8001 row) = true ->
   forallb (fun row' => negb (is_ok (label_8001 row')
                              && String.eqb (row_pcell row) (row_pcell row')))
     rows' = true ->
   cell_target (alone_cell (run R8001 (rows ++ row :: rows')) (row_pcell row))
   = row_target row)
  /\ cell_target (total_cell (run R8001 rows) op_area pcell) = 0%Q.
Proof.
  split; [|apply total_target_8001].
  intros Hok Hrest.
  change (rows ++ row :: rows')%list with (rows ++ [row] ++ rows')%list.
  rewrite app_assoc, run_app, (cell_target_8001_kept _ _ _ Hrest), run_snoc,
    alone_cell_8001, Hok, String.eqb_refl.
  reflexivity.
Qed.

Lemma cell_target_8001_is_last_witness :
  cell_target
    (alone_cell
       (run R8001
          ([mkRow "IDF dk 1" (Some 100%Z) "PL" (Some 50%Z) None None None None
              None "" "OA" "C1" 40 70 None]
           ++ mkRow "IDF dk 1" (Some 100%Z) "PL" (Some 50%Z) None None None
                None None "" "OB" "C1" 60 0 None
           :: [mkRow "MS dm 1" (Some 100%Z) "FD" None None None None None None
                 "" "OA" "C1" 5 90 None;
               mkRow "IDF dk 1" (Some 100%Z) "PL" (Some 50%Z) None None None
                 None None "" "OA" "C2" 5 80 None])) "C1")
  = 0%Q.
Proof.
  by apply (cell_target_8001_is_last
              [mkRow "IDF dk 1" (Some 100%Z) "PL" (Some 50%Z) None None None
                 None None "" "OA" "C1" 40 70 None]
              (mkRow "IDF dk 1" (Some 100%Z) "PL" (Some 50%Z) None None None
                 None None "" "OB" "C1" 60 0 None)
              [mkRow "MS dm 1" (Some 100%Z) "FD" None None None None None None
                 "" "OA" "C1" 5 90 None;
               mkRow "IDF dk 1" (Some 100%Z) "PL" (Some 50%Z) None None None
                 None None "" "OA" "C2" 5 80 None] "OA" "C1").
Defined.

(** ** The cells that a call leaves alone *)

Lemma dd_get_on_cell_ne pcell g c p :
  p <> pcell -> dd_get CellArea0 (on_cell pcell g c) p = dd_get CellArea0 c p.
Proof.
  intros Hne. rewrite dd_get_on_cell.
  by apply String.eqb_neq in Hne as ->.
Qed.

Lemma dd_get_on_total_ne op_area pcell f t o p :
  o <> op_area \/ p <> pcell ->
  dd_get CellArea0 (total_pcell (dd_get TotalArea0 (on_total op_area pcell f t) o)) p
  = dd_get CellArea0 (total_pcell (dd_get TotalArea0 t o)) p.
Proof.
  intros Hne. rewrite dd_get_on_total.
  destruct Hne as [Hne|Hne]; apply String.eqb_neq in Hne as ->;
    [done | by rewrite andb_false_r].
Qed.

(** Reads a cell that the mutations of the goal do not reach. *)
Ltac read_other_cell H :=
  unfold alone_cell, total_cell;
  cbn [dict_total_area dict_cell_area];
  rewrite ?(dd_get_on_cell_ne _ _ _ _ H), ?(dd_get_on_total_ne _ _ _ _ _ _ H);
  try reflexivity.

Lemma call_other_alone r row s p :
  p <> cell_key r row -> alone_cell (snd (call r row s)) p = alone_cell s p.
Proof.
  intros Hne. destruct r; unfold call, calculate_level; cbn [cell_key] in Hne.
  - unfold Gar8001.calculate_level. cbv zeta.
    destruct (Gar8001.classify _ _ _ _ _ _ _ _); [|done].
    cbn [snd]. unfold Gar8001.accumulate. read_other_cell Hne.
  - unfold Gar8006.calculate_level, Gar8006.accumulate. cbv zeta.
    cbn [snd]. read_other_cell Hne.
  - unfold Gar8012.calculate_level, Gar8012.accumulate. cbv zeta. cbn [snd].
    destruct (Gar8012.not_no_harv _ && startswith_any _ _)%bool,
      (truthyL _ && Gar8012.not_no_harv _)%bool; read_other_cell Hne.
  - unfold Gar4010.calculate_level, Gar4010.accumulate. cbv zeta.
    cbn [snd]. read_other_cell Hne.
  - unfold Gar4001.calculate_level. cbv zeta.
    destruct (opt_is (row_gfa row) "Y"); [|done].
    destruct (dict_getitem Gar4001.dict_levels (row_notes row)),
      (truthyL (Gar4001.classify _ _ _)); cbn [snd]; read_other_cell Hne.
Qed.

Lemma call_other_total r row s o p :
  o <> row_op_area row \/ p <> cell_key r row ->
  total_cell (snd (call r row s)) o p = total_cell s o p.
Proof.
  intros Hne. destruct r; unfold call, calculate_level; cbn [cell_key] in Hne.
  - unfold Gar8001.calculate_level. cbv zeta.
    destruct (Gar8001.classify _ _ _ _ _ _ _ _); [|done].
    cbn [snd]. unfold Gar8001.accumulate. read_other_cell Hne.
  - unfold Gar8006.calculate_level, Gar8006.accumulate. cbv zeta.
    cbn [snd]. read_other_cell Hne.
  - unfold Gar8012.calculate_level, Gar8012.accumulate. cbv zeta. cbn [snd].
    destruct (Gar8012.not_no_harv _ && startswith_any _ _)%bool,
      (truthyL _ && Gar8012.not_no_harv _)%bool; read_other_cell Hne.
  - unfold Gar4010.calculate_level, Gar4010.accumulate. cbv zeta.
    cbn [snd]. read_other_cell Hne.
  - unfold Gar4001.calculate_level. cbv zeta.
    destruct (opt_is (row_gfa row) "Y"); [|done].
    destruct (dict_getitem Gar4001.dict_levels (row_notes row)),
      (truthyL (Gar4001.classify _ _ _)); cbn [snd]; read_other_cell Hne.
Qed.

(** X7. The cells are independent: a call of [calculate_level] changes
    nothing in any cell other than the record's own (its feature note in
    GAR 4-010), in either hierarchy, and nothing in the cells of the other
    operating areas; a cell that no record of the loop names is still the
    empty cell. *)
Theorem call_leaves_other_cells r :
  (forall row s p,
      p <> cell_key r row ->
      alone_cell (snd (call r row s)) p = alone_cell s p)
  /\ (forall row s o p,
        o <> row_op_area row \/ p <> cell_key r row ->
        total_cell (snd (call r row s)) o p = total_cell s o p)
  /\ (forall rows p,
        Forall (fun row => cell_key r row <> p) rows ->
        alone_cell (run r rows) p = CellArea0
        /\ forall o, total_cell (run r rows) o p = CellArea0).
Proof.
  split; [|split].
  - intros row s p. apply call_other_alone.
  - intros row s o p. apply call_other_total.
  - intros rows p Hrows.
    induction rows as [|row rows IH] using rev_ind; [done|].
    apply Forall_app in Hrows as [Hrows Hrow].
    apply Forall_cons in Hrow as [Hrow _].
    destruct (IH Hrows) as [IHa IHt]. rewrite run_snoc. split.
    + by rewrite call_other_alone.
    + intros o. rewrite call_other_total; [apply IHt | by right].
Qed.

Lemma call_leaves_other_cells_witness :
  alone_cell
    (run R4010
       [mkRow "ESSF wc 1" (Some 150%Z) "SE" None None None None None
          (Some "Y") "Caribou Management Zone 5" "OA" "C1" 12 0 None]) "C1"
  = CellArea0.
Proof.
  apply (proj2 (proj2 (call_leaves_other_cells R4010))).
  by repeat constructor.
Defined.

(** ** Invariants of the cells *)

Lemma all_cells_0 (P : CellArea -> Prop) : P CellArea0 -> all_cells P State0.
Proof. intros H0. by split. Qed.

Lemma all_cells_on_cell (P : CellArea -> Prop) g pcell t c z l :
  (forall c, P c -> P (g c)) ->
  all_cells P (mkState t c z l) ->
  all_cells P (mkState t (on_cell pcell g c) z l).
Proof.
  intros Hg [Ha Ht]. split; [|exact Ht].
  intros p. specialize (Ha p). unfold alone_cell in *.
  cbn [dict_cell_area] in *. rewrite dd_get_on_cell.
  destruct (String.eqb p pcell); auto.
Qed.

Lemma all_cells_on_total (P : CellArea -> Prop) f op_area pcell t c z l :
  (forall c, P c -> P (f c)) ->
  all_cells P (mkState t c z l) ->
  all_cells P (mkState (on_total op_area pcell f t) c z l).
Proof.
  intros Hf [Ha Ht]. split; [exact Ha|].
  intros o p. specialize (Ht o p). unfold total_cell in *.
  cbn [dict_total_area] in *. rewrite dd_get_on_total.
  destruct (String.eqb o op_area && String.eqb p pcell)%bool; auto.
Qed.

Lemma all_cells_eta (P : CellArea -> Prop) s z l :
  all_cells P s ->
  all_cells P (mkState (dict_total_area s) (dict_cell_area s) z l).
Proof. by destruct s. Qed.

(** An invariant of the cells that every call keeps holds after the
    loop. *)
Lemma run_all_cells r (P : CellArea -> Prop) (ok : Row -> Prop) :
  P CellArea0 ->
  (forall row s, ok row -> all_cells P s -> all_cells P (snd (call r row s))) ->
  forall rows, Forall ok rows -> all_cells P (run r rows).
Proof.
  intros H0 Hstep rows Hrows.
  induction rows as [|row rows IH] using rev_ind; [by apply all_cells_0|].
  apply Forall_app in Hrows as [Hrows Hrow].
  apply Forall_cons in Hrow as [Hrow _].
  rewrite run_snoc. by apply Hstep, IH.
Qed.

(** Reduces an invariant of the state after a call to the invariant of each
    mutation of a cell. *)
Ltac keeps_all_cells IH :=
  cbn [dict_total_area dict_cell_area dict_zero_target lst_cells];
  repeat match goal with
         | |- all_cells _ (mkState (on_total _ _ _ _) _ _ _) =>
             apply all_cells_on_total
         | |- all_cells _ (mkState _ (on_cell _ _ _) _ _) =>
             apply all_cells_on_cell
         | |- all_cells _ (mkState (dict_total_area _) (dict_cell_area _) _ _)
           => apply all_cells_eta; exact IH
         | |- all_cells _ _ => exact IH
         end.

(** ** GAR 4-010: the mature hectares *)




(** ** GAR 4-001: the total hectares of the habitats *)

Lemma level_of_cell_add_level_total level x c l :
  level_of (cell_add_level_total level x c) l
  = if opt_is level l then add_level_total_hectares x (level_of c l)
    else level_of c l.
Proof.
  unfold level_of, cell_add_level_total. cbn [cell_level set_cell_level].
  destruct level as [l'|]; cbn [opt_is].
  - destruct (String.eqb_spec l' l) as [->|Hne].
    + apply dd_get_update_eq.
    + apply dd_get_update_ne. congruence.
  - by apply dd_get_update_ne.
Qed.





(** ** GAR 8-006: classified and unclassified area *)


Lemma sumQ_map_plus {A} (f g : A -> Q) ls :
  (sumQ (map (fun a => f a + g a) ls) == sumQ (map f ls) + sumQ (map g ls))%Q.
Proof.
  induction ls as [|a ls IH]; cbn [map sumQ fold_right]; [lra|].
  fold (sumQ (map (fun a => (f a + g a)%Q) ls)) (sumQ (map f ls))
    (sumQ (map g ls)).
  rewrite IH. lra.
Qed.

Lemma sumQ_map_ext {A} (f g : A -> Q) ls :
  (forall a, f a == g a)%Q -> (sumQ (map f ls) == sumQ (map g ls))%Q.
Proof.
  intros H. induction ls as [|a ls IH]; cbn [map sumQ fold_right]; [lra|].
  fold (sumQ (map f ls)) (sumQ (map g ls)). rewrite IH, H. lra.
Qed.




(** ** GAR 8-012: the suitable cover *)

Lemma dd_update_dd_update {K} `{Countable K} {V} (d : V) f1 f2 k
    (m : gmap K V) :
  dd_update d f2 k (dd_update d f1 k m) = dd_update d (fun x => f2 (f1 x)) k m.
Proof.
  unfold dd_update at 1. rewrite dd_get_update_eq.
  unfold dd_update. by rewrite insert_insert_eq.
Qed.

Lemma on_cell_on_cell pcell g1 g2 c :
  on_cell pcell g2 (on_cell pcell g1 c)
  = on_cell pcell (fun x => g2 (g1 x)) c.
Proof.
  apply dd_update_dd_update.
Qed.

Lemma on_total_on_total op_area pcell f1 f2 t :
  on_total op_area pcell f2 (on_total op_area pcell f1 t)
  = on_total op_area pcell (fun x => f2 (f1 x)) t.
Proof.
  unfold on_total. rewrite dd_update_dd_update.
  unfold dd_update at 1. symmetry. unfold dd_update at 1. symmetry.
  f_equal. unfold set_pcell. cbn [total_pcell]. f_equal.
  apply dd_update_dd_update.
Qed.

Lemma classify_8012_cases bec age :
  (Gar8012.classify bec age = Some Gar8012.str_suitable
   /\ startswith_any bec ["ESSF"; "ICH"] = true
   /\ startswith bec "ESSFwcp" = false)
  \/ Gar8012.classify bec age = Some Gar8012.str_no_harv
  \/ Gar8012.classify bec age = None.
Proof.
  unfold Gar8012.classify.
  destruct (startswith bec "ESSFwcp"); [right; by left|].
  destruct (truthyZ age), (startswith_any bec ["ESSF"; "ICH"]),
    (some_geZ 141 age); cbn [andb]; auto.
Qed.

Lemma suitable_within_step bec age x c :
  (0 <= x)%Q ->
  suitable_within c ->
  let level := Gar8012.classify bec age in
  let c1 := if (truthyL level && Gar8012.not_no_harv level)%bool
            then cell_add_level level x c else c in
  suitable_within
    (if (Gar8012.not_no_harv level && startswith_any bec ["ESSF"; "ICH"])%bool
     then add_cell_hectares x c1 else c1).
Proof.
  intros Hx (Hn & H0 & Hle). cbv zeta. unfold suitable_within.
  destruct (classify_8012_cases bec age) as [(-> & -> & _) | [-> | ->]].
  - change (Gar8012.not_no_harv (Some Gar8012.str_suitable)) with true.
    change (truthyL (Some Gar8012.str_suitable)) with true. cbn [andb].
    change (level_of (add_cell_hectares x ?c') ?l) with (level_of c' l).
    change (cell_hectares (add_cell_hectares x ?c')) with (cell_hectares c' + x)%Q.
    rewrite !level_of_cell_add_level.
    change (opt_is (Some Gar8012.str_suitable) Gar8012.str_no_harv)
      with false.
    change (opt_is (Some Gar8012.str_suitable) Gar8012.str_suitable)
      with true.
    cbn [level_hectares add_level_hectares].
    change (cell_hectares (cell_add_level ?lv x c)) with (cell_hectares c).
    repeat split; [done | lra | lra].
  - change (Gar8012.not_no_harv (Some Gar8012.str_no_harv)) with false.
    by rewrite andb_false_r.
  - change (Gar8012.not_no_harv None) with true.
    change (truthyL None) with false. cbn [andb].
    destruct (startswith_any bec ["ESSF"; "ICH"]); [|done].
    change (level_of (add_cell_hectares x c) ?l) with (level_of c l).
    change (cell_hectares (add_cell_hectares x c)) with (cell_hectares c + x)%Q.
    repeat split; [done | done | lra].
Qed.

(** X11. In GAR 8-012, whatever non-negative areas the records have, no
    cell ever holds anything in the level "No Harvest", and the hectares
    of "Suitable Cover" lie between zero and the hectares of the cell, in
    both hierarchies. *)
Theorem suitable_cover_8012 rows op_area pcell :
  Forall (fun row => (0 <= row_shp_area row)%Q) rows ->
  suitable_within (alone_cell (run R8012 rows) pcell)
  /\ suitable_within (total_cell (run R8012 rows) op_area pcell).
Proof.
  intros Hrows.
  assert (H : all_cells suitable_within (run R8012 rows)).
  { apply (run_all_cells R8012 suitable_within
             (fun row => (0 <= row_shp_area row)%Q));
      [by repeat split | | exact Hrows].
    intros row s Hx IH.
    unfold call, calculate_level, Gar8012.calculate_level,
      Gar8012.accumulate.
    cbv zeta. cbn [snd].
    pose proof (fun c => suitable_within_step (remove_spaces (row_bec row))
                           (row_age row) (row_shp_area row) c Hx) as Hs.
    cbv zeta in Hs.
    destruct (Gar8012.not_no_harv _ && startswith_any _ _)%bool,
      (truthyL _ && Gar8012.not_no_harv _)%bool;
      cbn [dict_total_area dict_cell_area dict_zero_target lst_cells];
      rewrite ?on_cell_on_cell, ?on_total_on_total;
      keeps_all_cells IH; exact Hs. }
  destruct H as [Ha Ht]. split; [apply Ha | apply Ht].
Qed.

Lemma suitable_cover_8012_witness :
  suitable_within
    (alone_cell
       (run R8012
          [mkRow "ESSF wc 1" (Some 150%Z) "SE" None None None None None None
             "" "OA" "C1" 12 0 None;
           mkRow "ESSF wcp" (Some 150%Z) "SE" None None None None None None
             "" "OA" "C1" 7 0 None]) "C1").
Proof.
  apply (suitable_cover_8012 _ "OA" "C1").
  repeat constructor; simpl; lra.
Defined.

(** ** The registries [lst_cells] and [dict_zero_target] *)

Lemma call_registries r row s :
  lst_cells (snd (call r row s))
  = (if registers r row
     then register_cell (cell_key r row) (lst_cells s) else lst_cells s)
  /\ dict_zero_target (snd (call r row s))
     = (if registers r row
        then register_zero_target (row_op_area row) (cell_key r row)
               (row_target row) (dict_zero_target s)
        else dict_zero_target s).
Proof.
  destruct r; unfold call, calculate_level, registers, cell_key.
  - unfold Gar8001.calculate_level, label_8001. cbv zeta.
    by destruct (Gar8001.classify _ _ _ _ _ _ _ _).
  - done.
  - unfold Gar8012.calculate_level, Gar8012.accumulate. cbv zeta. cbn [snd].
    by destruct (Gar8012.not_no_harv _ && startswith_any _ _)%bool,
      (truthyL _ && Gar8012.not_no_harv _)%bool.
  - done.
  - unfold Gar4001.calculate_level. cbv zeta.
    destruct (opt_is (row_gfa row) "Y"); [|done].
    by destruct (dict_getitem Gar4001.dict_levels (row_notes row)),
      (truthyL (Gar4001.classify _ _ _)).
Qed.

Lemma register_cell_In c l p :
  In p (register_cell c l) <-> p = c \/ In p l.
Proof.
  unfold register_cell. destruct (existsb (String.eqb c) l) eqn:E.
  - split; [by right | intros [->|H]; [|done]].
    apply existsb_exists in E as (c' & Hin & ->%String.eqb_eq). done.
  - rewrite in_app_iff. simpl. intuition congruence.
Qed.

Lemma register_cell_NoDup c l : NoDup l -> NoDup (register_cell c l).
Proof.
  intros Hl. unfold register_cell.
  destruct (existsb (String.eqb c) l) eqn:E; [done|].
  apply NoDup_app. split; [done|]. split; [|apply NoDup_singleton].
  intros x Hx ->%list_elem_of_singleton.
  apply not_true_iff_false in E. apply E, existsb_exists.
  exists c. split; [by apply list_elem_of_In | apply String.eqb_refl].
Qed.

Lemma register_zero_target_elem op_area c target z o p :
  p ∈ dd_get (∅ : gset string) (register_zero_target op_area c target z) o
  <-> (o = op_area /\ op_area <> "" /\ (target == 0)%Q /\ p = c)
      \/ p ∈ dd_get (∅ : gset string) z o.
Proof.
  unfold register_zero_target.
  destruct (truthyS op_area) eqn:Eop; cbn [andb].
  - destruct (Qeq_bool target 0) eqn:Et.
    + apply Qeq_bool_iff in Et.
      destruct (decide (o = op_area)) as [->|Hne].
      * rewrite dd_get_update_eq. rewrite elem_of_union, elem_of_singleton.
        split; [intros [->|?]; [left|by right] | intros [(_ & _ & _ & ->)|?]];
          auto.
        repeat split; try done. by intros ->.
      * rewrite dd_get_update_ne by done.
        split; [by right | by intros [(? & _)|?]].
    + split; [by right | intros [(_ & _ & Ht & _)|?]; [|done]].
      apply Qeq_bool_iff in Ht. congruence.
  - split; [by right | intros [(_ & Hop & _)|?]; [|done]].
    by destruct op_area.
Qed.

(** X12. The two registries of a regulation object.  After any sequence
    of records [lst_cells] has no duplicates and lists exactly the cells of
    the records whose call reached the registration; a cell is in
    [dict_zero_target] of an operating area exactly when such a record of
    that cell had that operating area, not the empty one, and the target
    argument zero. *)
Theorem registries_list_the_cells r rows :
  NoDup (lst_cells (run r rows))
  /\ (forall p,
        In p (lst_cells (run r rows))
        <-> Exists (fun row => registers r row = true /\ cell_key r row = p)
              rows)
  /\ (forall o p,
        p ∈ dd_get (∅ : gset string) (dict_zero_target (run r rows)) o
        <-> Exists (fun row => registers r row = true
                               /\ row_op_area row = o /\ o <> ""
                               /\ (row_target row == 0)%Q
                               /\ cell_key r row = p) rows).
Proof.
  induction rows as [|row rows (IHn & IHc & IHz)] using rev_ind.
  - split; [apply NoDup_nil_2|].
    split; [intros p | intros o p]; rewrite Exists_nil; [done|].
    unfold run, dd_get. cbn. rewrite lookup_empty. cbn. set_solver.
  - rewrite run_snoc. destruct (call_registries r row (run r rows)) as [-> ->].
    split; [|split].
    + destruct (registers r row); [by apply register_cell_NoDup | done].
    + intros p. rewrite Exists_app, Exists_cons, Exists_nil, <- IHc.
      destruct (registers r row); [rewrite register_cell_In|];
        intuition congruence.
    + intros o p. rewrite Exists_app, Exists_cons, Exists_nil, <- IHz.
      destruct (registers r row); [rewrite register_zero_target_elem|];
        intuition (subst; try congruence).
Qed.

(** ** Sums over a dictionary *)


Section MapSum.
Context {K : Type} `{Countable K} {V : Type}.
Implicit Types (g : V -> Q) (m : gmap K V).








End MapSum.

(** ** The two hierarchies reconcile *)








(** ** The targets of the operating areas add up *)


Lemma dd_get_fmap (F : CellArea -> CellArea) (m : gmap string CellArea) p :
  dd_get CellArea0 (F <$> m) p
  = match m !! p with Some c => F c | None => CellArea0 end.
Proof. unfold dd_get. rewrite lookup_fmap. by destruct (m !! p). Qed.


Lemma dd_get_lookup {V} (d : V) (m : gmap string V) p :
  dd_get d m p = match m !! p with Some c => c | None => d end.
Proof. unfold dd_get. by destruct (m !! p). Qed.





Lemma targeted_two_areas_ok :
  Gar8001.calculate_targets (run R8001 rows_two_areas)
  = Ok targeted_two_areas.
Proof.
  unfold targeted_two_areas.
  assert (H : is_ok (Gar8001.calculate_targets (run R8001 rows_two_areas))
              = true) by (vm_compute; reflexivity).
  by destruct (Gar8001.calculate_targets (run R8001 rows_two_areas)).
Qed.


(** ** When [calculate_targets] of GAR 8-001 divides by zero *)








(** ** The no-harvest hectares stay within the target *)

Lemma rank_for_cases rt target :
  (rank_for rt target = NH /\ (rt <= target)%Q)
  \/ (rank_for rt target = CH /\ (target < rt)%Q).
Proof.
  unfold rank_for. destruct (Qle_bool rt target) eqn:E.
  - left. split; [done|]. by apply Qle_bool_iff.
  - right. split; [done|]. apply Qnot_le_lt. intros H.
    apply Qle_bool_iff in H. congruence.
Qed.

Lemma level_step_nh_within target nh0 w l :
  (0 <= area8006 w l)%Q ->
  nh_within target nh0 w ->
  nh_within target nh0 (Gar8006.level_step target w l).
Proof.
  intros Ha (Ht & Hrt & Hn). unfold Gar8006.level_step, area8006 in *.
  cbn [walk_cell set_walk_cell rank running_total].
  rewrite level_of_touch.
  destruct (Qeq_bool _ 0); [done|].
  destruct (is_CH (rank w)) eqn:Ech; [done|].
  assert (Hnch : rank w <> Some CH) by (by destruct (rank w) as [[]|]).
  specialize (Hn Hnch). unfold nh_within.
  cbn [walk_cell rank running_total].
  set (a := level_hectares (level_of (walk_cell w) l)) in *.
  destruct (rank_for_cases (running_total w + a) target)
    as [[-> Hle] | [-> Hgt]];
    destruct (existsb _ _); cbn [nh_hectares add_nh_hectares add_ch_hectares
                                   on_level set_cell_level touch_level];
    repeat split; try done; try lra.
Qed.

Lemma rank_cell_8006_nh_within c :
  (forall l, (0 <= level_hectares (level_of c l))%Q) ->
  (0 <= cell_target c)%Q ->
  (nh_hectares (Gar8006.rank_cell c) <= nh_hectares c + cell_target c)%Q.
Proof.
  intros Hpos Ht. unfold Gar8006.rank_cell, Gar8006.walk_cell_ranks.
  set (target := cell_target c) in *.
  assert (H : forall ls w,
             (forall l, (0 <= area8006 w l)%Q) ->
             nh_within target (nh_hectares c) w ->
             nh_within target (nh_hectares c)
               (fold_left (Gar8006.level_step target) ls w)).
  { induction ls as [|l ls IH]; intros w Ha Hw; [done|].
    cbn [fold_left]. apply IH; [|by apply level_step_nh_within].
    intros l'. unfold area8006. rewrite level_step_hectares. apply Ha. }
  assert (Hinit : nh_within target (nh_hectares c) (mkWalk c 0 None)).
  { repeat split; cbn [walk_cell running_total]; intros; lra. }
  by destruct (H Gar8006.lst_level (mkWalk c 0 None) Hpos Hinit) as [? _].
Qed.

Lemma rank_bucket_nh_within target nh0 l b a w :
  (0 <= a)%Q ->
  nh_within target nh0 w ->
  nh_within target nh0 (Gar8001.rank_bucket target l b a w).
Proof.
  intros Ha (Ht & Hrt & Hn). unfold Gar8001.rank_bucket.
  destruct (is_CH (rank w)) eqn:Ech; [done|].
  assert (Hnch : rank w <> Some CH) by (by destruct (rank w) as [[]|]).
  specialize (Hn Hnch). unfold nh_within.
  cbn [set_walk_cell walk_cell rank running_total].
  destruct (rank_for_cases (running_total w + a) target)
    as [[-> Hle] | [-> Hgt]];
    destruct (existsb _ _); cbn [nh_hectares add_nh_hectares add_ch_hectares
                                   on_level on_bucket set_cell_level];
    repeat split; try done; try lra.
Qed.

Lemma counted_area_nonneg target l c b :
  (0 <= target)%Q ->
  (0 <= bec_hectares (bucket c l b))%Q ->
  (0 <= counted_area target l c b)%Q.
Proof.
  intros Ht Hb. unfold counted_area.
  destruct (String.eqb l Gar8001.str_nthlb_sic && _)%bool; lra.
Qed.

Lemma bec_step_nh_within target nh0 l w b :
  (0 <= target)%Q ->
  (0 <= bec_hectares (bucket (walk_cell w) l b))%Q ->
  nh_within target nh0 w ->
  nh_within target nh0 (Gar8001.bec_step target l w b).
Proof.
  intros Ht Hb Hw.
  pose proof (counted_area_nonneg target l (walk_cell w) b Ht Hb) as Ha.
  revert Ha. bec_step_cases; intros Ha;
    autorewrite with cell; cbn [bec_hectares set_bec_hectares];
    try (apply rank_bucket_nh_within; [lra|]); exact Hw.
Qed.

Lemma bec_step_nonneg target l w b :
  (0 <= target)%Q ->
  (forall l' b', (0 <= bec_hectares (bucket (walk_cell w) l' b'))%Q) ->
  forall l' b',
    (0 <= bec_hectares
            (bucket (walk_cell (Gar8001.bec_step target l w b)) l' b'))%Q.
Proof.
  intros Ht Hpos l' b'.
  destruct (decide (l = l' /\ b = b')) as [[<- <-]|Hne].
  - rewrite bec_step_hectares_self. by apply counted_area_nonneg.
  - rewrite bec_step_other; [apply Hpos|].
    destruct (decide (l = l')); [right|left]; naive_solver.
Qed.

Lemma rank_cell_8001_nh_within c :
  (forall l b, (0 <= bec_hectares (bucket c l b))%Q) ->
  (0 <= cell_target c)%Q ->
  (nh_hectares (Gar8001.rank_cell c) <= nh_hectares c + cell_target c)%Q.
Proof.
  intros Hpos Ht. unfold Gar8001.rank_cell, Gar8001.walk_cell_ranks.
  set (target := cell_target c) in *.
  set (good w := (forall l b, (0 <= bec_hectares (bucket (walk_cell w) l b))%Q)
                 /\ nh_within target (nh_hectares c) w).
  assert (Hbecs : forall l ks w,
             good w -> good (Gar8001.walk_becs target l ks w)).
  { intros l. induction ks as [|k ks IH]; intros w [Hb Hw]; [done|].
    apply IH. split; [by apply bec_step_nonneg|].
    by apply bec_step_nh_within. }
  assert (Hlevels : forall ls w,
             good w -> good (Gar8001.walk_levels target ls w)).
  { induction ls as [|l ls IH]; intros w [Hb Hw]; [done|].
    apply IH. rewrite walk_level_unfold. apply Hbecs. split; [|exact Hw].
    intros l' b'. cbn [set_walk_cell walk_cell]. autorewrite with cell.
    apply Hb. }
  assert (Hinit : good (mkWalk c 0 None)).
  { split; [exact Hpos|].
    repeat split; cbn [walk_cell running_total]; intros; lra. }
  by destruct (Hlevels (Gar8001.lst_level ++ [Gar8001.str_imm])%list
                 (mkWalk c 0 None) Hinit) as (_ & ? & _).
Qed.

Lemma all_cells_cell_of P s c : all_cells P s -> cell_of s c -> P c.
Proof. intros [Ha Ht] [[p ->] | (o & p & ->)]; [apply Ha | apply Ht]. Qed.

Lemma nonneg_cell_0 : nonneg_cell CellArea0.
Proof.
  repeat split; try done; intros; by cbn.
Qed.

Lemma nonneg_cell_add_level level x c :
  (0 <= x)%Q -> nonneg_cell c -> nonneg_cell (cell_add_level level x c).
Proof.
  intros Hx (Hn & Ht & Hh & Hl & Hb). repeat split; try done.
  - intros l. rewrite level_of_cell_add_level.
    destruct (opt_is level l); [|apply Hl].
    cbn [level_hectares add_level_hectares]. specialize (Hl l). lra.
  - intros l b. unfold bucket.
    change (level_bec (dd_get Level0 (cell_level (cell_add_level level x c))
                         (Some l)))
      with (level_bec (level_of (cell_add_level level x c) l)).
    rewrite level_of_cell_add_level.
    destruct (opt_is level l); [|apply Hb]. apply Hb.
Qed.

Lemma nonneg_cell_add_bec level bec x c :
  (0 <= x)%Q -> nonneg_cell c -> nonneg_cell (cell_add_bec level bec x c).
Proof.
  intros Hx (Hn & Ht & Hh & Hl & Hb). repeat split; try done.
  - intros l. unfold level_of, cell_add_bec. cbn [cell_level set_cell_level].
    destruct (decide (level = Some l)) as [->|Hne].
    + rewrite dd_get_update_eq. apply Hl.
    + rewrite dd_get_update_ne by done. apply Hl.
  - intros l b.
    pose proof (bucket_hectares_add_bec level bec x c (Some l) b) as H.
    unfold bucket_hectares in H. unfold bucket. rewrite H.
    specialize (Hb l b). unfold bucket in Hb.
    destruct (bool_decide (level = Some l) && String.eqb bec b)%bool; lra.
Qed.

Lemma nonneg_cell_add_hectares x c :
  (0 <= x)%Q -> nonneg_cell c -> nonneg_cell (add_cell_hectares x c).
Proof.
  intros Hx (Hn & Ht & Hh & Hl & Hb). repeat split; try done.
  cbn [cell_hectares add_cell_hectares]. lra.
Qed.

Lemma nonneg_cell_set_target t c :
  (0 <= t)%Q -> nonneg_cell c -> nonneg_cell (set_cell_target t c).
Proof. intros Hx (Hn & Ht & Hh & Hl & Hb). by repeat split. Qed.

Lemma nonneg_run_8006 rows :
  Forall (fun row => (0 <= row_shp_area row)%Q) rows ->
  all_cells nonneg_cell (run R8006 rows).
Proof.
  apply (run_all_cells R8006 nonneg_cell); [apply nonneg_cell_0|].
  intros row s Hx IH.
  unfold call, calculate_level, Gar8006.calculate_level, Gar8006.accumulate.
  cbv zeta. cbn [snd].
  keeps_all_cells IH; intros c Hc; apply nonneg_cell_add_hectares; try done;
    destruct (Gar8006.classify _ _ _ _ _) as [l0|]; try done;
    destruct (truthyS l0); try done; by apply nonneg_cell_add_level.
Qed.

Lemma nonneg_run_8001 rows :
  Forall (fun row => (0 <= row_shp_area row)%Q /\ (0 <= row_target row)%Q)
    rows ->
  all_cells nonneg_cell (run R8001 rows).
Proof.
  apply (run_all_cells R8001 nonneg_cell); [apply nonneg_cell_0|].
  intros row s [Hx Ht] IH.
  unfold call, calculate_level, Gar8001.calculate_level. cbv zeta.
  destruct (Gar8001.classify _ _ _ _ _ _ _ _); [|done].
  cbn [snd]. unfold Gar8001.accumulate.
  keeps_all_cells IH; intros c Hc;
    auto using nonneg_cell_add_hectares, nonneg_cell_set_target,
      nonneg_cell_add_bec.
Qed.

Lemma cells_of_targets_8006 s c' :
  cell_of (Gar8006.calculate_targets s) c' ->
  c' = CellArea0
  \/ exists c, cell_of s c
               /\ c' = Gar8006.rank_cell (Gar8006.target_cell c).
Proof.
  unfold Gar8006.calculate_targets, Gar8006.set_targets,
    Gar8006.calculate_ranks, Gar8006.calculate_cell_ranks.
  intros [[p ->] | (o & p & ->)].
  - unfold alone_cell. cbn [dict_cell_area].
    rewrite dd_get_fmap, lookup_fmap.
    destruct (dict_cell_area s !! p) as [c|] eqn:E;
      cbn [fmap option_fmap option_map]; [right | by left].
    exists c. split; [|done]. left. exists p.
    unfold alone_cell. by rewrite dd_get_lookup, E.
  - unfold total_cell. cbn [dict_total_area].
    rewrite (dd_get_lookup TotalArea0), !lookup_fmap.
    destruct (dict_total_area s !! o) as [ta|] eqn:Eo;
      cbn [fmap option_fmap option_map total_pcell set_pcell TotalArea0];
      [|left; by rewrite dd_get_lookup, lookup_empty].
    rewrite dd_get_fmap, lookup_fmap.
    destruct (total_pcell ta !! p) as [c|] eqn:E;
      cbn [fmap option_fmap option_map]; [right | by left].
    exists c. split; [|done]. right. exists o, p.
    unfold total_cell. by rewrite !dd_get_lookup, Eo, E.
Qed.

Lemma cells_of_targets_8001 s s' c' :
  Gar8001.calculate_targets s = Ok s' ->
  cell_of s' c' ->
  c' = CellArea0
  \/ (exists c, cell_of s c /\ c' = Gar8001.rank_cell c)
  \/ (exists p c,
        cell_of s c
        /\ c' = Gar8001.rank_cell
                  (set_cell_target
                     (cell_target (alone_cell s p)
                      * (cell_hectares c / cell_hectares (alone_cell s p)))
                     c)).
Proof.
  unfold Gar8001.calculate_targets, Gar8001.set_targets.
  destruct (bool_decide _); [|done]. cbn [bind]. intros [= <-].
  unfold Gar8001.calculate_ranks, Gar8001.calculate_cell_ranks.
  cbn [dict_total_area dict_cell_area].
  intros [[p ->] | (o & p & ->)].
  - unfold alone_cell. cbn [dict_cell_area]. rewrite dd_get_fmap.
    destruct (dict_cell_area s !! p) as [c|] eqn:E; [right; left | by left].
    exists c. split; [|done]. left. exists p.
    unfold alone_cell. by rewrite dd_get_lookup, E.
  - unfold total_cell. cbn [dict_total_area].
    rewrite (dd_get_lookup TotalArea0), !lookup_fmap.
    destruct (dict_total_area s !! o) as [ta|] eqn:Eo;
      cbn [fmap option_fmap option_map total_pcell set_pcell TotalArea0];
      [|left; by rewrite dd_get_lookup, lookup_empty].
    rewrite dd_get_fmap, map_lookup_imap.
    destruct (total_pcell ta !! p) as [c|] eqn:E;
      cbn [mbind option_bind]; [right; right | by left].
    exists p, c. split; [|done]. right. exists o, p.
    unfold total_cell. by rewrite !dd_get_lookup, Eo, E.
Qed.

(** X16. The rank pass never tallies more no-harvest hectares than the
    target allows.  For a cell without negative buckets (levels, in GAR
    8-006) and with a target that is not negative, the pass of GAR 8-001
    and that of GAR 8-006 add at most the target to the no-harvest
    hectares.  Hence after [calculate_targets] on any records of
    non-negative area (and, in GAR 8-001, non-negative target) the
    no-harvest hectares of every cell of either hierarchy are within its
    target. *)
Theorem no_harvest_within_target :
  (forall c,
      (forall l b, (0 <= bec_hectares (bucket c l b))%Q) ->
      (0 <= cell_target c)%Q ->
      (nh_hectares (Gar8001.rank_cell c) <= nh_hectares c + cell_target c)%Q)
  /\ (forall c,
        (forall l, (0 <= level_hectares (level_of c l))%Q) ->
        (0 <= cell_target c)%Q ->
        (nh_hectares (Gar8006.rank_cell c)
         <= nh_hectares c + cell_target c)%Q)
  /\ (forall rows c,
        Forall (fun row => (0 <= row_shp_area row)%Q) rows ->
        cell_of (Gar8006.calculate_targets (run R8006 rows)) c ->
        (nh_hectares c <= cell_target c)%Q)
  /\ (forall rows s' c,
        Forall (fun row => (0 <= row_shp_area row)%Q
                           /\ (0 <= row_target row)%Q) rows ->
        Gar8001.calculate_targets (run R8001 rows) = Ok s' ->
        cell_of s' c ->
        (nh_hectares c <= cell_target c)%Q).
Proof.
  split; [exact rank_cell_8001_nh_within|].
  split; [exact rank_cell_8006_nh_within|]. split.
  - intros rows c' Hrows Hc.
    apply cells_of_targets_8006 in Hc as [-> | (c & Hc & ->)]; [cbn; lra|].
    destruct (all_cells_cell_of _ _ _ (nonneg_run_8006 rows Hrows) Hc)
      as (Hn & Ht & Hh & Hl & Hb).
    assert (Ht' : (0 <= cell_target (Gar8006.target_cell c))%Q).
    { cbn [Gar8006.target_cell set_cell_target cell_target]. lra. }
    pose proof (rank_cell_8006_nh_within (Gar8006.target_cell c) Hl Ht') as H.
    pose proof (proj1 (rank_cell_8006_scalars (Gar8006.target_cell c))) as E.
    change (nh_hectares (Gar8006.target_cell c)) with (nh_hectares c) in H.
    rewrite Hn in H. rewrite E. lra.
  - intros rows s' c' Hrows Hs' Hc.
    pose proof (nonneg_run_8001 rows Hrows) as Hall.
    apply (cells_of_targets_8001 _ _ _ Hs') in Hc
      as [-> | [(c & Hc & ->) | (p & c & Hc & ->)]]; [cbn; lra | |].
    + destruct (all_cells_cell_of _ _ _ Hall Hc) as (Hn & Ht & Hh & Hl & Hb).
      pose proof (rank_cell_8001_nh_within c Hb Ht) as H.
      rewrite Hn in H. rewrite (proj1 (rank_cell_8001_scalars c)). lra.
    + destruct (all_cells_cell_of _ _ _ Hall Hc) as (Hn & Ht & Hh & Hl & Hb).
      destruct (proj1 Hall p) as (_ & Htp & Hhp & _).
      match goal with
      | |- context [set_cell_target ?t c] => set (t' := t) in *
      end.
      assert (Ht' : (0 <= t')%Q).
      { unfold t'. apply Qmult_le_0_compat; [done|].
        apply Qmult_le_0_compat; [done|]. by apply Qinv_le_0_compat. }
      pose proof (rank_cell_8001_nh_within (set_cell_target t' c) Hb Ht') as H.
      change (nh_hectares (set_cell_target t' c)) with (nh_hectares c) in H.
      rewrite Hn in H.
      rewrite (proj1 (rank_cell_8001_scalars (set_cell_target t' c))).
      cbn [set_cell_target cell_target] in *. lra.
Qed.

Lemma no_harvest_within_target_witness :
  let c := alone_cell (Gar8006.calculate_targets (run R8006 rows_recruit))
             "C1" in
  (nh_hectares c <= cell_target c)%Q
  /\ let c' := total_cell targeted_two_areas "OA" "C1" in
     (nh_hectares c' <= cell_target c')%Q.
Proof.
  destruct no_harvest_within_target as (_ & _ & H8006 & H8001).
  cbv zeta. split.
  - apply (H8006 rows_recruit).
    + repeat (apply Forall_cons; split; [cbn; lra|]). apply Forall_nil_2.
    + left. by exists "C1".
  - apply (H8001 rows_two_areas targeted_two_areas).
    + repeat (apply Forall_cons; split; [cbn; lra|]). apply Forall_nil_2.
    + apply targeted_two_areas_ok.
    + right. by exists "OA", "C1".
Defined.

(** ** What the rank pass of GAR 8-001 adds up *)

Lemma level_hectares_on_level l f c l' :
  level_hectares (level_of (on_level l f c) l')
  = if String.eqb l l' then level_hectares (f (level_of c l'))
    else level_hectares (level_of c l').
Proof.
  destruct (String.eqb_spec l l') as [<-|Hne].
  - by rewrite level_of_on_level_eq.
  - by rewrite level_of_on_level_ne.
Qed.

Lemma level_hectares_on_bucket l b f c l' :
  level_hectares (level_of (on_bucket l b f c) l')
  = level_hectares (level_of c l').
Proof.
  rewrite on_bucket_on_level, level_hectares_on_level.
  by destruct (String.eqb l l').
Qed.

Lemma level_hectares_set_rank l r c l' :
  level_hectares (level_of (on_level l (set_level_rank r) c) l')
  = level_hectares (level_of c l').
Proof. rewrite level_hectares_on_level. by destruct (String.eqb l l'). Qed.

Lemma rank_bucket_level_hectares target l b a w l' :
  level_hectares (level_of (walk_cell (Gar8001.rank_bucket target l b a w)) l')
  = if String.eqb l l'
    then (level_hectares (level_of (walk_cell w) l') + a)%Q
    else level_hectares (level_of (walk_cell w) l').
Proof.
  unfold Gar8001.rank_bucket.
  destruct (is_CH (rank w)); cbv zeta; cbn [set_walk_cell walk_cell];
    rewrite level_hectares_on_level; cbn [level_hectares add_level_hectares];
    [done|].
  assert (H : level_hectares
                (level_of
                   (on_level l
                      (set_level_rank
                         (Some (rank_for (running_total w + a) target)))
                      (on_bucket l b
                         (set_bec_rank
                            (Some (rank_for (running_total w + a) target)))
                         (walk_cell w))) l')
              = level_hectares (level_of (walk_cell w) l'))
    by (by rewrite level_hectares_set_rank, level_hectares_on_bucket).
  destruct (existsb _ _), (rank_for _ _);
    rewrite ?level_of_add_ch, ?level_of_add_nh; by rewrite H.
Qed.

Lemma rank_bucket_imm target l b a w :
  imm_hectares (walk_cell (Gar8001.rank_bucket target l b a w))
  = imm_hectares (walk_cell w).
Proof.
  unfold Gar8001.rank_bucket.
  destruct (is_CH (rank w)); [done|].
  by destruct (existsb _ _), (rank_for _ _).
Qed.

(** One step of the walk adds the area that counts to the hectares of the
    level of the step. *)
Lemma bec_step_level_hectares target l w b l0 :
  l0 <> Gar8001.str_imm ->
  (level_hectares (level_of (walk_cell (Gar8001.bec_step target l w b)) l0)
   == level_hectares (level_of (walk_cell w) l0)
      + (if String.eqb l l0
         then bec_hectares
                (bucket (walk_cell (Gar8001.bec_step target l w b)) l b)
         else 0))%Q.
Proof.
  intros Himm. rewrite bec_step_hectares_self.
  bec_step_cases; rewrite ?rank_bucket_level_hectares;
    cbn [set_walk_cell walk_cell]; autorewrite with cell;
    rewrite ?level_hectares_on_bucket; cbn [bec_hectares set_bec_hectares];
    try (destruct (String.eqb l l0); lra).
  apply String.eqb_eq in Eimm as ->.
  destruct (String.eqb_spec Gar8001.str_imm l0) as [<-|_]; [done|lra].
Qed.

(** The level "Immature" keeps its hectares. *)
Lemma bec_step_level_imm target l w b :
  level_hectares
    (level_of (walk_cell (Gar8001.bec_step target l w b)) Gar8001.str_imm)
  = level_hectares (level_of (walk_cell w) Gar8001.str_imm).
Proof.
  bec_step_cases; rewrite ?rank_bucket_level_hectares;
    cbn [set_walk_cell walk_cell]; autorewrite with cell;
    rewrite ?level_hectares_on_bucket; try done.
  - apply String.eqb_eq in Enthlb as ->. done.
  - apply String.eqb_eq in Enthlb as ->. done.
  - apply String.eqb_eq in Enthlb as ->. done.
  - apply String.eqb_eq in Enthlb as ->. done.
  - apply String.eqb_eq in Esic as ->. done.
  - by rewrite Eimm.
Qed.

Lemma bec_step_imm_hectares target l w b :
  (imm_hectares (walk_cell (Gar8001.bec_step target l w b))
   == imm_hectares (walk_cell w)
      + (if String.eqb l Gar8001.str_imm
         then bec_hectares
                (bucket (walk_cell (Gar8001.bec_step target l w b)) l b)
         else 0))%Q.
Proof.
  rewrite bec_step_hectares_self.
  bec_step_cases; rewrite ?rank_bucket_imm;
    cbn [set_walk_cell walk_cell imm_hectares add_imm_hectares
           add_sic_hectares add_nthlb_hectares on_bucket];
    try (apply String.eqb_eq in Enthlb as ->);
    try (apply String.eqb_eq in Esic as ->);
    cbn; lra.
Qed.

Lemma bec_step_sic_hectares target l w b :
  (sic_hectares (walk_cell (Gar8001.bec_step target l w b))
   == sic_hectares (walk_cell w)
      + (if (String.eqb l Gar8001.str_nthlb_sic
             || String.eqb l Gar8001.str_sic)%bool
         then bec_hectares
                (bucket (walk_cell (Gar8001.bec_step target l w b)) l b)
         else 0))%Q.
Proof.
  rewrite bec_step_hectares_self.
  bec_step_cases; rewrite ?rank_bucket_sic;
    cbn [set_walk_cell walk_cell]; autorewrite with cell;
    cbn [orb sic_hectares add_imm_hectares add_sic_hectares
           add_nthlb_hectares on_bucket bec_hectares set_bec_hectares];
    try lra;
    unfold on_bucket, set_cell_level; cbn [sic_hectares]; lra.
Qed.

Lemma sumQ_pick (g : string -> Q) l0 ls :
  NoDup ls ->
  (sumQ (map (fun l => if String.eqb l l0 then g l else 0%Q) ls)
   == if bool_decide (l0 ∈ ls) then g l0 else 0)%Q.
Proof.
  induction 1 as [|a ls Ha _ IH]; cbn [map sumQ fold_right]; [done|].
  fold (sumQ (map (fun l => if String.eqb l l0 then g l else 0%Q) ls)).
  rewrite IH.
  destruct (String.eqb_spec a l0) as [->|Hne].
  - rewrite (bool_decide_eq_false_2 (l0 ∈ ls)) by done.
    rewrite bool_decide_eq_true_2 by by left. lra.
  - destruct (bool_decide_reflect (l0 ∈ ls)) as [Hin|Hnin].
    + rewrite bool_decide_eq_true_2 by by right. lra.
    + rewrite bool_decide_eq_false_2; [lra|].
      intros [?|?]%elem_of_cons; done.
Qed.

(** A sum of a cell that every step of the walk of a selected level
    increases by the hectares it leaves in the bucket, and that no other
    step changes, grows by the hectares of the buckets of the selected
    levels. *)
Section WalkSums.
Variable target : Q.
Variable m : CellArea -> Q.
Variable sel : string -> bool.
Hypothesis m_touch : forall l c, m (touch_level l c) = m c.
Hypothesis m_step : forall l w b,
  (m (walk_cell (Gar8001.bec_step target l w b))
   == m (walk_cell w)
      + (if sel l
         then bec_hectares
                (bucket (walk_cell (Gar8001.bec_step target l w b)) l b)
         else 0))%Q.

Lemma walk_becs_sums l ks w :
  NoDup ks ->
  (m (walk_cell (Gar8001.walk_becs target l ks w))
   == m (walk_cell w)
      + (if sel l
         then sumQ (map (fun b =>
                      bec_hectares
                        (bucket (walk_cell (Gar8001.walk_becs target l ks w))
                           l b)) ks)
         else 0))%Q.
Proof.
  intros Hnd. revert w.
  induction Hnd as [|k ks Hk _ IH]; intros w.
  - cbn. destruct (sel l); lra.
  - change (Gar8001.walk_becs target l (k :: ks) w)
      with (Gar8001.walk_becs target l ks (Gar8001.bec_step target l w k)).
    cbn [map sumQ fold_right].
    rewrite walk_becs_other
      by (right; intros Hin; by apply Hk, list_elem_of_In).
    pose proof (IH (Gar8001.bec_step target l w k)) as H1.
    pose proof (m_step l w k) as H2.
    destruct (sel l);
      [fold (sumQ (map (fun b =>
                     bec_hectares
                       (bucket
                          (walk_cell
                             (Gar8001.walk_becs target l ks
                                (Gar8001.bec_step target l w k))) l b)) ks))|];
      lra.
Qed.

Lemma walk_level_sums l w :
  NoDup (bec_keys (walk_cell w) l) ->
  (m (walk_cell (Gar8001.walk_level target w l))
   == m (walk_cell w)
      + (if sel l
         then bucket_sum (walk_cell (Gar8001.walk_level target w l)) l
         else 0))%Q.
Proof.
  intros Hnd. unfold bucket_sum. rewrite walk_level_keys, walk_level_unfold.
  pose proof (walk_becs_sums l (bec_keys (walk_cell w) l)
                (set_walk_cell (touch_level l) w) Hnd) as H.
  cbn [set_walk_cell walk_cell] in H. by rewrite m_touch in H.
Qed.

Lemma bucket_sum_walk_levels ls w l :
  ~ In l ls ->
  bucket_sum (walk_cell (Gar8001.walk_levels target ls w)) l
  = bucket_sum (walk_cell w) l.
Proof.
  intros Hnin. unfold bucket_sum. rewrite walk_levels_keys. f_equal.
  apply map_ext. intros b. by rewrite walk_levels_other.
Qed.

Lemma walk_levels_sums ls w :
  NoDup ls ->
  (forall l, NoDup (bec_keys (walk_cell w) l)) ->
  (m (walk_cell (Gar8001.walk_levels target ls w))
   == m (walk_cell w)
      + sumQ (map (fun l =>
                if sel l
                then bucket_sum
                       (walk_cell (Gar8001.walk_levels target ls w)) l
                else 0%Q) ls))%Q.
Proof.
  intros Hnd. revert w.
  induction Hnd as [|l ls Hl _ IH]; intros w Hkeys; [cbn; lra|].
  rewrite walk_levels_cons. cbn [map sumQ fold_right].
  rewrite bucket_sum_walk_levels by (intros Hin; by apply Hl, list_elem_of_In).
  pose proof (IH (Gar8001.walk_level target w l)) as H1.
  pose proof (walk_level_sums l w (Hkeys l)) as H2.
  fold (sumQ (map (fun l0 =>
                if sel l0
                then bucket_sum
                       (walk_cell
                          (Gar8001.walk_levels target ls
                             (Gar8001.walk_level target w l))) l0
                else 0%Q) ls)).
  rewrite H1 by (intros l'; by rewrite walk_level_keys). lra.
Qed.
End WalkSums.

Lemma not_imm_lst_level_8001 l :
  In l Gar8001.lst_level -> l <> Gar8001.str_imm.
Proof.
  intros Hin ->. apply list_elem_of_In in Hin. revert Hin. compute_done.
Qed.

Lemma rank_cell_level_sums c l0 :
  (forall l, NoDup (bec_keys c l)) ->
  In l0 Gar8001.lst_level ->
  (level_hectares (level_of (Gar8001.rank_cell c) l0)
   == level_hectares (level_of c l0) + bucket_sum (Gar8001.rank_cell c) l0)%Q.
Proof.
  intros Hkeys Hin.
  pose proof (not_imm_lst_level_8001 l0 Hin) as Himm.
  unfold Gar8001.rank_cell, Gar8001.walk_cell_ranks.
  set (ls := (Gar8001.lst_level ++ [Gar8001.str_imm])%list).
  set (w0 := mkWalk c 0 None).
  pose proof (walk_levels_sums (cell_target c)
                (fun c => level_hectares (level_of c l0))
                (fun l => String.eqb l l0)
                (fun l c => f_equal level_hectares (level_of_touch l l0 c))
                (fun l w b =>
                   bec_step_level_hectares (cell_target c) l w b l0 Himm)
                ls w0 NoDup_lst_level_8001 Hkeys) as H.
  pose proof (sumQ_pick
                (bucket_sum
                   (walk_cell (Gar8001.walk_levels (cell_target c) ls w0)))
                l0 ls NoDup_lst_level_8001) as H2.
  rewrite bool_decide_eq_true_2 in H2
    by (apply elem_of_app; left; by apply list_elem_of_In).
  cbv beta in H. change (walk_cell w0) with c in H. lra.
Qed.

Lemma rank_cell_level_imm c :
  level_hectares (level_of (Gar8001.rank_cell c) Gar8001.str_imm)
  = level_hectares (level_of c Gar8001.str_imm).
Proof.
  unfold Gar8001.rank_cell, Gar8001.walk_cell_ranks, Gar8001.walk_levels.
  apply (fold_left_invariant _
           (fun w => level_hectares (level_of (walk_cell w) Gar8001.str_imm))).
  intros w l _. rewrite walk_level_unfold. unfold Gar8001.walk_becs.
  rewrite (fold_left_invariant _
             (fun w =>
                level_hectares (level_of (walk_cell w) Gar8001.str_imm)));
    [cbn [set_walk_cell walk_cell]; by rewrite level_of_touch|].
  intros a b _. apply bec_step_level_imm.
Qed.

Lemma rank_cell_imm_sums c :
  (forall l, NoDup (bec_keys c l)) ->
  (imm_hectares (Gar8001.rank_cell c)
   == imm_hectares c + bucket_sum (Gar8001.rank_cell c) Gar8001.str_imm)%Q.
Proof.
  intros Hkeys.
  unfold Gar8001.rank_cell, Gar8001.walk_cell_ranks.
  set (ls := (Gar8001.lst_level ++ [Gar8001.str_imm])%list).
  set (w0 := mkWalk c 0 None).
  pose proof (walk_levels_sums (cell_target c) imm_hectares
                (fun l => String.eqb l Gar8001.str_imm)
                (fun l c => eq_refl)
                (bec_step_imm_hectares (cell_target c))
                ls w0 NoDup_lst_level_8001 Hkeys) as H.
  pose proof (sumQ_pick
                (bucket_sum
                   (walk_cell (Gar8001.walk_levels (cell_target c) ls w0)))
                Gar8001.str_imm ls NoDup_lst_level_8001) as H2.
  rewrite bool_decide_eq_true_2 in H2 by compute_done.
  cbv beta in H. change (walk_cell w0) with c in H. lra.
Qed.

Lemma rank_cell_sic_sums c :
  (forall l, NoDup (bec_keys c l)) ->
  (sic_hectares (Gar8001.rank_cell c)
   == sic_hectares c
      + bucket_sum (Gar8001.rank_cell c) Gar8001.str_nthlb_sic
      + bucket_sum (Gar8001.rank_cell c) Gar8001.str_sic)%Q.
Proof.
  intros Hkeys.
  unfold Gar8001.rank_cell, Gar8001.walk_cell_ranks.
  set (ls := (Gar8001.lst_level ++ [Gar8001.str_imm])%list).
  set (w0 := mkWalk c 0 None).
  set (g := bucket_sum
              (walk_cell (Gar8001.walk_levels (cell_target c) ls w0))).
  pose proof (walk_levels_sums (cell_target c) sic_hectares
                (fun l => (String.eqb l Gar8001.str_nthlb_sic
                           || String.eqb l Gar8001.str_sic)%bool)
                (fun l c => eq_refl)
                (bec_step_sic_hectares (cell_target c))
                ls w0 NoDup_lst_level_8001 Hkeys) as H.
  cbv beta in H. fold g in H.
  pose proof (sumQ_pick g Gar8001.str_nthlb_sic ls NoDup_lst_level_8001)
    as H1.
  pose proof (sumQ_pick g Gar8001.str_sic ls NoDup_lst_level_8001) as H2.
  rewrite bool_decide_eq_true_2 in H1 by compute_done.
  rewrite bool_decide_eq_true_2 in H2 by compute_done.
  pose proof (sumQ_map_plus
                (fun l => if String.eqb l Gar8001.str_nthlb_sic
                          then g l else 0%Q)
                (fun l => if String.eqb l Gar8001.str_sic
                          then g l else 0%Q) ls) as H3.
  pose proof (sumQ_map_ext
                (fun l => if (String.eqb l Gar8001.str_nthlb_sic
                              || String.eqb l Gar8001.str_sic)%bool
                          then g l else 0%Q)
                (fun l => (if String.eqb l Gar8001.str_nthlb_sic
                           then g l else 0%Q)
                          + (if String.eqb l Gar8001.str_sic
                             then g l else 0%Q))%Q ls) as H4.
  change (walk_cell w0) with c in H.
  rewrite H, H4, H3, H1, H2; [lra|].
  intros l. destruct (String.eqb_spec l Gar8001.str_nthlb_sic) as [->|_];
    cbn [orb]; [|destruct (String.eqb l Gar8001.str_sic); lra].
  change (String.eqb Gar8001.str_nthlb_sic Gar8001.str_sic) with false.
  cbv iota. lra.
Qed.

Lemma unwalked_0 : unwalked CellArea0.
Proof. by repeat split. Qed.

Lemma unwalked_add_bec level bec x c :
  unwalked c -> unwalked (cell_add_bec level bec x c).
Proof.
  intros (Hs & Hi & Hl). repeat split; try done.
  intros l. unfold level_of, cell_add_bec. cbn [cell_level set_cell_level].
  destruct (decide (level = Some l)) as [->|Hne].
  - rewrite dd_get_update_eq. apply Hl.
  - rewrite dd_get_update_ne by done. apply Hl.
Qed.

Lemma unwalked_add_hectares x c :
  unwalked c -> unwalked (add_cell_hectares x c).
Proof. intros (Hs & Hi & Hl). by repeat split. Qed.

Lemma unwalked_set_target t c : unwalked c -> unwalked (set_cell_target t c).
Proof. intros (Hs & Hi & Hl). by repeat split. Qed.

Lemma unwalked_run_8001 rows : all_cells unwalked (run R8001 rows).
Proof.
  apply (run_all_cells R8001 unwalked (fun _ => True));
    [apply unwalked_0| |by apply Forall_forall].
  intros row s _ IH.
  unfold call, calculate_level, Gar8001.calculate_level. cbv zeta.
  destruct (Gar8001.classify _ _ _ _ _ _ _ _); [|done].
  cbn [snd]. unfold Gar8001.accumulate.
  keeps_all_cells IH; intros c Hc;
    auto using unwalked_add_hectares, unwalked_set_target, unwalked_add_bec.
Qed.

Lemma sums_of_buckets_0 : sums_of_buckets CellArea0.
Proof. by repeat split. Qed.

Lemma sums_of_buckets_rank_cell c :
  unwalked c -> (forall l, NoDup (bec_keys c l)) ->
  sums_of_buckets (Gar8001.rank_cell c).
Proof.
  intros (Hs & Hi & Hl) Hkeys. repeat split.
  - intros l Hin. pose proof (rank_cell_level_sums c l Hkeys Hin) as H.
    rewrite Hl in H. lra.
  - by rewrite rank_cell_level_imm.
  - pose proof (rank_cell_imm_sums c Hkeys) as H. rewrite Hi in H. lra.
  - pose proof (rank_cell_sic_sums c Hkeys) as H. rewrite Hs in H. lra.
Qed.

(** X17. What the rank pass of GAR 8-001 adds up.  On a cell whose [bec]
    dictionaries have distinct keys, the pass adds to the hectares of each
    level of [lst_level] the hectares its buckets hold after the pass (the
    capped ones for "NTHLB SIC"), leaves the hectares of the level
    "Immature" as they are, adds the buckets of "Immature" to the immature
    hectares, and the buckets of "NTHLB SIC" and "SIC" to the SIC hectares.
    Hence in every cell of either hierarchy after [calculate_targets] on
    any records, the hectares of a ranked level are the sum of its
    buckets, those of "Immature" are zero, and the immature and SIC
    hectares are the sums of the buckets of their levels. *)
Theorem rank_pass_sums_8001 :
  (forall c,
      (forall l, NoDup (bec_keys c l)) ->
      let c' := Gar8001.rank_cell c in
      (forall l, In l Gar8001.lst_level ->
                 (level_hectares (level_of c' l)
                  == level_hectares (level_of c l) + bucket_sum c' l)%Q)
      /\ level_hectares (level_of c' Gar8001.str_imm)
         = level_hectares (level_of c Gar8001.str_imm)
      /\ (imm_hectares c'
          == imm_hectares c + bucket_sum c' Gar8001.str_imm)%Q
      /\ (sic_hectares c'
          == sic_hectares c + bucket_sum c' Gar8001.str_nthlb_sic
             + bucket_sum c' Gar8001.str_sic)%Q)
  /\ (forall rows s' c',
        Gar8001.calculate_targets (run R8001 rows) = Ok s' ->
        cell_of s' c' ->
        sums_of_buckets c').
Proof.
  split.
  - intros c Hkeys. cbv zeta. repeat split.
    + intros l. by apply rank_cell_level_sums.
    + apply rank_cell_level_imm.
    + by apply rank_cell_imm_sums.
    + by apply rank_cell_sic_sums.
  - intros rows s' c' Hs' Hc.
    pose proof (unwalked_run_8001 rows) as Hall.
    pose proof (built_all_fresh R8001 _ (built_run R8001 rows)) as Hfresh.
    assert (Hcells : forall c, cell_of (run R8001 rows) c ->
                               unwalked c /\ forall l, NoDup (bec_keys c l)).
    { intros c Hc0. split; [by apply (all_cells_cell_of _ _ _ Hall)|].
      destruct Hfresh as [Ha Ht].
      destruct Hc0 as [[p ->] | (o & p & ->)]; [apply Ha | apply Ht]. }
    apply (cells_of_targets_8001 _ _ _ Hs') in Hc
      as [-> | [(c & Hc & ->) | (p & c & Hc & ->)]];
      [apply sums_of_buckets_0 | |];
      destruct (Hcells c Hc) as [Hu Hk].
    + by apply sums_of_buckets_rank_cell.
    + apply sums_of_buckets_rank_cell; [by apply unwalked_set_target|].
      exact Hk.
Qed.

Lemma rank_pass_sums_8001_witness :
  (let c' := Gar8001.rank_cell (alone_cell (run R8001 rows_two_areas) "C1") in
   (sic_hectares c'
    == sic_hectares (alone_cell (run R8001 rows_two_areas) "C1")
       + bucket_sum c' Gar8001.str_nthlb_sic
       + bucket_sum c' Gar8001.str_sic)%Q)
  /\ sums_of_buckets (total_cell targeted_two_areas "OA" "C1").
Proof.
  destruct rank_pass_sums_8001 as [Hcell Hrun]. split.
  - apply (Hcell (alone_cell (run R8001 rows_two_areas) "C1")).
    destruct (built_all_fresh R8001 _ (built_run R8001 rows_two_areas))
      as [Ha _].
    destruct (Ha "C1") as (_ & _ & Hk). exact Hk.
  - apply (Hrun rows_two_areas targeted_two_areas).
    + apply targeted_two_areas_ok.
    + right. by exists "OA", "C1".
Defined.

(** ** The targets of GAR 4-010 *)

Lemma untargeted_add_level level x c :
  untargeted c -> untargeted (cell_add_level level x c).
Proof.
  intros [Ht Hl]. split; [done|]. intros l.
  rewrite level_of_cell_add_level. destruct (opt_is level l); apply Hl.
Qed.



Lemma target_cell_4010_hectares pcell c :
  cell_hectares (Gar4010.target_cell pcell c) = cell_hectares c.
Proof.
  unfold Gar4010.target_cell. cbv zeta.
  by destruct (existsb _ _), (String.eqb pcell Gar4010.zone7),
    (String.eqb pcell Gar4010.zone8).
Qed.









(** ** The targets of GAR 4-001 *)

Lemma alone_cell_4001 row s p :
  alone_cell (snd (call R4001 row s)) p
  = if String.eqb p (row_pcell row) then add_4001 row (alone_cell s p)
    else alone_cell s p.
Proof.
  destruct (String.eqb_spec p (row_pcell row)) as [->|Hne];
    [|by apply call_other_alone].
  unfold call, calculate_level, Gar4001.calculate_level, add_4001, label_4001,
    dict_getitem.
  cbv zeta. destruct (opt_is (row_gfa row) "Y"); [|done].
  destruct (Gar4001.dict_levels !! row_notes row),
    (truthyL (Gar4001.classify _ _ _)); cbn [snd];
    unfold alone_cell; cbn [dict_cell_area];
    rewrite ?on_cell_on_cell, ?dd_get_on_cell, ?String.eqb_refl; done.
Qed.

Lemma total_cell_4001 row s o p :
  total_cell (snd (call R4001 row s)) o p
  = if (String.eqb o (row_op_area row) && String.eqb p (row_pcell row))%bool
    then add_4001 row (total_cell s o p)
    else total_cell s o p.
Proof.
  destruct (String.eqb_spec o (row_op_area row)) as [->|Hne];
    [destruct (String.eqb_spec p (row_pcell row)) as [->|Hne]|];
    cbn [andb]; [|apply call_other_total; by right
                 |apply call_other_total; by left].
  unfold call, calculate_level, Gar4001.calculate_level, add_4001, label_4001,
    dict_getitem.
  cbv zeta. destruct (opt_is (row_gfa row) "Y"); [|done].
  destruct (Gar4001.dict_levels !! row_notes row),
    (truthyL (Gar4001.classify _ _ _)); cbn [snd];
    unfold total_cell; cbn [dict_total_area];
    rewrite ?on_total_on_total, ?dd_get_on_total, ?String.eqb_refl; done.
Qed.

Lemma label_4001_truthy row l : label_4001 row = Some l -> truthyS l = true.
Proof.
  unfold label_4001, Gar4001.classify. cbv zeta.
  repeat case_match; by intros [= <-].
Qed.

Lemma add_4001_total_hectares row c l :
  (level_total_hectares (level_of (add_4001 row c) l)
   == level_total_hectares (level_of c l)
      + (if habitat_4001 row l then row_shp_area row else 0))%Q.
Proof.
  unfold add_4001, habitat_4001. cbv zeta.
  destruct (opt_is (row_gfa row) "Y"); cbn [andb]; [|lra].
  assert (H1 : level_total_hectares
                 (level_of
                    (if truthyL (label_4001 row)
                     then cell_add_level (label_4001 row) (row_shp_area row) c
                     else c) l)
               = level_total_hectares (level_of c l)).
  { destruct (truthyL _); [|done]. rewrite level_of_cell_add_level.
    by destruct (opt_is _ l). }
  destruct (Gar4001.dict_levels !! row_notes row) as [tl|].
  - change (level_of (add_cell_hectares ?x ?c') l) with (level_of c' l).
    rewrite level_of_cell_add_level_total. cbn [opt_is].
    destruct (String.eqb_spec tl l) as [->|Hne].
    + rewrite bool_decide_eq_true_2 by done.
      cbn [level_total_hectares add_level_total_hectares]. rewrite H1. lra.
    + rewrite bool_decide_eq_false_2 by congruence. rewrite H1. lra.
  - rewrite bool_decide_eq_false_2 by done. rewrite H1. lra.
Qed.

Lemma add_4001_level_hectares row c l :
  (level_hectares (level_of (add_4001 row c) l)
   == level_hectares (level_of c l)
      + (if (opt_is (row_gfa row) "Y" && opt_is (label_4001 row) l)%bool
         then row_shp_area row else 0))%Q.
Proof.
  unfold add_4001. cbv zeta.
  destruct (opt_is (row_gfa row) "Y"); cbn [andb]; [|lra].
  assert (H1 : (level_hectares
                  (level_of
                     (if truthyL (label_4001 row)
                      then cell_add_level (label_4001 row) (row_shp_area row) c
                      else c) l)
                == level_hectares (level_of c l)
                   + (if opt_is (label_4001 row) l
                      then row_shp_area row else 0))%Q).
  { destruct (label_4001 row) as [l'|] eqn:El; cbn [truthyL opt_is]; [|lra].
    rewrite (label_4001_truthy _ _ El), level_of_cell_add_level. cbn [opt_is].
    destruct (String.eqb l' l); cbn [level_hectares add_level_hectares]; lra. }
  destruct (Gar4001.dict_levels !! row_notes row) as [tl|]; [|exact H1].
  change (level_of (add_cell_hectares ?x ?c') l) with (level_of c' l).
  rewrite level_of_cell_add_level_total.
  destruct (opt_is (Some tl) l); exact H1.
Qed.

Lemma untargeted_add_level_total level x c :
  untargeted c -> untargeted (cell_add_level_total level x c).
Proof.
  intros [Ht Hl]. split; [done|]. intros l.
  rewrite level_of_cell_add_level_total. destruct (opt_is level l); apply Hl.
Qed.

Lemma untargeted_add_4001 row c : untargeted c -> untargeted (add_4001 row c).
Proof.
  intros Hc. unfold add_4001. cbv zeta.
  destruct (opt_is (row_gfa row) "Y"); [|done].
  assert (H1 : untargeted
                 (if truthyL (label_4001 row)
                  then cell_add_level (label_4001 row) (row_shp_area row) c
                  else c))
    by (destruct (truthyL _); [by apply untargeted_add_level | done]).
  destruct (Gar4001.dict_levels !! row_notes row) as [tl|]; [|done].
  by apply (untargeted_add_level_total (Some tl) (row_shp_area row)) in H1.
Qed.

Lemma untargeted_run_4001 rows : all_cells untargeted (run R4001 rows).
Proof.
  induction rows as [|row rows IH] using rev_ind; [by split|].
  rewrite run_snoc. destruct IH as [Ha Ht]. split.
  - intros p. rewrite alone_cell_4001.
    destruct (String.eqb p (row_pcell row)); [apply untargeted_add_4001|];
      apply Ha.
  - intros o p. rewrite total_cell_4001.
    destruct (String.eqb o (row_op_area row)
              && String.eqb p (row_pcell row))%bool;
      [apply untargeted_add_4001|]; apply Ht.
Qed.

Lemma level_of_CellArea0 l : level_of CellArea0 l = Level0.
Proof. reflexivity. Qed.

Lemma target_level_4001 l lv :
  level_target lv = 0%Q ->
  (level_target (Gar4001.target_level (Some l) lv)
   == share_4001 l * level_total_hectares lv)%Q.
Proof.
  intros H0. unfold Gar4001.target_level, share_4001. cbn [opt_is].
  destruct (String.eqb l "Mule Deer SIC"); [cbn; lra|].
  destruct (String.eqb l "Moose SIC"); [cbn; lra|].
  destruct (String.eqb l "Forage Areas"); [cbn; lra|].
  rewrite H0. lra.
Qed.

Lemma target_cell_4001_target c l :
  untargeted c ->
  (level_target (level_of (Gar4001.target_cell c) l)
   == share_4001 l * level_total_hectares (level_of c l))%Q.
Proof.
  intros [_ Hl]. specialize (Hl l). revert Hl.
  unfold Gar4001.target_cell, level_of, dd_get.
  cbn [cell_level set_cell_level]. rewrite map_lookup_imap.
  destruct (cell_level c !! Some l) as [lv|]; cbn; [|intros _; lra].
  apply target_level_4001.
Qed.

(** X19. The targets of GAR 4-001.  After any records, the total hectares
    of a level of a cell are the area of the records of the cell that lie
    in the gross forested area and whose feature note is the key of
    [dict_levels] for that level, whether or not the stand qualified; the
    hectares of the level are the area of those given its label.  After
    [calculate_targets] the target of the level is its share of the total
    hectares: 40 % for "Mule Deer SIC", 20 % for "Moose SIC", 10 % for
    "Forage Areas", and zero for any other level.  All of it holds in both
    hierarchies. *)
Theorem targets_4001 rows op_area pcell l :
  let s := run R4001 rows in
  let s' := Gar4001.calculate_targets s in
  let in_cell row := String.eqb pcell (row_pcell row) in
  let in_area row :=
    (String.eqb op_area (row_op_area row) && in_cell row)%bool in
  let labelled row :=
    (opt_is (row_gfa row) "Y" && opt_is (label_4001 row) l)%bool in
  (level_total_hectares (level_of (alone_cell s pcell) l)
   == area_where (fun row => in_cell row && habitat_4001 row l)%bool rows)%Q
  /\ (level_total_hectares (level_of (total_cell s op_area pcell) l)
      == area_where (fun row => in_area row && habitat_4001 row l)%bool
           rows)%Q
  /\ (level_hectares (level_of (alone_cell s pcell) l)
      == area_where (fun row => in_cell row && labelled row)%bool rows)%Q
  /\ (level_hectares (level_of (total_cell s op_area pcell) l)
      == area_where (fun row => in_area row && labelled row)%bool rows)%Q
  /\ (level_target (level_of (alone_cell s' pcell) l)
      == share_4001 l
         * level_total_hectares (level_of (alone_cell s pcell) l))%Q
  /\ (level_target (level_of (total_cell s' op_area pcell) l)
      == share_4001 l
         * level_total_hectares (level_of (total_cell s op_area pcell) l))%Q.
Proof.
  cbv zeta. pose proof (untargeted_run_4001 rows) as [Ha Ht].
  repeat split.
  - apply (run_measure R4001
             (fun s => level_total_hectares (level_of (alone_cell s pcell) l)));
      [reflexivity|].
    intros row s. rewrite alone_cell_4001.
    destruct (String.eqb pcell (row_pcell row)); cbn [andb];
      [apply add_4001_total_hectares | lra].
  - apply (run_measure R4001
             (fun s => level_total_hectares
                         (level_of (total_cell s op_area pcell) l)));
      [reflexivity|].
    intros row s. rewrite total_cell_4001.
    destruct (String.eqb op_area (row_op_area row)
              && String.eqb pcell (row_pcell row))%bool; cbn [andb];
      [apply add_4001_total_hectares | lra].
  - apply (run_measure R4001
             (fun s => level_hectares (level_of (alone_cell s pcell) l)));
      [reflexivity|].
    intros row s. rewrite alone_cell_4001.
    destruct (String.eqb pcell (row_pcell row)); cbn [andb];
      [apply add_4001_level_hectares | lra].
  - apply (run_measure R4001
             (fun s => level_hectares
                         (level_of (total_cell s op_area pcell) l)));
      [reflexivity|].
    intros row s. rewrite total_cell_4001.
    destruct (String.eqb op_area (row_op_area row)
              && String.eqb pcell (row_pcell row))%bool; cbn [andb];
      [apply add_4001_level_hectares | lra].
  - specialize (Ha pcell). revert Ha.
    unfold Gar4001.calculate_targets, alone_cell. cbn [dict_cell_area].
    rewrite dd_get_fmap, dd_get_lookup.
    destruct (dict_cell_area (run R4001 rows) !! pcell) as [c|];
      [apply target_cell_4001_target|];
      intros _; rewrite !level_of_CellArea0;
      cbn [level_target level_total_hectares Level0]; lra.
  - specialize (Ht op_area pcell). revert Ht.
    unfold Gar4001.calculate_targets, total_cell. cbn [dict_total_area].
    rewrite !(dd_get_lookup TotalArea0), lookup_fmap.
    destruct (dict_total_area (run R4001 rows) !! op_area) as [ta|];
      cbn [fmap option_fmap option_map total_pcell set_pcell TotalArea0].
    + rewrite dd_get_fmap, dd_get_lookup.
      destruct (total_pcell ta !! pcell) as [c|];
        [apply target_cell_4001_target|];
      intros _; rewrite !level_of_CellArea0;
      cbn [level_target level_total_hectares Level0]; lra.
    + intros _. rewrite dd_get_lookup, lookup_empty, !level_of_CellArea0.
      cbn [level_target level_total_hectares Level0]. lra.
Qed.
